(** * xrpl-sample-code: the Batch inner-transaction status resolver

    A shallow embedding of
      - [src/lib/validateTransaction.ts]   ([validateTransactionResult]),
      - [src/lib/getBatchTxStatus.ts]      ([getBatchTxStatus]),
      - [src/config/network.ts]            ([getNetworkUrl]),
      - [src/xrpl/Batch/batchAllOrNothing.ts] ([batchAllOrNothing]),
      - [src/xrpl/Batch/batchOnlyOne.ts], [src/xrpl/Batch/batchUntilFailure.ts],
      - [src/xrpl/Payment/sendIOU.ts], [src/xrpl/Payment/sendIOUOutsider.ts],
      - [src/xrpl/MPTokens/mptokenAuthorizeByUser.ts],
      - [src/config/env.ts]                ([envSchema]),
    and the properties of these functions.

    The xrpl.js SDK (the [Client] methods, [Wallet], [hashes.hashSignedTx],
    [xrpToDrops]) and the ledger node behind it are not part of the
    repository: they are taken as a parameter, the record [Sdk], and every
    property is proved for every SDK.  Console output is not modelled: it
    influences neither the control flow nor the client. *)

From Stdlib Require Import ZArith Lia Ascii.
From stdpp Require Import base strings list sets sorting.

Set Warnings "-register-all".

Local Open Scope string_scope.
Local Open Scope nat_scope.
Local Open Scope list_scope.

(** ** JavaScript values and completions *)

Module Js.

(** The values a JSON response of the node is made of.  Numbers are
    integers: the code under study never computes with a fraction. *)
Inductive Value :=
| Undefined
| Null
| Bool (b : bool)
| Number (n : Z)
| Str (s : string)
| Object (fields : list (string * Value))
| Array (items : list Value).

(** What a [throw] carries. [Error] stands for the errors of the SDK
    (all of them subclasses of [Error]); [TransactionFailed txResult] is
    [new Error(`Transaction failed: ${txResult}`)], whose message is a
    function of [txResult]. *)
Inductive Exn :=
| TypeError (message : string)
| Error (message : string)
| TransactionFailed (txResult : Value).

(** The completion of a synchronous computation. *)
Inductive Completion (A : Type) :=
| Normal (a : A)
| Throw (e : Exn).
Arguments Normal {A} a.
Arguments Throw {A} e.

(** The state of a promise. *)
Inductive Promise (A : Type) :=
| Pending
| Settled (c : Completion A).
Arguments Pending {A}.
Arguments Settled {A} c.

Definition Fulfilled {A} (a : A) : Promise A := Settled (Normal a).
Definition Rejected {A} (e : Exn) : Promise A := Settled (Throw e).

(** [ToBoolean]. *)
Definition truthy (v : Value) : bool :=
  match v with
  | Undefined | Null => false
  | Bool b => b
  | Number n => negb (n =? 0)%Z
  | Str s => negb (String.eqb s "")
  | Object _ | Array _ => true
  end.

(** [typeof v]. *)
Definition typeof (v : Value) : string :=
  match v with
  | Undefined => "undefined"
  | Null | Object _ | Array _ => "object"
  | Bool _ => "boolean"
  | Number _ => "number"
  | Str _ => "string"
  end.

Definition isArray (v : Value) : bool :=
  match v with Array _ => true | _ => false end.

(** The elements of an array, [v[0]], ..., [v[v.length - 1]]. *)
Definition array_items (v : Value) : list Value :=
  match v with Array items => items | _ => [] end.

(** [v === s] for a string literal [s]. *)
Definition strict_eq_str (v : Value) (s : string) : bool :=
  match v with Str t => String.eqb t s | _ => false end.

(** The first binding of [k], as in an object literal read in order. *)
Fixpoint assoc (k : string) (fields : list (string * Value)) : option Value :=
  match fields with
  | [] => None
  | (k', v) :: rest => if String.eqb k k' then Some v else assoc k rest
  end.

(** Property names that are array indices: canonical decimal numerals. *)
Definition digit_of (a : ascii) : option nat :=
  let n := nat_of_ascii a in
  if ((48 <=? n) && (n <=? 57))%nat then Some (n - 48)%nat else None.

Fixpoint parse_digits (acc : nat) (s : string) : option nat :=
  match s with
  | EmptyString => Some acc
  | String a rest =>
      match digit_of a with
      | Some d => parse_digits (10 * acc + d)%nat rest
      | None => None
      end
  end.

Definition array_index (k : string) : option nat :=
  match k with
  | EmptyString => None
  | String a EmptyString => digit_of a
  | String a _ => if Ascii.eqb a "0"%char then None else parse_digits 0%nat k
  end.

(** [k in v].  Own properties only: none of the names the code asks for
    ([TransactionResult], [RawTransactions], [RawTransaction]) is
    inherited from [Object.prototype] or [Array.prototype].  On a
    value that is not an object the operator throws. *)
Definition has_property (k : string) (v : Value) : Completion bool :=
  match v with
  | Object fields => Normal (bool_decide (is_Some (assoc k fields)))
  | Array items =>
      Normal (match array_index k with
              | Some i => bool_decide (i < length items)%nat
              | None => String.eqb k "length"
              end)
  | _ => Throw (TypeError "Cannot use 'in' operator")
  end.

(** [v.k].  Reading a property of [undefined] or [null] throws; a
    primitive has none of the names the code reads. *)
Definition get (v : Value) (k : string) : Completion Value :=
  match v with
  | Undefined | Null => Throw (TypeError "Cannot read properties")
  | Object fields => Normal (default Undefined (assoc k fields))
  | Array items =>
      Normal (match array_index k with
              | Some i => default Undefined (items !! i)
              | None => if String.eqb k "length"
                        then Number (Z.of_nat (length items))
                        else Undefined
              end)
  | Bool _ | Number _ | Str _ => Normal Undefined
  end.

(** [v?.k]. *)
Definition get_optional (v : Value) (k : string) : Completion Value :=
  match v with
  | Undefined | Null => Normal Undefined
  | _ => get v k
  end.

(** Sequencing of synchronous computations: [x ← c; k] runs [k] when [c]
    completes normally and passes a [throw] on. *)
#[global] Instance Completion_ret : MRet Completion := λ A, Normal.
#[global] Instance Completion_bind : MBind Completion := λ A B k c,
  match c with
  | Normal a => k a
  | Throw e => Throw e
  end.

(** [try { body } catch (error) { handler }]. *)
Definition try_catch {A} (body : Completion A) (handler : Exn → Completion A)
  : Completion A :=
  match body with
  | Normal a => Normal a
  | Throw e => handler e
  end.

End Js.

Import Js.

(** ** The responses of the node *)

Module TxResponse.
(** [res.result] of a [tx] or [submitAndWait] response: its [hash], its
    [meta] (absent, a string in binary mode, or the metadata object) and
    its [tx_json]. *)
Record Result := { hash : string; meta : Value; tx_json : Value }.
Record t := { result : Result }.
End TxResponse.

(** ** [src/lib/validateTransaction.ts] *)

Definition validateTransactionResult (result : TxResponse.t) : Completion unit :=
  let meta := TxResponse.meta (TxResponse.result result) in
  txResult ←
    (if String.eqb (typeof meta) "object" then
       present ← has_property "TransactionResult" meta;
       if present : bool then get meta "TransactionResult"
       else Normal (Str "unknown")
     else Normal (Str "unknown"));
  if negb (strict_eq_str txResult "tesSUCCESS")
  then Throw (TransactionFailed txResult)
  else Normal tt.

(** ** The records of [src/lib/getBatchTxStatus.ts] *)

Module InnerTxHash.
(** An element of the parameter [innerTxHashes]. *)
Record t := { hash : string; index : Z }.
End InnerTxHash.

Module InnerTxStatus.
(** The interface [InnerTxStatus].  [status] holds the value found under
    [TransactionResult]: the cast [as { TransactionResult: string }] is
    erased at run time. *)
Record t := { hash : string; successful : bool; status : Value; index : Z }.
End InnerTxStatus.

(** ** The SDK and the outside world *)

(** The argument of [client.request]: [{ command, transaction }]. *)
Record Request := { command : string; transaction : string }.

Module Wallet.
Record t := { address : string; publicKey : string }.
End Wallet.

Module Signed.
(** What [wallet.sign] returns. *)
Record t := { tx_blob : string; hash : string }.
End Signed.

(** The SDK and the node behind it.  [L] is the state of everything
    outside the program: the ledger, the node, the connection.  A call of a
    [Client] method takes that state to a new one and yields a promise,
    which the node fulfils, rejects, or leaves pending for ever; the
    synchronous functions return or throw. *)
Record Sdk (L : Type) := {
  Wallet_fromSeed : string → Completion Wallet.t;
  Wallet_sign : Wallet.t → Value → Completion Signed.t;
  xrpToDrops : string → Completion string;
  hashes_hashSignedTx : Value → Completion string;
  client_connect : L → Promise unit * L;
  client_disconnect : L → Promise unit * L;
  client_autofill : L → Value → Promise Value * L;
  client_submitAndWait : L → string → Promise TxResponse.t * L;
  client_request : L → Request → Promise TxResponse.t * L
}.
Arguments Wallet_fromSeed {L} _ _.
Arguments Wallet_sign {L} _ _ _.
Arguments xrpToDrops {L} _ _.
Arguments hashes_hashSignedTx {L} _ _.
Arguments client_connect {L} _ _.
Arguments client_disconnect {L} _ _.
Arguments client_autofill {L} _ _ _.
Arguments client_submitAndWait {L} _ _ _.
Arguments client_request {L} _ _ _.

(** The calls the program makes, in the order it makes them; a request is
    recorded with the promise it got, and a call of [getBatchTxStatus] from
    a script with its argument. *)
Inductive Call :=
| NewClient (server : string)
| Connect
| Disconnect
| Autofill (tx : Value)
| SubmitAndWait (tx_blob : string)
| SendRequest (r : Request) (answer : Promise TxResponse.t)
| HashSignedTx (tx : Value)
| GetBatchTxStatus (innerTxHashes : list InnerTxHash.t).

Record World (L : Type) := { outside : L; calls : list Call }.
Arguments outside {L} _.
Arguments calls {L} _.

(** ** Asynchronous code: state passing over [World], completing with a
    promise.  [x ← c; k] is [const x = await c; k]: a rejection is thrown
    on, and on a promise that stays pending the function is suspended for
    ever. *)

Definition M (L A : Type) : Type := World L → Promise A * World L.

#[global] Instance M_ret {L} : MRet (M L) := λ A a w, (Fulfilled a, w).
#[global] Instance M_bind {L} : MBind (M L) := λ A B k c w,
  match c w with
  | (Settled (Normal a), w') => k a w'
  | (Settled (Throw e), w') => (Rejected e, w')
  | (Pending, w') => (Pending, w')
  end.

(** A synchronous computation inside an [async] function. *)
Definition sync {L A} (c : Completion A) : M L A := λ w, (Settled c, w).

(** [try { body } catch (error) { handler }] in an [async] function. *)
Definition try_catch_async {L A} (body : M L A) (handler : Exn → M L A) : M L A :=
  λ w,
  match body w with
  | (Settled (Throw e), w') => handler e w'
  | r => r
  end.

(** [try { body } catch (error) { handler } finally { cleanup }].  The
    [finally] block runs after the body, or after the handler when the body
    threw; an error thrown by the block replaces the completion reached
    before it.  When the body never completes the block is never reached. *)
Definition try_catch_finally {L A}
    (body : M L A) (handler : Exn → M L A) (cleanup : M L unit) : M L A := λ w,
  let '(p, w1) := try_catch_async body handler w in
  match p with
  | Pending => (Pending, w1)
  | Settled c =>
      match cleanup w1 with
      | (Settled (Normal _), w2) => (Settled c, w2)
      | (Settled (Throw e), w2) => (Rejected e, w2)
      | (Pending, w2) => (Pending, w2)
      end
  end.

(** ** [Promise.all] *)

Module PromiseAll.

(** The state of the combined promise: the [values] array under
    construction, the count of elements still awaited, and the promise
    itself. *)
Record t (A : Type) := {
  values : list (option A);
  remainingElementsCount : nat;
  promise : Promise (list A)
}.
Arguments values {A} _.
Arguments remainingElementsCount {A} _.
Arguments promise {A} _.

(** [Promise.all] of [n] promises: an empty input is fulfilled at once. *)
Definition init {A} (n : nat) : t A :=
  {| values := replicate n None;
     remainingElementsCount := n;
     promise := if (n =? 0)%nat then Fulfilled [] else Pending |}.

(** Element [i] settles.  A fulfilment stores the value in slot [i] and
    fulfils the combined promise when it was the last one awaited; a
    rejection rejects the combined promise; a promise settles once only. *)
Definition step {A} (i : nat) (c : Completion A) (s : t A) : t A :=
  match c with
  | Normal v =>
      let values' := <[i := Some v]> (values s) in
      let remaining' := pred (remainingElementsCount s) in
      {| values := values';
         remainingElementsCount := remaining';
         promise :=
           match promise s with
           | Pending =>
               if (remaining' =? 0)%nat then Fulfilled (omap id values')
               else Pending
           | settled => settled
           end |}
  | Throw e =>
      {| values := values s;
         remainingElementsCount := remainingElementsCount s;
         promise :=
           match promise s with
           | Pending => Rejected e
           | settled => settled
           end |}
  end.

End PromiseAll.

(** ** [src/lib/getBatchTxStatus.ts] *)

(** Lines 29 to 50: the body of the [try] once the request is answered. *)
Definition on_response (tx : InnerTxHash.t) (res : TxResponse.t)
  : Completion InnerTxStatus.t :=
  let meta := TxResponse.meta (TxResponse.result res) in
  has_result ←
    (if truthy meta then
       if String.eqb (typeof meta) "object"
       then has_property "TransactionResult" meta
       else Normal false
     else Normal false);
  if has_result : bool then
    TransactionResult ← get meta "TransactionResult";
    let isSuccess := strict_eq_str TransactionResult "tesSUCCESS" in
    Normal {| InnerTxStatus.hash := InnerTxHash.hash tx;
              InnerTxStatus.index := InnerTxHash.index tx;
              InnerTxStatus.successful := isSuccess;
              InnerTxStatus.status := TransactionResult |}
  else
    Normal {| InnerTxStatus.hash := InnerTxHash.hash tx;
              InnerTxStatus.index := InnerTxHash.index tx;
              InnerTxStatus.successful := false;
              InnerTxStatus.status := Str "unknown" |}.

(** Lines 23 to 58: the [async] arrow function from its [await] on, given
    how the request settled. *)
Definition on_settled (tx : InnerTxHash.t) (answer : Completion TxResponse.t)
  : Completion InnerTxStatus.t :=
  try_catch
    (res ← answer; on_response tx res)
    (λ error,
      Normal {| InnerTxStatus.hash := InnerTxHash.hash tx;
                InnerTxStatus.index := InnerTxHash.index tx;
                InnerTxStatus.successful := false;
                InnerTxStatus.status := Str "not validated" |}).

(** The timing of the answers: [latency i] is the time at which the answer
    to request [i] arrives. *)
Definition no_later (latency : nat → nat) (i j : nat) : Prop :=
  (latency i ≤ latency j)%nat.

#[global] Instance no_later_dec latency : RelDecision (no_later latency) :=
  λ i j, decide (latency i ≤ latency j)%nat.

Section Resolver.
Context {L : Type} (sdk : Sdk L).

(** [client.request(r)]: the request goes out and a promise comes back. *)
Definition request (r : Request) : M L TxResponse.t := λ w,
  let '(answer, l) := client_request sdk (outside w) r in
  (answer, {| outside := l; calls := calls w ++ [SendRequest r answer] |}).

(** [innerTxHashes.map(async (tx) => ...)]: each arrow function runs up to
    its [await], that is, sends its request; nothing is awaited yet. *)
Fixpoint dispatch (innerTxHashes : list InnerTxHash.t) (w : World L)
  : list (Promise TxResponse.t) * World L :=
  match innerTxHashes with
  | [] => ([], w)
  | tx :: rest =>
      let '(answer, w1) :=
        request {| command := "tx"; transaction := InnerTxHash.hash tx |} w in
      let '(answers, w2) := dispatch rest w1 in
      (answer :: answers, w2)
  end.

(** The order in which the answers arrive: request [i] is answered at time
    [latency i]. *)
Definition arrival_order (latency : nat → nat) (n : nat) : list nat :=
  merge_sort (no_later latency) (seq 0 n).

(** Answer [i] arrives: when the request has settled, its arrow function
    resumes and settles element [i] of [Promise.all]. *)
Definition arrive (innerTxHashes : list InnerTxHash.t)
    (answers : list (Promise TxResponse.t))
    (s : PromiseAll.t InnerTxStatus.t) (i : nat) : PromiseAll.t InnerTxStatus.t :=
  match innerTxHashes !! i, answers !! i with
  | Some tx, Some (Settled answer) => PromiseAll.step i (on_settled tx answer) s
  | _, _ => s
  end.

Definition getBatchTxStatus (latency : nat → nat)
    (innerTxHashes : list InnerTxHash.t) : M L (list InnerTxStatus.t) := λ w,
  let '(answers, w') := dispatch innerTxHashes w in
  let n := length innerTxHashes in
  let results :=
    foldl (arrive innerTxHashes answers) (PromiseAll.init n)
          (arrival_order latency n) in
  (PromiseAll.promise results, w').

End Resolver.

(** ** [src/config/env.ts] and [src/config/network.ts] *)

Inductive EnvTypes := devnet | testnet | mainnet.

(** The fields of [env] the Batch script reads; [envSchema.parse] has
    checked them when the module was loaded. *)
Record Env := { NODE_ENV : EnvTypes; ISUEER_SEED : string; USER_SEED : string }.

Record NetworkType := { rpc : string; ws : string; explorer : string }.

Definition networks (e : EnvTypes) : NetworkType :=
  match e with
  | mainnet =>
      {| rpc := "https://xrplcluster.com";
         ws := "wss://xrplcluster.com";
         explorer := "https://livenet.xrpl.org" |}
  | testnet =>
      {| rpc := "https://s.altnet.rippletest.net:51234";
         ws := "wss://s.altnet.rippletest.net:51233";
         explorer := "https://testnet.xrpl.org" |}
  | devnet =>
      {| rpc := "https://s.devnet.rippletest.net:51234";
         ws := "wss://s.devnet.rippletest.net:51233";
         explorer := "https://devnet.xrpl.org" |}
  end.

Definition getNetworkUrl (env : Env) : NetworkType := networks (NODE_ENV env).

(** ** [src/xrpl/Batch/batchAllOrNothing.ts] *)

(** The check the constructor of xrpl.js's [Client] makes on its argument:
    the server URI starts with [ws://], [wss://], [ws+unix://] or
    [wss+unix://]; otherwise the constructor throws a [ValidationError]. *)
Definition valid_server (server : string) : bool :=
  String.prefix "ws://" server || String.prefix "wss://" server
  || String.prefix "ws+unix://" server || String.prefix "wss+unix://" server.

(** An inner [Payment] of the batch (lines 59 to 67 and 69 to 77). *)
Definition inner_payment (account destination amount : string) : Value :=
  Object [("TransactionType", Str "Payment");
          ("Account", Str account);
          ("Destination", Str destination);
          ("Amount", Str amount);
          ("Flags", Number 0x40000000%Z);
          ("SigningPubKey", Str "");
          ("Fee", Str "0")].

(** The [Batch] transaction (lines 100 to 105). *)
Definition batch_transaction (account : string) (innerTransactions : list Value)
  : Value :=
  Object [("TransactionType", Str "Batch");
          ("Account", Str account);
          ("Flags", Number 0x00010000%Z);
          ("RawTransactions",
           Array ((λ tx, Object [("RawTransaction", tx)]) <$> innerTransactions))].

Section Batch.
Context {L : Type} (sdk : Sdk L).

(** Recording a call. *)
Definition log (c : Call) : M L unit := λ w,
  (Fulfilled tt, {| outside := outside w; calls := calls w ++ [c] |}).

(** [new Client(server)]. *)
Definition new_Client (server : string) : M L unit :=
  if valid_server server then log (NewClient server)
  else
    sync (Throw (Error
      "server URI must start with `wss://`, `ws://`, `wss+unix://`, or `ws+unix://`.")).

(** The methods of the client. *)

Definition connect : M L unit := λ w,
  let '(p, l) := client_connect sdk (outside w) in
  (p, {| outside := l; calls := calls w ++ [Connect] |}).

Definition disconnect : M L unit := λ w,
  let '(p, l) := client_disconnect sdk (outside w) in
  (p, {| outside := l; calls := calls w ++ [Disconnect] |}).

Definition autofill (tx : Value) : M L Value := λ w,
  let '(p, l) := client_autofill sdk (outside w) tx in
  (p, {| outside := l; calls := calls w ++ [Autofill tx] |}).

Definition submitAndWait (tx_blob : string) : M L TxResponse.t := λ w,
  let '(p, l) := client_submitAndWait sdk (outside w) tx_blob in
  (p, {| outside := l; calls := calls w ++ [SubmitAndWait tx_blob] |}).

Definition hashSignedTx (tx : Value) : M L string :=
  _ ← log (HashSignedTx tx); sync (hashes_hashSignedTx sdk tx).

(** Lines 146 to 159: the loop over [rawTransactions], from position [i]
    on, [items] being what is left of the array. *)
Fixpoint collectInnerTxHashes (items : list Value) (i : nat)
    (innerTxHashes : list InnerTxHash.t) : M L (list InnerTxHash.t) :=
  match items with
  | [] => mret innerTxHashes
  | item :: rest =>
      innerTx ← sync (get item "RawTransaction");
      innerTxHashes' ←
        (if truthy innerTx then
           try_catch_async
             (txHash ← hashSignedTx innerTx;
              mret (innerTxHashes ++
                      [{| InnerTxHash.hash := txHash;
                          InnerTxHash.index := (Z.of_nat i + 1)%Z |}]))
             (λ error, mret innerTxHashes)
         else mret innerTxHashes);
      collectInnerTxHashes rest (S i) innerTxHashes'
  end.

(** Lines 45 to 210: the body of the [try].  What is only printed (the
    summary of the batch, the statuses, the details of the failed
    transactions) is left out. *)
Definition batchAllOrNothing_try (env : Env) (latency : nat → nat) : M L bool :=
  issuer ← sync (Wallet_fromSeed sdk (ISUEER_SEED env));
  user ← sync (Wallet_fromSeed sdk (USER_SEED env));
  _ ← connect;
  amount1 ← sync (xrpToDrops sdk "1");
  amount2 ← sync (xrpToDrops sdk "0.5");
  let innerTransactions :=
    [inner_payment (Wallet.address issuer) (Wallet.address user) amount1;
     inner_payment (Wallet.address issuer) (Wallet.address user) amount2] in
  let batchTx := batch_transaction (Wallet.address issuer) innerTransactions in
  prepared ← autofill batchTx;
  signed ← sync (Wallet_sign sdk issuer prepared);
  result ← submitAndWait (Signed.tx_blob signed);
  _ ← sync (validateTransactionResult result);
  batchTxData ←
    request sdk {| command := "tx";
                   transaction := TxResponse.hash (TxResponse.result result) |};
  let txJson := TxResponse.tx_json (TxResponse.result batchTxData) in
  rawTransactions ← sync (get_optional txJson "RawTransactions");
  if negb (truthy rawTransactions) || negb (isArray rawTransactions)
  then mret false
  else
    innerTxHashes ← collectInnerTxHashes (array_items rawTransactions) 0 [];
    if (length innerTxHashes =? 0)%nat then mret false
    else
      _ ← log (GetBatchTxStatus innerTxHashes);
      innerTxStatuses ← getBatchTxStatus sdk latency innerTxHashes;
      let failedTxs :=
        filter (λ tx, InnerTxStatus.successful tx = false) innerTxStatuses in
      if (0 <? length failedTxs)%nat then mret false
      else mret true.

(** Lines 39 to 236.  The [catch] block prints the error and a hint, and
    returns [false]. *)
Definition batchAllOrNothing (env : Env) (latency : nat → nat) : M L bool :=
  let network := getNetworkUrl env in
  _ ← new_Client (ws network);
  try_catch_finally
    (batchAllOrNothing_try env latency)
    (λ error, mret false)
    disconnect.

End Batch.

(** * The vocabulary of the properties *)

(** The result code a metadata value exposes: the value under
    [TransactionResult] when the metadata is an object that has that
    field. *)
Definition result_code (meta : Value) : option Value :=
  match meta with
  | Object fields => assoc "TransactionResult" fields
  | _ => None
  end.

(** [meta] is an object that has a [TransactionResult] field, of value
    [code]. *)
Definition has_result_code (meta : Value) (code : Value) : Prop :=
  ∃ fields, meta = Object fields ∧ assoc "TransactionResult" fields = Some code.

Definition unknown_status (tx : InnerTxHash.t) : InnerTxStatus.t :=
  {| InnerTxStatus.hash := InnerTxHash.hash tx;
     InnerTxStatus.index := InnerTxHash.index tx;
     InnerTxStatus.successful := false;
     InnerTxStatus.status := Str "unknown" |}.

Definition not_validated_status (tx : InnerTxHash.t) : InnerTxStatus.t :=
  {| InnerTxStatus.hash := InnerTxHash.hash tx;
     InnerTxStatus.index := InnerTxHash.index tx;
     InnerTxStatus.successful := false;
     InnerTxStatus.status := Str "not validated" |}.

Definition coded_status (tx : InnerTxHash.t) (code : Value) : InnerTxStatus.t :=
  {| InnerTxStatus.hash := InnerTxHash.hash tx;
     InnerTxStatus.index := InnerTxHash.index tx;
     InnerTxStatus.successful := strict_eq_str code "tesSUCCESS";
     InnerTxStatus.status := code |}.

(** The record an arrow function of [getBatchTxStatus] resolves with, in
    closed form; [on_settled_eq] relates it to the code. *)
Definition settled_status (tx : InnerTxHash.t) (answer : Completion TxResponse.t)
  : InnerTxStatus.t :=
  match answer with
  | Normal res =>
      match result_code (TxResponse.meta (TxResponse.result res)) with
      | Some code => coded_status tx code
      | None => unknown_status tx
      end
  | Throw _ => not_validated_status tx
  end.

Definition tx_request (tx : InnerTxHash.t) : Request :=
  {| command := "tx"; transaction := InnerTxHash.hash tx |}.

(** What slot [i] of [Promise.all] receives: the status record of pair [i]
    once its request has settled, nothing while it is pending. *)
Definition slot (innerTxHashes : list InnerTxHash.t)
    (answers : list (Promise TxResponse.t)) (i : nat) : option InnerTxStatus.t :=
  match innerTxHashes !! i, answers !! i with
  | Some tx, Some (Settled answer) => Some (settled_status tx answer)
  | _, _ => None
  end.

(** The promise [getBatchTxStatus] returns, without reference to the order
    of arrival; [getBatchTxStatus_gathered] relates it to the code. *)
Definition gathered (innerTxHashes : list InnerTxHash.t)
    (answers : list (Promise TxResponse.t)) : Promise (list InnerTxStatus.t) :=
  let slots := slot innerTxHashes answers <$> seq 0 (length innerTxHashes) in
  if bool_decide (Forall is_Some slots) then Fulfilled (omap id slots)
  else Pending.

(** The [values] array of [Promise.all] and its count of awaited elements
    after the answers in [done] have arrived. *)
Definition slots_after (innerTxHashes : list InnerTxHash.t)
    (answers : list (Promise TxResponse.t)) (done : list nat)
  : list (option InnerTxStatus.t) :=
  (λ i, if decide (i ∈ done) then slot innerTxHashes answers i else None)
    <$> seq 0 (length innerTxHashes).

Definition awaited_after (innerTxHashes : list InnerTxHash.t)
    (answers : list (Promise TxResponse.t)) (done : list nat) : nat :=
  length innerTxHashes
  - length (filter (λ i, is_Some (slot innerTxHashes answers i)) done).

Section Vocabulary.
Context {L : Type} (sdk : Sdk L).

(** The answer the node gives to the request of a pair, and the state it
    moves to. *)
Definition answer_to (l : L) (tx : InnerTxHash.t) : Promise TxResponse.t :=
  (client_request sdk l (tx_request tx)).1.
Definition state_after (l : L) (tx : InnerTxHash.t) : L :=
  (client_request sdk l (tx_request tx)).2.

(** The promises the [client.request] calls of [getBatchTxStatus] return,
    in the order of the pairs. *)
Definition answers_of (innerTxHashes : list InnerTxHash.t) (w : World L)
  : list (Promise TxResponse.t) :=
  (dispatch sdk innerTxHashes w).1.

(** Every lookup settles: the node answers it or the request is rejected
    (xrpl.js rejects a request that gets no answer within its timeout). *)
Definition every_lookup_settles (innerTxHashes : list InnerTxHash.t) (w : World L)
  : Prop :=
  Forall (λ p, p ≠ Pending) (answers_of innerTxHashes w).

(** Tx lookups are read-only: a [tx] request leaves the ledger, the node
    and the connection as they were. *)
Definition tx_lookups_read_only : Prop :=
  ∀ l r, command r = "tx" → (client_request sdk l r).2 = l.

End Vocabulary.

(** The shape of the calls of [batchAllOrNothing]. *)

(** [tx] is the [RawTransaction] of an element of [items]. *)
Definition raw_transaction_of (items : list Value) (tx : Value) : Prop :=
  ∃ i item, items !! i = Some item ∧ get item "RawTransaction" = Normal tx.

Definition is_hash_call_of (items : list Value) (c : Call) : Prop :=
  ∃ tx, c = HashSignedTx tx ∧ raw_transaction_of items tx.

Definition is_tx_request (c : Call) : Prop :=
  ∃ r p, c = SendRequest r p ∧ command r = "tx".

Fixpoint connects (cs : list Call) : nat :=
  match cs with
  | [] => 0
  | Connect :: rest => S (connects rest)
  | _ :: rest => connects rest
  end.

(** Reading a property throws on [undefined] and on [null] only. *)
Definition readable (v : Value) : bool :=
  match v with Undefined | Null => false | _ => true end.

(** The calls of [hashes.hashSignedTx] the loop of the Batch scripts makes
    on [items]: one for each element whose [RawTransaction] is truthy, in
    the order of the array, up to the first element that is [null] or
    [undefined], at which the loop throws. *)
Fixpoint hash_calls (items : list Value) : list Call :=
  match items with
  | [] => []
  | item :: rest =>
      match get item "RawTransaction" with
      | Normal innerTx =>
          (if truthy innerTx then [HashSignedTx innerTx] else [])
          ++ hash_calls rest
      | Throw _ => []
      end
  end.

Section BatchVocabulary.
Context {L : Type} (sdk : Sdk L).

(** The pair the loop of the Batch scripts pushes for element [i] of the
    array, if any. *)
Definition pair_of_item (i : nat) (item : Value) : option InnerTxHash.t :=
  match get item "RawTransaction" with
  | Normal innerTx =>
      if truthy innerTx then
        match hashes_hashSignedTx sdk innerTx with
        | Normal txHash =>
            Some {| InnerTxHash.hash := txHash;
                    InnerTxHash.index := (Z.of_nat i + 1)%Z |}
        | Throw _ => None
        end
      else None
  | Throw _ => None
  end.

(** The pairs pushed for [items], the first of which is element [i]. *)
Fixpoint hashed_pairs (i : nat) (items : list Value) : list InnerTxHash.t :=
  match items with
  | [] => []
  | item :: rest => option_list (pair_of_item i item) ++ hashed_pairs (S i) rest
  end.

(** The submission of [tx_blob] was answered by a response that
    [validateTransactionResult] accepts, and [r] asks for the transaction
    of that response. *)
Definition validated_submission (tx_blob : string) (r : Request) : Prop :=
  ∃ l res l',
    client_submitAndWait sdk l tx_blob = (Fulfilled res, l')
    ∧ validateTransactionResult res = Normal tt
    ∧ r = {| command := "tx";
             transaction := TxResponse.hash (TxResponse.result res) |}.

(** The submission of [tx_blob] was answered by a response that
    [validateTransactionResult] accepts. *)
Definition accepted_submission (tx_blob : string) : Prop :=
  ∃ l res l',
    client_submitAndWait sdk l tx_blob = (Fulfilled res, l')
    ∧ validateTransactionResult res = Normal tt.

(** [pair] is the hash of the [RawTransaction] of element [i] of [items],
    with index [base + i + 1]. *)
Definition pair_from_ledger_at (base : nat) (items : list Value)
    (pair : InnerTxHash.t) : Prop :=
  ∃ i item innerTx,
    items !! i = Some item
    ∧ get item "RawTransaction" = Normal innerTx
    ∧ hashes_hashSignedTx sdk innerTx = Normal (InnerTxHash.hash pair)
    ∧ InnerTxHash.index pair = (Z.of_nat (base + i) + 1)%Z.

(** The calls after the loop: none when the loop threw or pushed no pair;
    otherwise the call of [getBatchTxStatus] on the pairs the loop pushed
    and the lookups of that call, one per pair. *)
Inductive status_calls (items : list Value) : list Call → Prop :=
| status_none :
    forallb readable items = false ∨ hashed_pairs 0 items = [] →
    status_calls items []
| status_lookup answers :
    forallb readable items = true →
    hashed_pairs 0 items ≠ [] →
    length answers = length (hashed_pairs 0 items) →
    status_calls items
      (GetBatchTxStatus (hashed_pairs 0 items)
       :: zip_with (λ tx q, SendRequest (tx_request tx) q)
                   (hashed_pairs 0 items) answers).

(** [p] is not a response with an array of [RawTransactions]. *)
Definition no_raw_transactions (p : Promise TxResponse.t) : Prop :=
  ∀ res items,
    p = Fulfilled res →
    get_optional (TxResponse.tx_json (TxResponse.result res)) "RawTransactions"
    ≠ Normal (Array items).

(** The calls of the [try] block of a Batch script, as far as it gets.  A
    request is sent only after an accepted submission, for the transaction
    of its response; the block goes on after the request only when it
    returned an array of [RawTransactions], and the hashes are those of
    that array. *)
Inductive try_calls : list Call → Prop :=
| try_wallets : try_calls []
| try_connect : try_calls [Connect]
| try_autofill tx : try_calls [Connect; Autofill tx]
| try_submit tx tx_blob :
    try_calls [Connect; Autofill tx; SubmitAndWait tx_blob]
| try_fetch tx tx_blob r p :
    validated_submission tx_blob r →
    no_raw_transactions p →
    try_calls [Connect; Autofill tx; SubmitAndWait tx_blob; SendRequest r p]
| try_verify tx tx_blob r res items rest :
    validated_submission tx_blob r →
    get_optional (TxResponse.tx_json (TxResponse.result res)) "RawTransactions"
      = Normal (Array items) →
    status_calls items rest →
    try_calls ([Connect; Autofill tx; SubmitAndWait tx_blob;
                SendRequest r (Fulfilled res)] ++ hash_calls items ++ rest).

(** Every promise of the SDK settles. *)
Definition sdk_settles : Prop :=
  (∀ l, (client_connect sdk l).1 ≠ Pending)
  ∧ (∀ l, (client_disconnect sdk l).1 ≠ Pending)
  ∧ (∀ l tx, (client_autofill sdk l tx).1 ≠ Pending)
  ∧ (∀ l tx_blob, (client_submitAndWait sdk l tx_blob).1 ≠ Pending)
  ∧ (∀ l r, (client_request sdk l r).1 ≠ Pending).

End BatchVocabulary.

(** * The other scripts and the configuration *)

(** ** [src/config/env.ts] *)

Module Config.

(** The constant [env]: what [envSchema.parse] returns. *)
Record t := {
  NODE_ENV : EnvTypes;
  IOU_CURRENCY : string;
  MPT_ISSUANCE_ID : option string;
  DOMAIN_ID : option string;
  ISUEER_SEED : string;
  USER_SEED : string;
  OUTSIDER_SEED : option string
}.

(** The fields the Batch scripts and [getNetworkUrl] read. *)
Definition env (c : t) : Env :=
  Build_Env (NODE_ENV c) (ISUEER_SEED c) (USER_SEED c).

(** What [envSchema.parse] does: it returns the parsed object or throws a
    [ZodError] with one issue per field that failed, in the order of the
    fields of the schema; an issue is recorded by the name of its field. *)
Inductive ParseResult :=
| Parsed (c : t)
| ZodError (issues : list string).

(** [z.enum(['devnet', 'testnet', 'mainnet'])]. *)
Definition parse_enum (v : option string) : option EnvTypes :=
  match v with
  | Some s =>
      if String.eqb s "devnet" then Some devnet
      else if String.eqb s "testnet" then Some testnet
      else if String.eqb s "mainnet" then Some mainnet
      else None
  | None => None
  end.

(** [z.string().min(1)]: a string of one character at least. *)
Definition parse_required (v : option string) : option string :=
  match v with
  | Some s => if (1 <=? String.length s)%nat then Some s else None
  | None => None
  end.

(** [z.string().optional().transform((val) => (val === '' ? undefined : val))]. *)
Definition parse_optional (v : option string) : option string :=
  match v with
  | Some s => if String.eqb s "" then None else Some s
  | None => None
  end.

Definition issue {A} (field : string) (parsed : option A) : list string :=
  match parsed with Some _ => [] | None => [field] end.

(** [envSchema.parse(process_env)], [process_env] mapping the names of the
    environment variables that are set to their values. *)
Definition parse (process_env : string → option string) : ParseResult :=
  let node_env := parse_enum (process_env "NODE_ENV") in
  let iou_currency := parse_required (process_env "IOU_CURRENCY") in
  let mpt_issuance_id := parse_optional (process_env "MPT_ISSUANCE_ID") in
  let domain_id := parse_optional (process_env "DOMAIN_ID") in
  let isueer_seed := parse_required (process_env "ISUEER_SEED") in
  let user_seed := parse_required (process_env "USER_SEED") in
  let outsider_seed := parse_optional (process_env "OUTSIDER_SEED") in
  match node_env, iou_currency, isueer_seed, user_seed with
  | Some e, Some currency, Some isueer, Some user =>
      Parsed {| NODE_ENV := e;
                IOU_CURRENCY := currency;
                MPT_ISSUANCE_ID := mpt_issuance_id;
                DOMAIN_ID := domain_id;
                ISUEER_SEED := isueer;
                USER_SEED := user;
                OUTSIDER_SEED := outsider_seed |}
  | _, _, _, _ =>
      ZodError (issue "NODE_ENV" node_env ++ issue "IOU_CURRENCY" iou_currency
                ++ issue "ISUEER_SEED" isueer_seed ++ issue "USER_SEED" user_seed)
  end.

End Config.

(** ** [src/xrpl/Batch/batchOnlyOne.ts] and [batchUntilFailure.ts] *)

(** The [Batch] transaction of a script, with the flag of its mode. *)
Definition batch_of (flags : Z) (account : string) (innerTransactions : list Value)
  : Value :=
  Object [("TransactionType", Str "Batch");
          ("Account", Str account);
          ("Flags", Number flags);
          ("RawTransactions",
           Array ((λ tx, Object [("RawTransaction", tx)]) <$> innerTransactions))].

Section BatchScripts.
Context {L : Type} (sdk : Sdk L).

(** Lines 39 to 180 of [batchOnlyOne.ts]: the body of the [try].  The loop
    of lines 139 to 152 is the loop of [batchAllOrNothing], word for word;
    the counts of lines 170 and 171 are only printed. *)
Definition batchOnlyOne_try (env : Env) (latency : nat → nat) : M L bool :=
  issuer ← sync (Wallet_fromSeed sdk (ISUEER_SEED env));
  user ← sync (Wallet_fromSeed sdk (USER_SEED env));
  _ ← connect sdk;
  amount1 ← sync (xrpToDrops sdk "3");
  amount2 ← sync (xrpToDrops sdk "2");
  amount3 ← sync (xrpToDrops sdk "1");
  let innerTransactions :=
    [inner_payment (Wallet.address issuer) (Wallet.address user) amount1;
     inner_payment (Wallet.address issuer) (Wallet.address user) amount2;
     inner_payment (Wallet.address issuer) (Wallet.address user) amount3] in
  let batchTx := batch_of 0x00020000 (Wallet.address issuer) innerTransactions in
  prepared ← autofill sdk batchTx;
  signed ← sync (Wallet_sign sdk issuer prepared);
  result ← submitAndWait sdk (Signed.tx_blob signed);
  _ ← sync (validateTransactionResult result);
  batchTxData ←
    request sdk {| command := "tx";
                   transaction := TxResponse.hash (TxResponse.result result) |};
  let txJson := TxResponse.tx_json (TxResponse.result batchTxData) in
  rawTransactions ← sync (get_optional txJson "RawTransactions");
  if negb (truthy rawTransactions) || negb (isArray rawTransactions)
  then mret false
  else
    innerTxHashes ← collectInnerTxHashes sdk (array_items rawTransactions) 0 [];
    if (length innerTxHashes =? 0)%nat then mret false
    else
      _ ← log (GetBatchTxStatus innerTxHashes);
      innerTxStatuses ← getBatchTxStatus sdk latency innerTxHashes;
      let successCount :=
        length (filter (λ tx, InnerTxStatus.successful tx = true) innerTxStatuses) in
      let failedCount :=
        length (filter (λ tx, InnerTxStatus.successful tx = false) innerTxStatuses) in
      mret true.

(** Lines 33 to 206 of [batchOnlyOne.ts]. *)
Definition batchOnlyOne (env : Env) (latency : nat → nat) : M L bool :=
  let network := getNetworkUrl env in
  _ ← new_Client (ws network);
  try_catch_finally
    (batchOnlyOne_try env latency)
    (λ error, mret false)
    (disconnect sdk).

(** Lines 44 to 190 of [batchUntilFailure.ts]: the body of the [try]. *)
Definition batchUntilFailure_try (env : Env) (latency : nat → nat) : M L bool :=
  issuer ← sync (Wallet_fromSeed sdk (ISUEER_SEED env));
  user ← sync (Wallet_fromSeed sdk (USER_SEED env));
  _ ← connect sdk;
  amount1 ← sync (xrpToDrops sdk "0.5");
  amount2 ← sync (xrpToDrops sdk "999999");
  amount3 ← sync (xrpToDrops sdk "0.5");
  let innerTransactions :=
    [inner_payment (Wallet.address issuer) (Wallet.address user) amount1;
     inner_payment (Wallet.address issuer) (Wallet.address user) amount2;
     inner_payment (Wallet.address issuer) (Wallet.address user) amount3] in
  let batchTx := batch_of 0x00040000 (Wallet.address issuer) innerTransactions in
  prepared ← autofill sdk batchTx;
  signed ← sync (Wallet_sign sdk issuer prepared);
  result ← submitAndWait sdk (Signed.tx_blob signed);
  _ ← sync (validateTransactionResult result);
  batchTxData ←
    request sdk {| command := "tx";
                   transaction := TxResponse.hash (TxResponse.result result) |};
  let txJson := TxResponse.tx_json (TxResponse.result batchTxData) in
  rawTransactions ← sync (get_optional txJson "RawTransactions");
  if negb (truthy rawTransactions) || negb (isArray rawTransactions)
  then mret false
  else
    innerTxHashes ← collectInnerTxHashes sdk (array_items rawTransactions) 0 [];
    if (length innerTxHashes =? 0)%nat then mret false
    else
      _ ← log (GetBatchTxStatus innerTxHashes);
      innerTxStatuses ← getBatchTxStatus sdk latency innerTxHashes;
      let successCount :=
        length (filter (λ tx, InnerTxStatus.successful tx = true) innerTxStatuses) in
      let failedCount :=
        length (filter (λ tx, InnerTxStatus.successful tx = false) innerTxStatuses) in
      mret true.

(** Lines 38 to 216 of [batchUntilFailure.ts]. *)
Definition batchUntilFailure (env : Env) (latency : nat → nat) : M L bool :=
  let network := getNetworkUrl env in
  _ ← new_Client (ws network);
  try_catch_finally
    (batchUntilFailure_try env latency)
    (λ error, mret false)
    (disconnect sdk).

(** ** [src/xrpl/Payment/sendIOU.ts] *)

(** Lines 13 to 52: the body of the [try]. *)
Definition sendIOU_try (env : Env) : M L bool :=
  issuer ← sync (Wallet_fromSeed sdk (ISUEER_SEED env));
  user ← sync (Wallet_fromSeed sdk (USER_SEED env));
  _ ← connect sdk;
  let tx :=
    Object [("TransactionType", Str "Payment");
            ("Account", Str (Wallet.address issuer));
            ("Destination", Str (Wallet.address user));
            ("Amount", Object [("currency", Str "ABC");
                               ("issuer", Str (Wallet.address issuer));
                               ("value", Str "100")])] in
  prepared ← autofill sdk tx;
  signed ← sync (Wallet_sign sdk issuer prepared);
  result ← submitAndWait sdk (Signed.tx_blob signed);
  _ ← sync (validateTransactionResult result);
  mret true.

(** Lines 7 to 76. *)
Definition sendIOU (env : Env) : M L bool :=
  let network := getNetworkUrl env in
  _ ← new_Client (ws network);
  try_catch_finally (sendIOU_try env) (λ error, mret false) (disconnect sdk).

(** ** [src/xrpl/Payment/sendIOUOutsider.ts] *)

(** Lines 13 to 82: the body of the [try].  [!env.OUTSIDER_SEED] holds when
    the seed is [undefined] or the empty string. *)
Definition sendIOUOutsider_try (env : Config.t) : M L bool :=
  match Config.OUTSIDER_SEED env with
  | None => mret false
  | Some OUTSIDER_SEED =>
      if negb (truthy (Str OUTSIDER_SEED)) then mret false
      else
        issuer ← sync (Wallet_fromSeed sdk (Config.ISUEER_SEED env));
        outsider ← sync (Wallet_fromSeed sdk OUTSIDER_SEED);
        _ ← connect sdk;
        let tx :=
          Object [("TransactionType", Str "Payment");
                  ("Account", Str (Wallet.address issuer));
                  ("Destination", Str (Wallet.address outsider));
                  ("Amount", Object [("currency", Str (Config.IOU_CURRENCY env));
                                     ("issuer", Str (Wallet.address issuer));
                                     ("value", Str "100")])] in
        prepared ← autofill sdk tx;
        signed ← sync (Wallet_sign sdk issuer prepared);
        result ← submitAndWait sdk (Signed.tx_blob signed);
        _ ← sync (validateTransactionResult result);
        mret true
  end.

(** Lines 7 to 106. *)
Definition sendIOUOutsider (env : Config.t) : M L bool :=
  let network := getNetworkUrl (Config.env env) in
  _ ← new_Client (ws network);
  try_catch_finally (sendIOUOutsider_try env) (λ error, mret false)
    (disconnect sdk).

(** ** [src/xrpl/MPTokens/mptokenAuthorizeByUser.ts] *)

(** [a || ''] for [a] a string or [undefined]. *)
Definition or_empty (a : option string) : string :=
  match a with
  | Some s => if truthy (Str s) then s else ""
  | None => ""
  end.

(** Lines 13 to 63: the body of the [try]. *)
Definition mptokenAuthorizeByUser_try (env : Config.t) : M L bool :=
  user ← sync (Wallet_fromSeed sdk (Config.USER_SEED env));
  _ ← connect sdk;
  let mptIssuanceID := or_empty (Config.MPT_ISSUANCE_ID env) in
  if negb (truthy (Str mptIssuanceID)) then mret false
  else
    let userAuthTx :=
      Object [("TransactionType", Str "MPTokenAuthorize");
              ("Account", Str (Wallet.address user));
              ("MPTokenIssuanceID", Str mptIssuanceID)] in
    userPrepared ← autofill sdk userAuthTx;
    userSigned ← sync (Wallet_sign sdk user userPrepared);
    userResult ← submitAndWait sdk (Signed.tx_blob userSigned);
    _ ← sync (validateTransactionResult userResult);
    mret true.

(** Lines 8 to 89. *)
Definition mptokenAuthorizeByUser (env : Config.t) : M L bool :=
  let network := getNetworkUrl (Config.env env) in
  _ ← new_Client (ws network);
  try_catch_finally (mptokenAuthorizeByUser_try env) (λ error, mret false)
    (disconnect sdk).

End BatchScripts.

(** ** The vocabulary of the further properties *)

Section ScriptVocabulary.
Context {L : Type} (sdk : Sdk L).

(** What every script of the repository is made of: the client is
    constructed, the body runs inside [try], the [catch] block prints the
    error and returns [false], and [finally] disconnects. *)
Definition script (body : M L bool) (env : Env) : M L bool :=
  let network := getNetworkUrl env in
  _ ← new_Client (ws network);
  try_catch_finally body (λ error, mret false) (disconnect sdk).

(** The amounts of the inner payments, in drops. *)
Fixpoint drops (amounts : list string) : Completion (list string) :=
  match amounts with
  | [] => Normal []
  | amount :: rest =>
      d ← xrpToDrops sdk amount;
      ds ← drops rest;
      Normal (d :: ds)
  end.

(** The body the three Batch scripts share: they differ in the flag of the
    batch, in the amounts of the inner payments, and in what they make of
    the statuses ([verdict]). *)
Definition batch_script_try (flags : Z) (amounts : list string)
    (verdict : list InnerTxStatus.t → bool)
    (env : Env) (latency : nat → nat) : M L bool :=
  issuer ← sync (Wallet_fromSeed sdk (ISUEER_SEED env));
  user ← sync (Wallet_fromSeed sdk (USER_SEED env));
  _ ← connect sdk;
  ds ← sync (drops amounts);
  let innerTransactions :=
    inner_payment (Wallet.address issuer) (Wallet.address user) <$> ds in
  let batchTx := batch_of flags (Wallet.address issuer) innerTransactions in
  prepared ← autofill sdk batchTx;
  signed ← sync (Wallet_sign sdk issuer prepared);
  result ← submitAndWait sdk (Signed.tx_blob signed);
  _ ← sync (validateTransactionResult result);
  batchTxData ←
    request sdk {| command := "tx";
                   transaction := TxResponse.hash (TxResponse.result result) |};
  let txJson := TxResponse.tx_json (TxResponse.result batchTxData) in
  rawTransactions ← sync (get_optional txJson "RawTransactions");
  if negb (truthy rawTransactions) || negb (isArray rawTransactions)
  then mret false
  else
    innerTxHashes ← collectInnerTxHashes sdk (array_items rawTransactions) 0 [];
    if (length innerTxHashes =? 0)%nat then mret false
    else
      _ ← log (GetBatchTxStatus innerTxHashes);
      innerTxStatuses ← getBatchTxStatus sdk latency innerTxHashes;
      mret (verdict innerTxStatuses).

(** The verdict of [batchAllOrNothing]: no status is a failure. *)
Definition none_failed (innerTxStatuses : list InnerTxStatus.t) : bool :=
  negb (0 <? length (filter (λ tx, InnerTxStatus.successful tx = false)
                            innerTxStatuses))%nat.

(** [getBatchTxStatus] was not called. *)
Definition unreached (cs : list Call) : Prop :=
  ∀ pairs, GetBatchTxStatus pairs ∉ cs.

(** How the result of the body of a Batch script comes about: without a
    call of [getBatchTxStatus] the result is [false]; otherwise the calls
    end with that call and its lookups, one per pair, and the result is the
    verdict on the statuses gathered from their answers. *)
Definition batch_outcome (verdict : list InnerTxStatus.t → bool)
    (cs : list Call) (b : bool) : Prop :=
  (b = false ∧ unreached cs)
  ∨ ∃ before pairs answers statuses,
      cs = before ++ GetBatchTxStatus pairs
                     :: zip_with (λ tx q, SendRequest (tx_request tx) q) pairs answers
      ∧ unreached before
      ∧ pairs ≠ []
      ∧ length answers = length pairs
      ∧ gathered pairs answers = Fulfilled statuses
      ∧ b = verdict statuses.

(** The lookup was answered by a response whose metadata report
    ['tesSUCCESS']. *)
Definition answered_success (q : Promise TxResponse.t) : Prop :=
  ∃ res, q = Fulfilled res
         ∧ has_result_code (TxResponse.meta (TxResponse.result res))
                           (Str "tesSUCCESS").

(** The calls of the body of a script that submits one transaction, as far
    as it gets. *)
Inductive single_calls : list Call → Prop :=
| single_none : single_calls []
| single_connect : single_calls [Connect]
| single_autofill tx : single_calls [Connect; Autofill tx]
| single_submit tx tx_blob :
    single_calls [Connect; Autofill tx; SubmitAndWait tx_blob].

(** The end of the body of such a script: [autofill], [sign],
    [submitAndWait], [validateTransactionResult], [return true]. *)
Definition submit_validated (signer : Wallet.t) (tx : Value) : M L bool :=
  prepared ← autofill sdk tx;
  signed ← sync (Wallet_sign sdk signer prepared);
  result ← submitAndWait sdk (Signed.tx_blob signed);
  _ ← sync (validateTransactionResult result);
  mret true.

(** [disconnect] never throws. *)
Definition disconnect_never_throws : Prop :=
  ∀ l e, (client_disconnect sdk l).1 ≠ Rejected e.

End ScriptVocabulary.

(** ** Vocabulary for the configuration *)

(** The name of a network in [NODE_ENV]. *)
Definition env_name (e : EnvTypes) : string :=
  match e with
  | devnet => "devnet"
  | testnet => "testnet"
  | mainnet => "mainnet"
  end.

(** A field of the parsed configuration that the schema makes optional,
    against the environment variable [raw] it was read from: a value is the
    variable's, and is not empty; no value means the variable is not set or
    is set to the empty string. *)
Definition set_or_absent (raw value : option string) : Prop :=
  match value with
  | Some s => raw = Some s ∧ s ≠ ""
  | None => raw = None ∨ raw = Some ""
  end.

(** A required variable: set, and not empty. *)
Definition set_nonempty (raw : option string) : Prop :=
  ∃ s, raw = Some s ∧ s ≠ "".

(** * A sample node *)

(** A node for the examples: its state counts the transactions it has
    validated; lookups leave it as it is.  The batch [BATCH] holds four raw
    transactions, of which the second is [null] and the third cannot be
    hashed; [H7] succeeded, [H8] failed, any other hash is not found. *)

Definition sample_response (hash : string) (meta tx_json : Value) : TxResponse.t :=
  {| TxResponse.result :=
       {| TxResponse.hash := hash;
          TxResponse.meta := meta;
          TxResponse.tx_json := tx_json |} |}.

Definition sample_success : Value :=
  Object [("TransactionResult", Str "tesSUCCESS")].

Definition sample_batch : Value :=
  Object [("RawTransactions",
           Array [Object [("RawTransaction", Object [("Sequence", Number 7)])];
                  Object [("RawTransaction", Null)];
                  Object [("RawTransaction", Str "bad")];
                  Object [("RawTransaction", Object [("Sequence", Number 8)])]])].

Definition sample_lookup (hash : string) : Promise TxResponse.t :=
  if String.eqb hash "BATCH" then
    Fulfilled (sample_response "BATCH" sample_success sample_batch)
  else if String.eqb hash "H7" then
    Fulfilled (sample_response "H7" sample_success Undefined)
  else if String.eqb hash "H8" then
    Fulfilled (sample_response "H8"
                 (Object [("TransactionResult", Str "tecUNFUNDED_PAYMENT")])
                 Undefined)
  else if String.eqb hash "H9" then
    Fulfilled (sample_response "H9" (Str "binary metadata") Undefined)
  else Rejected (Error "txnNotFound").

Definition sample_sdk : Sdk nat :=
  {| Wallet_fromSeed := λ seed,
       Normal {| Wallet.address := seed; Wallet.publicKey := "" |};
     Wallet_sign := λ wallet tx,
       Normal {| Signed.tx_blob := "blob"; Signed.hash := "BATCH" |};
     xrpToDrops := λ xrp,
       Normal (if String.eqb xrp "1" then "1000000" else "500000");
     hashes_hashSignedTx := λ tx,
       match get tx "Sequence" with
       | Normal (Number 7) => Normal "H7"
       | Normal (Number 8) => Normal "H8"
       | _ => Throw (Error "cannot hash")
       end;
     client_connect := λ l, (Fulfilled tt, l);
     client_disconnect := λ l, (Fulfilled tt, l);
     client_autofill := λ l tx, (Fulfilled tx, l);
     client_submitAndWait := λ l tx_blob,
       (Fulfilled (sample_response "BATCH" sample_success Undefined), S l);
     client_request := λ l r, (sample_lookup (transaction r), l) |}.

Definition sample_env : Env :=
  {| NODE_ENV := devnet; ISUEER_SEED := "sIssuer"; USER_SEED := "sUser" |}.

Definition sample_world : World nat := {| outside := 0; calls := [] |}.

Definition sample_pairs : list InnerTxHash.t :=
  [{| InnerTxHash.hash := "H7"; InnerTxHash.index := 1 |};
   {| InnerTxHash.hash := "H8"; InnerTxHash.index := 2 |};
   {| InnerTxHash.hash := "H0"; InnerTxHash.index := 3 |};
   {| InnerTxHash.hash := "H9"; InnerTxHash.index := 4 |}].

(** The answers arrive in the reverse of the order of the requests. *)
Definition sample_latency (i : nat) : nat := 10 - i.

(** ** More samples *)

(** The sample node with a connection that fails to close. *)
Definition sample_sdk_unclean : Sdk nat :=
  {| Wallet_fromSeed := Wallet_fromSeed sample_sdk;
     Wallet_sign := Wallet_sign sample_sdk;
     xrpToDrops := xrpToDrops sample_sdk;
     hashes_hashSignedTx := hashes_hashSignedTx sample_sdk;
     client_connect := client_connect sample_sdk;
     client_disconnect := λ l, (Rejected (Error "socket closed"), l);
     client_autofill := client_autofill sample_sdk;
     client_submitAndWait := client_submitAndWait sample_sdk;
     client_request := client_request sample_sdk |}.

(** An environment with every variable set, and one with the required
    variables only, [OUTSIDER_SEED] being set to the empty string. *)
Definition sample_process_env (name : string) : option string :=
  if String.eqb name "NODE_ENV" then Some "devnet"
  else if String.eqb name "IOU_CURRENCY" then Some "ABC"
  else if String.eqb name "MPT_ISSUANCE_ID" then Some "00AA"
  else if String.eqb name "ISUEER_SEED" then Some "sIssuer"
  else if String.eqb name "USER_SEED" then Some "sUser"
  else if String.eqb name "OUTSIDER_SEED" then Some "sOutsider"
  else None.

Definition bare_process_env (name : string) : option string :=
  if String.eqb name "NODE_ENV" then Some "devnet"
  else if String.eqb name "IOU_CURRENCY" then Some "ABC"
  else if String.eqb name "ISUEER_SEED" then Some "sIssuer"
  else if String.eqb name "USER_SEED" then Some "sUser"
  else if String.eqb name "OUTSIDER_SEED" then Some ""
  else None.

(** An environment in which [envSchema.parse] throws. *)
Definition broken_process_env (name : string) : option string :=
  if String.eqb name "NODE_ENV" then Some "production"
  else if String.eqb name "IOU_CURRENCY" then Some "ABC"
  else if String.eqb name "ISUEER_SEED" then Some ""
  else None.

Definition sample_config : Config.t :=
  {| Config.NODE_ENV := devnet;
     Config.IOU_CURRENCY := "ABC";
     Config.MPT_ISSUANCE_ID := Some "00AA";
     Config.DOMAIN_ID := None;
     Config.ISUEER_SEED := "sIssuer";
     Config.USER_SEED := "sUser";
     Config.OUTSIDER_SEED := Some "sOutsider" |}.

Definition bare_config : Config.t :=
  {| Config.NODE_ENV := devnet;
     Config.IOU_CURRENCY := "ABC";
     Config.MPT_ISSUANCE_ID := None;
     Config.DOMAIN_ID := None;
     Config.ISUEER_SEED := "sIssuer";
     Config.USER_SEED := "sUser";
     Config.OUTSIDER_SEED := None |}.

(** The array of raw transactions of the sample batch. *)
Definition sample_items : list Value :=
  [Object [("RawTransaction", Object [("Sequence", Number 7)])];
   Object [("RawTransaction", Null)];
   Object [("RawTransaction", Str "bad")];
   Object [("RawTransaction", Object [("Sequence", Number 8)])]].

(** * Properties *)

(** ** Reading the result code of a response *)

Lemma on_response_eq tx res :
  on_response tx res = Normal (settled_status tx (Normal res)).
Proof.
  unfold on_response, settled_status.
  destruct (TxResponse.meta (TxResponse.result res)) as [| |b|n|s|fields|items];
    simpl; try reflexivity.
  - by destruct b.
  - by destruct (n =? 0)%Z.
  - by destruct (String.eqb s "").
  - by destruct (assoc "TransactionResult" fields) as [code|].
Qed.

Lemma on_settled_eq tx answer :
  on_settled tx answer = Normal (settled_status tx answer).
Proof.
  unfold on_settled. destruct answer as [res|e]; simpl; [|reflexivity].
  change (mbind (on_response tx) (Normal res)) with (on_response tx res).
  by rewrite on_response_eq.
Qed.

Lemma settled_status_hash tx answer :
  InnerTxStatus.hash (settled_status tx answer) = InnerTxHash.hash tx.
Proof.
  destruct answer as [res|e]; simpl; [|reflexivity].
  by destruct (result_code _).
Qed.

Lemma settled_status_index tx answer :
  InnerTxStatus.index (settled_status tx answer) = InnerTxHash.index tx.
Proof.
  destruct answer as [res|e]; simpl; [|reflexivity].
  by destruct (result_code _).
Qed.

(** ** The fan-out of [getBatchTxStatus] *)

Lemma filter_Forall {A} (P : A → Prop) `{!∀ x, Decision (P x)} (l : list A) :
  Forall P l → filter P l = l.
Proof.
  induction 1 as [|x l Hx _ IH]; [done|].
  rewrite filter_cons_True by done. by rewrite IH.
Qed.

Lemma arrive_slot txs answers s i :
  arrive txs answers s i =
    match slot txs answers i with
    | Some v => PromiseAll.step i (Normal v) s
    | None => s
    end.
Proof.
  unfold arrive, slot.
  destruct (txs !! i) as [tx|]; [|done].
  destruct (answers !! i) as [[|answer]|]; try done.
  by rewrite on_settled_eq.
Qed.

Lemma elem_of_app_singleton_ne {A B} (l : list A) (i j : A) (x y : B)
    `{!EqDecision A} :
  j ≠ i →
  (if decide (j ∈ l ++ [i]) then x else y) = (if decide (j ∈ l) then x else y).
Proof.
  intros Hne. destruct (decide (j ∈ l)) as [Hj|Hj].
  - rewrite decide_True; [done|]. apply elem_of_app. by left.
  - rewrite decide_False; [done|].
    intros [?|Heq%list_elem_of_singleton]%elem_of_app; done.
Qed.

Section Arrivals.
Context (txs : list InnerTxHash.t) (answers : list (Promise TxResponse.t)).

Local Abbreviation n := (length txs).
Local Abbreviation settles := (λ i : nat, is_Some (slot txs answers i)).

Lemma lookup_slots_after (done : list nat) (j : nat) :
  slots_after txs answers done !! j =
    if decide (j < n) then
      Some (if decide (j ∈ done) then slot txs answers j else None)
    else None.
Proof.
  unfold slots_after. rewrite list_lookup_fmap. case_decide.
  - by rewrite lookup_seq_lt.
  - by rewrite lookup_seq_ge by lia.
Qed.

Lemma length_slots_after (done : list nat) : length (slots_after txs answers done) = n.
Proof. unfold slots_after. by rewrite length_fmap, length_seq. Qed.

Lemma slots_after_nil : slots_after txs answers [] = replicate n None.
Proof.
  apply list_eq. intros j. rewrite lookup_slots_after. case_decide.
  - rewrite lookup_replicate_2 by done.
    by rewrite decide_False by apply not_elem_of_nil.
  - symmetry. apply lookup_replicate_None. lia.
Qed.

Lemma slots_after_snoc_pending (done : list nat) (i : nat) :
  slot txs answers i = None →
  slots_after txs answers (done ++ [i]) = slots_after txs answers done.
Proof.
  intros Hslot. apply list_eq. intros j. rewrite !lookup_slots_after.
  case_decide; [|done]. f_equal.
  destruct (decide (j = i)) as [->|Hne].
  - rewrite Hslot. by repeat case_decide.
  - rewrite elem_of_app_singleton_ne by done. done.
Qed.

Lemma slots_after_snoc_settled (done : list nat) (i : nat) v :
  i ∉ done → slot txs answers i = Some v →
  slots_after txs answers (done ++ [i]) = <[i := Some v]> (slots_after txs answers done).
Proof.
  intros Hi Hslot. apply list_eq. intros j.
  destruct (decide (j = i)) as [->|Hne].
  - rewrite lookup_slots_after. case_decide as Hlt.
    + rewrite list_lookup_insert_eq by (by rewrite length_slots_after).
      rewrite decide_True by (apply elem_of_app; right; apply list_elem_of_singleton; done).
      by rewrite Hslot.
    + rewrite list_insert_ge by (rewrite length_slots_after; lia).
      rewrite lookup_slots_after. by rewrite decide_False.
  - rewrite list_lookup_insert_ne by done. rewrite !lookup_slots_after.
    case_decide; [|done]. by rewrite elem_of_app_singleton_ne.
Qed.

Lemma awaited_after_snoc_pending (done : list nat) (i : nat) :
  slot txs answers i = None →
  awaited_after txs answers (done ++ [i]) = awaited_after txs answers done.
Proof.
  intros Hslot. unfold awaited_after. rewrite filter_app.
  rewrite (filter_cons_False settles).
  - by rewrite app_nil_r.
  - rewrite Hslot. by intros [? ?].
Qed.

Lemma awaited_after_snoc_settled (done : list nat) (i : nat) v :
  slot txs answers i = Some v →
  awaited_after txs answers (done ++ [i]) = pred (awaited_after txs answers done).
Proof.
  intros Hslot. unfold awaited_after. rewrite filter_app, length_app.
  rewrite (filter_cons_True settles).
  - simpl. lia.
  - rewrite Hslot. eauto.
Qed.

Lemma awaited_after_pos (done : list nat) :
  length done < n → awaited_after txs answers done ≠ 0.
Proof.
  intros Hlen. unfold awaited_after.
  pose proof (length_filter settles done) as Hle. lia.
Qed.

Lemma NoDup_bounded_length (l : list nat) (m : nat) :
  NoDup l → (∀ i, i ∈ l → i < m) → length l ≤ m.
Proof.
  intros Hnd Hlt.
  assert (l ⊆+ seq 0 m) as Hsub.
  { apply NoDup_submseteq; [done|].
    intros i Hi. apply elem_of_seq. split; [lia|]. simpl. by apply Hlt. }
  apply submseteq_length in Hsub. by rewrite length_seq in Hsub.
Qed.

(** The state of [Promise.all] after the answers in [done] have arrived. *)
Lemma arrivals_invariant (done : list nat) :
  NoDup done → (∀ i, i ∈ done → i < n) →
  let s := foldl (arrive txs answers) (PromiseAll.init n) done in
  PromiseAll.values s = slots_after txs answers done
  ∧ PromiseAll.remainingElementsCount s = awaited_after txs answers done
  ∧ PromiseAll.promise s =
      (if (awaited_after txs answers done =? 0)%nat
       then Fulfilled (omap id (slots_after txs answers done))
       else Pending).
Proof.
  induction done as [|i done IH] using rev_ind; intros Hnd Hlt s.
  - subst s. cbn [foldl]. rewrite slots_after_nil.
    unfold awaited_after. rewrite filter_nil. cbn [length]. rewrite Nat.sub_0_r.
    repeat split. cbn [PromiseAll.init PromiseAll.promise].
    destruct (n =? 0)%nat eqn:Hn; [|done].
    apply Nat.eqb_eq in Hn. by rewrite Hn.
  - pose proof (NoDup_bounded_length _ _ Hnd Hlt) as Hlen.
    rewrite length_app in Hlen. simpl in Hlen.
    apply NoDup_app in Hnd as (Hnd & Hfresh & _).
    assert (i ∉ done) as Hi.
    { intros Hin. apply (Hfresh _ Hin). by apply list_elem_of_singleton. }
    destruct (IH Hnd) as (Hv & Hr & Hp).
    { intros j Hj. apply Hlt, elem_of_app. by left. }
    subst s. rewrite foldl_snoc, arrive_slot.
    destruct (slot txs answers i) as [v|] eqn:Hslot.
    + rewrite (slots_after_snoc_settled _ _ v), (awaited_after_snoc_settled _ _ v)
        by done.
      pose proof (awaited_after_pos done) as Hpos.
      cbn [PromiseAll.step PromiseAll.values PromiseAll.remainingElementsCount
           PromiseAll.promise].
      rewrite Hv, Hr, Hp.
      destruct (awaited_after txs answers done =? 0)%nat eqn:Hz; [|done].
      apply Nat.eqb_eq in Hz. lia.
    + by rewrite slots_after_snoc_pending, awaited_after_snoc_pending.
Qed.

(** Once every answer has had its turn, whatever the order. *)
Lemma arrivals_complete (order : list nat) :
  order ≡ₚ seq 0 n →
  PromiseAll.promise (foldl (arrive txs answers) (PromiseAll.init n) order)
  = gathered txs answers.
Proof.
  intros Hperm.
  destruct (arrivals_invariant order) as (_ & _ & ->).
  { rewrite Hperm. apply NoDup_seq. }
  { intros i Hi. rewrite Hperm in Hi. apply elem_of_seq in Hi. lia. }
  assert (slots_after txs answers order = slot txs answers <$> seq 0 n) as ->.
  { apply list_eq. intros j. rewrite lookup_slots_after, list_lookup_fmap.
    case_decide as Hj.
    - rewrite lookup_seq_lt by done. simpl.
      rewrite decide_True; [done|]. rewrite Hperm. apply elem_of_seq. lia.
    - by rewrite lookup_seq_ge by lia. }
  unfold gathered, awaited_after. rewrite Hperm.
  case_bool_decide as Hall; rewrite Forall_fmap in Hall.
  - rewrite filter_Forall by done.
    by rewrite length_seq, Nat.sub_diag.
  - apply not_Forall_Exists, Exists_exists in Hall as (i & Hi & Hpending); [|apply _].
    pose proof (length_filter_lt settles _ _ Hi Hpending) as Hlt.
    rewrite length_seq in Hlt.
    destruct (n - length (filter settles (seq 0 n)) =? 0)%nat eqn:Hz; [|done].
    apply Nat.eqb_eq in Hz. lia.
Qed.

End Arrivals.

Lemma fmap_Some_omap_id {A} (l : list (option A)) :
  Forall is_Some l → Some <$> omap id l = l.
Proof.
  induction 1 as [|x l [a ->] _ IH]; [done|].
  csimpl. by rewrite IH.
Qed.

(** When every request has settled, the promise is fulfilled with one
    record per pair, in the order of the pairs. *)
Lemma gathered_settled txs answers :
  length answers = length txs →
  Forall (λ p, p ≠ Pending) answers →
  ∃ results,
    gathered txs answers = Fulfilled results
    ∧ length results = length txs
    ∧ ∀ i tx p, txs !! i = Some tx → answers !! i = Some p →
        ∃ answer, p = Settled answer
                  ∧ results !! i = Some (settled_status tx answer).
Proof.
  intros Hlen Hsettled.
  set (slots := slot txs answers <$> seq 0 (length txs)).
  assert (Forall is_Some slots) as Hall.
  { apply Forall_fmap, Forall_seq. intros i [_ Hi]. simpl in *.
    destruct (lookup_lt_is_Some_2 txs i Hi) as [tx Htx].
    destruct (lookup_lt_is_Some_2 answers i) as [p Hp]; [lia|].
    unfold slot. rewrite Htx, Hp.
    destruct p as [|answer]; [|by eauto].
    exfalso. by eapply (proj1 (Forall_lookup _ _) Hsettled i Pending). }
  exists (omap id slots). split; [|split].
  - unfold gathered. fold slots. by rewrite bool_decide_eq_true_2.
  - rewrite <- (length_fmap Some), fmap_Some_omap_id by done.
    subst slots. by rewrite length_fmap, length_seq.
  - intros i tx p Htx Hp.
    destruct p as [|answer].
    { exfalso. by eapply (proj1 (Forall_lookup _ _) Hsettled i Pending). }
    exists answer. split; [done|].
    assert ((Some <$> omap id slots) !! i = Some (Some (settled_status tx answer)))
      as Hi.
    { rewrite fmap_Some_omap_id by done. subst slots.
      rewrite list_lookup_fmap, lookup_seq_lt by (by eapply lookup_lt_Some).
      simpl. unfold slot. by rewrite Htx, Hp. }
    rewrite list_lookup_fmap in Hi.
    destruct (omap id slots !! i); simpl in Hi; by simplify_eq.
Qed.

(** The promise is never rejected. *)
Lemma gathered_not_rejected txs answers e :
  gathered txs answers ≠ Rejected e.
Proof. unfold gathered. by case_bool_decide. Qed.

Section ResolverFacts.
Context {L : Type} (sdk : Sdk L).

Lemma dispatch_cons tx txs w :
  dispatch sdk (tx :: txs) w =
    let w1 := {| outside := state_after sdk (outside w) tx;
                 calls := calls w ++ [SendRequest (tx_request tx)
                                        (answer_to sdk (outside w) tx)] |} in
    (answer_to sdk (outside w) tx :: (dispatch sdk txs w1).1, (dispatch sdk txs w1).2).
Proof.
  cbn [dispatch]. unfold request, answer_to, state_after, tx_request.
  destruct (client_request sdk _ _) as [answer l]. simpl.
  by destruct (dispatch sdk txs _).
Qed.

Lemma dispatch_length txs w : length (dispatch sdk txs w).1 = length txs.
Proof.
  revert w. induction txs as [|tx txs IH]; intros w; [done|].
  rewrite dispatch_cons. simpl. by rewrite IH.
Qed.

(** The requests sent: one [tx] request per pair, in the order of the
    pairs, each with the promise it got, and nothing else. *)
Lemma dispatch_calls txs w :
  calls (dispatch sdk txs w).2 =
    calls w ++ zip_with (λ tx p, SendRequest (tx_request tx) p)
                        txs (dispatch sdk txs w).1.
Proof.
  revert w. induction txs as [|tx txs IH]; intros w.
  - simpl. by rewrite app_nil_r.
  - rewrite dispatch_cons. simpl. rewrite IH. simpl. by rewrite <- app_assoc.
Qed.

(** The outside world is touched through these requests only. *)
Lemma dispatch_outside txs w :
  outside (dispatch sdk txs w).2 = foldl (state_after sdk) (outside w) txs.
Proof.
  revert w. induction txs as [|tx txs IH]; intros w; [done|].
  rewrite dispatch_cons. simpl. by rewrite IH.
Qed.

(** Each promise is the node's answer to the request of its own pair. *)
Lemma dispatch_answers txs w i tx :
  txs !! i = Some tx →
  (dispatch sdk txs w).1 !! i
  = Some (answer_to sdk (foldl (state_after sdk) (outside w) (take i txs)) tx).
Proof.
  revert w i. induction txs as [|tx' txs IH]; intros w i Hi; [done|].
  rewrite dispatch_cons. destruct i as [|i]; simpl in *.
  - by simplify_eq.
  - by rewrite (IH _ _ Hi).
Qed.

Lemma arrival_order_Permutation latency n : arrival_order latency n ≡ₚ seq 0 n.
Proof. apply merge_sort_Permutation. Qed.

(** [getBatchTxStatus] sends the requests and returns the gathered
    promise: the order of arrival of the answers has no influence. *)
Lemma getBatchTxStatus_gathered latency txs w :
  getBatchTxStatus sdk latency txs w =
    (gathered txs (dispatch sdk txs w).1, (dispatch sdk txs w).2).
Proof.
  unfold getBatchTxStatus.
  destruct (dispatch sdk txs w) as [answers w'] eqn:Hd. simpl.
  f_equal. apply arrivals_complete, arrival_order_Permutation.
Qed.

End ResolverFacts.

(** ** The claims about [getBatchTxStatus] and [validateTransactionResult] *)

Lemma result_code_Some meta code :
  result_code meta = Some code ↔ has_result_code meta code.
Proof.
  unfold has_result_code. split.
  - destruct meta; simpl; try discriminate. eauto.
  - by intros (fields & -> & ?).
Qed.

Lemma result_code_None meta :
  result_code meta = None ↔ ∀ code, ¬ has_result_code meta code.
Proof.
  split.
  - intros Hnone code Hcode%result_code_Some. congruence.
  - intros Hno. destruct (result_code meta) as [code|] eqn:Hcode; [|done].
    by apply result_code_Some, Hno in Hcode.
Qed.

Lemma strict_eq_str_true v s : strict_eq_str v s = true ↔ v = Str s.
Proof.
  destruct v; simpl; try (split; [discriminate|by intros ?]).
  rewrite String.eqb_eq. split; [by intros ->|by intros [= ->]].
Qed.

Section ResolverClaims.
Context {L : Type} (sdk : Sdk L).

Lemma getBatchTxStatus_results latency txs w :
  every_lookup_settles sdk txs w →
  ∃ results,
    (getBatchTxStatus sdk latency txs w).1 = Fulfilled results
    ∧ length results = length txs
    ∧ ∀ i tx p, txs !! i = Some tx → answers_of sdk txs w !! i = Some p →
        ∃ answer, p = Settled answer
                  ∧ results !! i = Some (settled_status tx answer).
Proof.
  intros Hsettle. rewrite getBatchTxStatus_gathered. simpl.
  apply gathered_settled; [apply dispatch_length|done].
Qed.

(** C1. Success classification: when every lookup settles the resolver
    returns its list, and for a pair whose lookup returned a response the
    entry is successful exactly when the metadata of the response is an
    object with a [TransactionResult] field equal to ['tesSUCCESS']; when
    the field is present the status is its value, and a value other than
    ['tesSUCCESS'] gives [successful = false]. *)
Theorem getBatchTxStatus_success_classification latency txs w :
  every_lookup_settles sdk txs w →
  ∃ results,
    (getBatchTxStatus sdk latency txs w).1 = Fulfilled results
    ∧ ∀ i tx res,
        txs !! i = Some tx →
        answers_of sdk txs w !! i = Some (Fulfilled res) →
        ∃ entry,
          results !! i = Some entry
          ∧ (InnerTxStatus.successful entry = true
             ↔ has_result_code (TxResponse.meta (TxResponse.result res))
                               (Str "tesSUCCESS"))
          ∧ ∀ code,
              has_result_code (TxResponse.meta (TxResponse.result res)) code →
              InnerTxStatus.status entry = code
              ∧ (code ≠ Str "tesSUCCESS" →
                 InnerTxStatus.successful entry = false).
Proof.
  intros Hsettle.
  destruct (getBatchTxStatus_results latency txs w Hsettle)
    as (results & Hrun & _ & Hentries).
  exists results. split; [done|].
  intros i tx res Htx Hanswer.
  destruct (Hentries i tx _ Htx Hanswer) as (answer & [= <-] & Hentry).
  eexists. split; [exact Hentry|]. simpl.
  destruct (result_code _) as [code|] eqn:Hcode.
  - apply result_code_Some in Hcode as Hhas. simpl. split.
    + rewrite strict_eq_str_true. split.
      * by intros ->.
      * intros Hsuccess%result_code_Some. congruence.
    + intros code' Hcode'%result_code_Some. simplify_eq. split; [done|].
      intros Hne. apply not_true_is_false. by rewrite strict_eq_str_true.
  - rewrite result_code_None in Hcode. simpl. split.
    + split; [done|]. intros Hhas. by apply Hcode in Hhas.
    + intros code Hhas. by apply Hcode in Hhas.
Qed.

Lemma getBatchTxStatus_pending latency txs w :
  ¬ every_lookup_settles sdk txs w →
  (getBatchTxStatus sdk latency txs w).1 = Pending.
Proof.
  intros Hpending. rewrite getBatchTxStatus_gathered. simpl.
  unfold gathered. case_bool_decide as Hall; [|done].
  destruct Hpending. apply Forall_lookup. intros i p Hp ->.
  assert (i < length txs) as Hi.
  { rewrite <- (dispatch_length sdk txs w). by eapply lookup_lt_Some. }
  rewrite Forall_fmap in Hall.
  apply (proj1 (Forall_seq _ _ _)) with (j := i) in Hall; [|lia].
  simpl in Hall. unfold slot in Hall. unfold answers_of in Hp. rewrite Hp in Hall.
  destruct (txs !! i); by destruct Hall.
Qed.

(** C2. Order preservation: whatever the lookups answer and in whatever
    order the answers arrive, the promise of the resolver is never rejected;
    when every lookup settles it is fulfilled with a list as long as the
    input, whose entry at each position carries the [index] and the [hash]
    of the input pair at that position; it stays pending only as long as a
    lookup does. *)
Theorem getBatchTxStatus_order_preserved latency txs w :
  (∀ e, (getBatchTxStatus sdk latency txs w).1 ≠ Rejected e)
  ∧ (every_lookup_settles sdk txs w →
     ∃ results,
       (getBatchTxStatus sdk latency txs w).1 = Fulfilled results
       ∧ length results = length txs
       ∧ ∀ i tx, txs !! i = Some tx →
           ∃ entry, results !! i = Some entry
                    ∧ InnerTxStatus.index entry = InnerTxHash.index tx
                    ∧ InnerTxStatus.hash entry = InnerTxHash.hash tx)
  ∧ (¬ every_lookup_settles sdk txs w →
     (getBatchTxStatus sdk latency txs w).1 = Pending).
Proof.
  split; [|split; [|apply getBatchTxStatus_pending]].
  - intros e. rewrite getBatchTxStatus_gathered. apply gathered_not_rejected.
  - intros Hsettle.
    destruct (getBatchTxStatus_results latency txs w Hsettle)
      as (results & Hrun & Hlen & Hentries).
    exists results. repeat split; [done..|].
    intros i tx Htx.
    destruct (lookup_lt_is_Some_2 (answers_of sdk txs w) i) as [p Hp].
    { unfold answers_of. rewrite dispatch_length. by eapply lookup_lt_Some. }
    destruct (Hentries i tx p Htx Hp) as (answer & _ & Hentry).
    eexists. split; [exact Hentry|].
    by rewrite settled_status_index, settled_status_hash.
Qed.

(** C3. Failure isolation: no exception escapes the resolver; when every
    lookup settles the resolver returns one entry per pair, and the entry
    of a pair depends on the answer to its own lookup only: when the lookup
    threw, the entry is [{successful: false, status: "not validated"}];
    when it returned a response whose metadata have a [TransactionResult],
    the status is that code and the entry is successful exactly when the
    code is ['tesSUCCESS']; when it returned a response without such
    metadata, the entry is [{successful: false, status: "unknown"}]; in all
    cases with the hash and the index of the pair.  So a lookup that throws
    changes no other entry. *)
Theorem getBatchTxStatus_failure_isolation latency txs w :
  (∀ e, (getBatchTxStatus sdk latency txs w).1 ≠ Rejected e)
  ∧ (every_lookup_settles sdk txs w →
     ∃ results,
       (getBatchTxStatus sdk latency txs w).1 = Fulfilled results
       ∧ length results = length txs
       ∧ ∀ i tx, txs !! i = Some tx →
           (∀ e, answers_of sdk txs w !! i = Some (Rejected e) →
              results !! i =
                Some {| InnerTxStatus.hash := InnerTxHash.hash tx;
                        InnerTxStatus.index := InnerTxHash.index tx;
                        InnerTxStatus.successful := false;
                        InnerTxStatus.status := Str "not validated" |})
           ∧ (∀ res code,
                answers_of sdk txs w !! i = Some (Fulfilled res) →
                has_result_code (TxResponse.meta (TxResponse.result res)) code →
                ∃ entry,
                  results !! i = Some entry
                  ∧ InnerTxStatus.hash entry = InnerTxHash.hash tx
                  ∧ InnerTxStatus.index entry = InnerTxHash.index tx
                  ∧ InnerTxStatus.status entry = code
                  ∧ (InnerTxStatus.successful entry = true
                     ↔ code = Str "tesSUCCESS"))
           ∧ (∀ res,
                answers_of sdk txs w !! i = Some (Fulfilled res) →
                (∀ code,
                   ¬ has_result_code (TxResponse.meta (TxResponse.result res))
                       code) →
                results !! i =
                  Some {| InnerTxStatus.hash := InnerTxHash.hash tx;
                          InnerTxStatus.index := InnerTxHash.index tx;
                          InnerTxStatus.successful := false;
                          InnerTxStatus.status := Str "unknown" |})
           ∧ (∀ answer, answers_of sdk txs w !! i = Some (Settled answer) →
                ∃ entry, results !! i = Some entry
                         ∧ on_settled tx answer = Normal entry)).
Proof.
  split.
  - intros e. rewrite getBatchTxStatus_gathered. apply gathered_not_rejected.
  - intros Hsettle.
    destruct (getBatchTxStatus_results latency txs w Hsettle)
      as (results & Hrun & Hlength & Hentries).
    exists results. split; [done|]. split; [done|].
    intros i tx Htx. split; [|split; [|split]].
    + intros e He.
      by destruct (Hentries i tx _ Htx He) as (answer & [= <-] & ->).
    + intros res code Hres Hcode%result_code_Some.
      destruct (Hentries i tx _ Htx Hres) as (answer & [= <-] & ->).
      simpl. rewrite Hcode. eexists. split; [done|]. simpl.
      repeat split; try done; apply strict_eq_str_true.
    + intros res Hres Hnone%result_code_None.
      destruct (Hentries i tx _ Htx Hres) as (answer & [= <-] & ->).
      simpl. by rewrite Hnone.
    + intros answer Hanswer.
      destruct (Hentries i tx _ Htx Hanswer) as (answer' & [= <-] & ->).
      eexists. split; [done|]. apply on_settled_eq.
Qed.

(** C4. Missing metadata: when every lookup settles, a pair whose lookup
    returned a response whose metadata is not an object with a
    [TransactionResult] field gets the entry
    [{successful: false, status: "unknown"}] with its own hash and index. *)
Theorem getBatchTxStatus_missing_metadata latency txs w :
  every_lookup_settles sdk txs w →
  ∃ results,
    (getBatchTxStatus sdk latency txs w).1 = Fulfilled results
    ∧ ∀ i tx res,
        txs !! i = Some tx →
        answers_of sdk txs w !! i = Some (Fulfilled res) →
        (∀ code, ¬ has_result_code (TxResponse.meta (TxResponse.result res)) code) →
        results !! i =
          Some {| InnerTxStatus.hash := InnerTxHash.hash tx;
                  InnerTxStatus.index := InnerTxHash.index tx;
                  InnerTxStatus.successful := false;
                  InnerTxStatus.status := Str "unknown" |}.
Proof.
  intros Hsettle.
  destruct (getBatchTxStatus_results latency txs w Hsettle)
    as (results & Hrun & _ & Hentries).
  exists results. split; [done|].
  intros i tx res Htx Hanswer Hmissing%result_code_None.
  destruct (Hentries i tx _ Htx Hanswer) as (answer & [= <-] & ->).
  simpl. by rewrite Hmissing.
Qed.

Lemma read_only_state_after txs l :
  tx_lookups_read_only sdk → foldl (state_after sdk) l txs = l.
Proof.
  intros Hro. induction txs as [|tx txs IH]; [done|].
  simpl. unfold state_after at 2. by rewrite Hro.
Qed.

Lemma dispatch_answers_outside txs w1 w2 :
  outside w1 = outside w2 → (dispatch sdk txs w1).1 = (dispatch sdk txs w2).1.
Proof.
  revert w1 w2. induction txs as [|tx txs IH]; intros w1 w2 Hout; [done|].
  rewrite !dispatch_cons. simpl. rewrite Hout. f_equal. by apply IH.
Qed.

(** C6. Idempotence: when [tx] lookups are read-only on the node, a call
    of the resolver leaves the ledger state as it found it, and a second
    call with the same input returns the same promise as the first,
    whatever the timing of the answers in either call. *)
Theorem getBatchTxStatus_idempotent latency1 latency2 txs w :
  tx_lookups_read_only sdk →
  let first := getBatchTxStatus sdk latency1 txs w in
  let second := getBatchTxStatus sdk latency2 txs first.2 in
  outside first.2 = outside w
  ∧ outside second.2 = outside w
  ∧ second.1 = first.1.
Proof.
  intros Hro first second. subst first second.
  rewrite !getBatchTxStatus_gathered. simpl.
  rewrite !dispatch_outside, !read_only_state_after by done.
  repeat split. f_equal. apply dispatch_answers_outside.
  by rewrite dispatch_outside, read_only_state_after.
Qed.

(** C7. The requests of the resolver: the calls it adds are one [tx]
    request per input pair, for the hash of that pair, in the order of the
    pairs, and nothing else; the outside world changes through these
    requests only, and each pair gets the node's answer to its own
    request. *)
Theorem getBatchTxStatus_requests latency txs w :
  let w' := (getBatchTxStatus sdk latency txs w).2 in
  let tx_req tx := {| command := "tx"; transaction := InnerTxHash.hash tx |} in
  let after l tx := (client_request sdk l (tx_req tx)).2 in
  ∃ answers,
    length answers = length txs
    ∧ calls w' = calls w ++ zip_with (λ tx p, SendRequest (tx_req tx) p) txs answers
    ∧ outside w' = foldl after (outside w) txs
    ∧ ∀ i tx, txs !! i = Some tx →
        answers !! i
        = Some (client_request sdk (foldl after (outside w) (take i txs)) (tx_req tx)).1.
Proof.
  intros w' tx_req after. subst w'. rewrite getBatchTxStatus_gathered. simpl.
  exists (dispatch sdk txs w).1. repeat split.
  - apply dispatch_length.
  - apply dispatch_calls.
  - apply dispatch_outside.
  - intros i tx Htx. by rewrite (dispatch_answers sdk txs w i tx Htx).
Qed.

(** C10. The empty input: the resolver returns the empty list and sends
    nothing. *)
Theorem getBatchTxStatus_empty latency w :
  getBatchTxStatus sdk latency [] w = (Fulfilled [], w).
Proof. reflexivity. Qed.

End ResolverClaims.

Lemma validateTransactionResult_eq (result : TxResponse.t) :
  validateTransactionResult result =
    let meta := TxResponse.meta (TxResponse.result result) in
    match result_code meta with
    | Some code =>
        if strict_eq_str code "tesSUCCESS" then Normal tt
        else Throw (TransactionFailed code)
    | None =>
        match meta with
        | Null => Throw (TypeError "Cannot use 'in' operator")
        | _ => Throw (TransactionFailed (Str "unknown"))
        end
    end.
Proof.
  unfold validateTransactionResult.
  destruct (TxResponse.meta (TxResponse.result result)) as [| |b|n|s|fields|items];
    simpl; try reflexivity.
  destruct (assoc "TransactionResult" fields) as [code|]; simpl; [|done].
  by destruct (strict_eq_str code "tesSUCCESS").
Qed.

(** C9. [validateTransactionResult] throws exactly when the metadata of
    the response is not an object with a [TransactionResult] field equal to
    ['tesSUCCESS'], and returns normally otherwise.  The error reports the
    code found, or ['unknown'] when the metadata has no such field ([in]
    itself throws on [null]).  The function only reads its argument. *)
Theorem validateTransactionResult_throws_iff (result : TxResponse.t) :
  let meta := TxResponse.meta (TxResponse.result result) in
  ((∃ e, validateTransactionResult result = Throw e)
   ↔ ¬ has_result_code meta (Str "tesSUCCESS"))
  ∧ (validateTransactionResult result = Normal tt
     ↔ has_result_code meta (Str "tesSUCCESS"))
  ∧ (∀ code, has_result_code meta code → code ≠ Str "tesSUCCESS" →
       validateTransactionResult result = Throw (TransactionFailed code))
  ∧ ((∀ code, ¬ has_result_code meta code) → meta ≠ Null →
       validateTransactionResult result = Throw (TransactionFailed (Str "unknown"))).
Proof.
  intros meta.
  pose proof (validateTransactionResult_eq result) as Hrun.
  cbv zeta in Hrun. fold meta in Hrun. clearbody meta.
  assert (∀ code, result_code meta = Some code →
            validateTransactionResult result =
              if strict_eq_str code "tesSUCCESS" then Normal tt
              else Throw (TransactionFailed code)) as Hsome.
  { intros code Hcode. by rewrite Hrun, Hcode. }
  assert (result_code meta = None →
            ∃ e, validateTransactionResult result = Throw e
                 ∧ (meta ≠ Null → e = TransactionFailed (Str "unknown"))) as Hnone.
  { intros Hcode. rewrite Hrun, Hcode. destruct meta; eauto.
    eexists. split; [done|]. by intros []. }
  clear Hrun.
  destruct (result_code meta) as [code|] eqn:Hcode.
  - specialize (Hsome code eq_refl). clear Hnone.
    apply result_code_Some in Hcode as Hhas.
    assert (∀ code', has_result_code meta code' → code' = code) as Huniq.
    { intros code' Hcode'%result_code_Some. congruence. }
    destruct (strict_eq_str code "tesSUCCESS") eqn:Heq.
    + apply strict_eq_str_true in Heq as ->. repeat split.
      * intros [e He]. congruence.
      * intros Hno. by destruct Hno.
      * done.
      * done.
      * intros code' Hcode' Hne. apply Huniq in Hcode'. congruence.
      * intros Hno. by destruct (Hno _ Hhas).
    + assert (code ≠ Str "tesSUCCESS") as Hne.
      { intros Hc%strict_eq_str_true. congruence. }
      repeat split.
      * intros _ Hsuccess. apply Huniq in Hsuccess. congruence.
      * eauto.
      * congruence.
      * intros Hsuccess. apply Huniq in Hsuccess. congruence.
      * intros code' Hcode' _. apply Huniq in Hcode'. by subst.
      * intros Hno. by destruct (Hno _ Hhas).
  - destruct (Hnone eq_refl) as (e & He & Hunknown). clear Hsome Hnone.
    rewrite result_code_None in Hcode. repeat split.
    + intros _. apply Hcode.
    + eauto.
    + congruence.
    + intros Hhas. by apply Hcode in Hhas.
    + intros code Hhas. by apply Hcode in Hhas.
    + intros _ Hnull. by rewrite He, Hunknown.
Qed.

(** ** [batchAllOrNothing] *)

Lemma valid_server_networks env : valid_server (ws (getNetworkUrl env)) = true.
Proof. unfold getNetworkUrl. by destruct (NODE_ENV env). Qed.

Lemma connects_app cs1 cs2 : connects (cs1 ++ cs2) = connects cs1 + connects cs2.
Proof.
  induction cs1 as [|c cs1 IH]; [done|].
  destruct c; simpl; by rewrite ?IH.
Qed.

Section BatchFacts.
Context {L : Type} (sdk : Sdk L).

Lemma is_hash_call_of_cons item items c :
  is_hash_call_of items c → is_hash_call_of (item :: items) c.
Proof.
  intros (tx & -> & j & item' & Hj & Htx).
  exists tx. split; [done|]. by exists (S j), item'.
Qed.

Lemma pair_from_ledger_at_cons i item items pair :
  pair_from_ledger_at sdk (S i) items pair →
  pair_from_ledger_at sdk i (item :: items) pair.
Proof.
  intros (j & item' & innerTx & Hj & Hget & Hhash & Hindex).
  exists (S j), item', innerTx. repeat split; try done.
  rewrite Hindex. f_equal. lia.
Qed.

(** The loop in closed form: it asks for the hash of every truthy
    [RawTransaction] up to the first element that is [null] or [undefined],
    at which it throws; otherwise it returns the pairs of the elements that
    have a hash, each with its position plus one.  It waits for nothing. *)
Lemma collectInnerTxHashes_run items i acc w :
  collectInnerTxHashes sdk items i acc w
  = (if forallb readable items
     then Fulfilled (acc ++ hashed_pairs sdk i items)
     else Rejected (TypeError "Cannot read properties"),
     {| outside := outside w; calls := calls w ++ hash_calls items |}).
Proof.
  revert i acc w. induction items as [|item items IH]; intros i acc w.
  - simpl. rewrite !app_nil_r. by destruct w.
  - cbn [collectInnerTxHashes forallb hashed_pairs hash_calls].
    unfold mbind at 1 2, M_bind, sync. unfold pair_of_item.
    destruct item; simpl;
      first
        [ rewrite app_nil_r; by destruct w
        | match goal with
          | |- context [truthy ?v] =>
              destruct (truthy v); simpl;
              [unfold try_catch_async, hashSignedTx, log, mbind, M_bind, sync;
               simpl; destruct (hashes_hashSignedTx sdk v); simpl
              |];
              rewrite IH; simpl; destruct (forallb readable items);
              rewrite ?app_nil_r, <- ?app_assoc; done
          end
        | rewrite IH; simpl; by destruct (forallb readable items) ].
Qed.

Lemma hash_calls_from_items items :
  Forall (is_hash_call_of items) (hash_calls items).
Proof.
  induction items as [|item items IH]; [constructor|].
  cbn [hash_calls].
  destruct (get item "RawTransaction") as [innerTx|e] eqn:Hget; [|constructor].
  apply Forall_app. split.
  - destruct (truthy innerTx); constructor; [|constructor].
    exists innerTx. split; [done|]. by exists 0, item.
  - eapply Forall_impl; [exact IH|]. apply is_hash_call_of_cons.
Qed.

Lemma hashed_pairs_from_ledger i items :
  Forall (pair_from_ledger_at sdk i items) (hashed_pairs sdk i items).
Proof.
  revert i. induction items as [|item items IH]; intros i; [constructor|].
  cbn [hashed_pairs]. apply Forall_app. split.
  - unfold pair_of_item.
    destruct (get item "RawTransaction") as [innerTx|e] eqn:Hget; [|constructor].
    destruct (truthy innerTx); [|constructor].
    destruct (hashes_hashSignedTx sdk innerTx) as [txHash|e] eqn:Hhash;
      constructor; [|constructor].
    exists 0, item, innerTx. simpl. repeat split; try done. f_equal. lia.
  - eapply Forall_impl; [apply IH|]. apply pair_from_ledger_at_cons.
Qed.

Lemma requests_settle_every_lookup txs w :
  (∀ l r, (client_request sdk l r).1 ≠ Pending) → every_lookup_settles sdk txs w.
Proof.
  intros Hsettles. unfold every_lookup_settles, answers_of.
  revert w. induction txs as [|tx txs IH]; intros w; [by constructor|].
  rewrite dispatch_cons. simpl. constructor; [apply Hsettles|apply IH].
Qed.

(** What a call of [getBatchTxStatus] adds to the calls of a script: one
    [tx] request per pair. *)
Lemma getBatchTxStatus_run latency txs w :
  ∃ p w' answers,
    getBatchTxStatus sdk latency txs w = (p, w')
    ∧ calls w'
      = calls w ++ zip_with (λ tx q, SendRequest (tx_request tx) q) txs answers
    ∧ length answers = length txs
    ∧ (∀ e, p ≠ Rejected e)
    ∧ ((∀ l r, (client_request sdk l r).1 ≠ Pending) → p ≠ Pending).
Proof.
  rewrite getBatchTxStatus_gathered. do 3 eexists.
  split; [done|]. split; [apply dispatch_calls|].
  split; [apply dispatch_length|]. split.
  - intros e. apply gathered_not_rejected.
  - intros Hsettles.
    destruct (gathered_settled txs (dispatch sdk txs w).1) as (results & -> & _);
      [apply dispatch_length|by apply requests_settle_every_lookup|done].
Qed.

Ltac settles_leaf :=
  intros (Hconnects & Hdisconnects & Hautofills & Hsubmits & Hrequests);
  try discriminate;
  exfalso;
  match goal with
  | H : client_connect _ ?l = (Pending, _) |- _ =>
      apply (Hconnects l); by rewrite H
  | H : client_disconnect _ ?l = (Pending, _) |- _ =>
      apply (Hdisconnects l); by rewrite H
  | H : client_autofill _ ?l ?tx = (Pending, _) |- _ =>
      apply (Hautofills l tx); by rewrite H
  | H : client_submitAndWait _ ?l ?b = (Pending, _) |- _ =>
      apply (Hsubmits l b); by rewrite H
  | H : client_request _ ?l ?r = (Pending, _) |- _ =>
      apply (Hrequests l r); by rewrite H
  end.

Ltac calls_leaf :=
  simpl; rewrite <- ?app_assoc; simpl;
  first [reflexivity | symmetry; apply app_nil_r].

Ltac no_array :=
  let Hp := fresh "Hp" in
  let Hget := fresh "Hget" in
  intros ? ? Hp Hget;
  first [discriminate Hp | injection Hp as <-; congruence].

Ltac try_leaf :=
  do 3 eexists; split; [reflexivity|];
  split; [calls_leaf|];
  split;
  [ econstructor;
    first [done | by unfold validated_submission; eauto 10 | no_array]
  | settles_leaf ].

(** The run of the [try] block. *)
Lemma batchAllOrNothing_try_run env latency w :
  ∃ p w' cs,
    batchAllOrNothing_try sdk env latency w = (p, w')
    ∧ calls w' = calls w ++ cs
    ∧ try_calls sdk cs
    ∧ (sdk_settles sdk → p ≠ Pending).
Proof.
  unfold batchAllOrNothing_try. unfold mbind at 1 2 3 4 5, M_bind, sync.
  destruct (Wallet_fromSeed sdk (ISUEER_SEED env)) as [issuer|e]; [|try_leaf].
  destruct (Wallet_fromSeed sdk (USER_SEED env)) as [user|e]; [|try_leaf].
  unfold connect.
  destruct (client_connect sdk (outside w)) as [[|[[]|e]] l1] eqn:Hconnect;
    [try_leaf| |try_leaf].
  destruct (xrpToDrops sdk "1") as [amount1|e]; [|try_leaf].
  destruct (xrpToDrops sdk "0.5") as [amount2|e]; [|try_leaf].
  unfold mbind at 1, M_bind, autofill. cbn [outside calls].
  destruct (client_autofill sdk l1 _) as [[|[prepared|e]] l2] eqn:Hautofill;
    [try_leaf| |try_leaf].
  unfold mbind at 1, M_bind.
  destruct (Wallet_sign sdk issuer prepared) as [signed|e]; [|try_leaf].
  unfold mbind at 1, M_bind, submitAndWait. cbn [outside calls].
  destruct (client_submitAndWait sdk l2 _) as [[|[result|e]] l3] eqn:Hsubmit;
    [try_leaf| |try_leaf].
  unfold mbind at 1, M_bind.
  destruct (validateTransactionResult result) as [[]|e] eqn:Hvalid; [|try_leaf].
  unfold mbind at 1, M_bind, request. cbn [outside calls].
  destruct (client_request sdk l3 _) as [[|[batchTxData|e]] l4] eqn:Hrequest;
    [try_leaf| |try_leaf].
  unfold mbind at 1, M_bind.
  destruct (get_optional _ "RawTransactions") as [rawTransactions|e] eqn:Hraw;
    [|try_leaf].
  destruct rawTransactions as [| |b|n|s|fields|items]; simpl;
    try (destruct b); try (destruct (n =? 0)%Z); try (destruct (String.eqb s ""));
    simpl; try try_leaf.
  unfold mbind at 1, M_bind.
  rewrite collectInnerTxHashes_run. cbn [outside calls].
  assert (validated_submission sdk (Signed.tx_blob signed)
            {| command := "tx";
               transaction := TxResponse.hash (TxResponse.result result) |})
    as Hvalidated.
  { exists l2, result, l3. by repeat split. }
  destruct (forallb readable items) eqn:Hreadable.
  2:{ do 3 eexists. split; [reflexivity|]. split; [calls_leaf|].
      split; [|settles_leaf].
      rewrite <- (app_nil_r (hash_calls items)).
      eapply (try_verify sdk); eauto. constructor. by left. }
  simpl.
  destruct (length (hashed_pairs sdk 0 items) =? 0)%nat eqn:Hempty.
  { do 3 eexists. split; [reflexivity|]. split; [calls_leaf|].
    split; [|settles_leaf].
    rewrite <- (app_nil_r (hash_calls items)).
    eapply (try_verify sdk); eauto. constructor. right.
    apply Nat.eqb_eq in Hempty. by apply nil_length_inv. }
  assert (hashed_pairs sdk 0 items ≠ []) as Hpairs.
  { intros Hnil. by rewrite Hnil in Hempty. }
  unfold mbind at 1, M_bind, log. cbn [outside calls].
  unfold mbind at 1, M_bind.
  match goal with
  | |- context [getBatchTxStatus sdk latency ?new ?w0] =>
      destruct (getBatchTxStatus_run latency new w0)
        as (p & w' & answers & -> & Hcalls & Hlength & Hnot_rejected & Hsettles)
  end.
  cbn [calls] in Hcalls.
  assert (try_calls sdk
            ([Connect;
              Autofill (batch_transaction (Wallet.address issuer)
                 [inner_payment (Wallet.address issuer) (Wallet.address user) amount1;
                  inner_payment (Wallet.address issuer) (Wallet.address user) amount2]);
              SubmitAndWait (Signed.tx_blob signed);
              SendRequest {| command := "tx";
                             transaction := TxResponse.hash (TxResponse.result result) |}
                          (Fulfilled batchTxData)]
             ++ hash_calls items
             ++ GetBatchTxStatus (hashed_pairs sdk 0 items)
                :: zip_with (λ tx q, SendRequest (tx_request tx) q)
                            (hashed_pairs sdk 0 items) answers)) as Hshape.
  { eapply (try_verify sdk); eauto. by constructor. }
  assert (calls w' = calls w ++
            [Connect;
              Autofill (batch_transaction (Wallet.address issuer)
                 [inner_payment (Wallet.address issuer) (Wallet.address user) amount1;
                  inner_payment (Wallet.address issuer) (Wallet.address user) amount2]);
              SubmitAndWait (Signed.tx_blob signed);
              SendRequest {| command := "tx";
                             transaction := TxResponse.hash (TxResponse.result result) |}
                          (Fulfilled batchTxData)]
             ++ hash_calls items
             ++ GetBatchTxStatus (hashed_pairs sdk 0 items)
                :: zip_with (λ tx q, SendRequest (tx_request tx) q)
                            (hashed_pairs sdk 0 items) answers) as Hlog.
  { rewrite Hcalls. rewrite <- !app_assoc. done. }
  destruct p as [|[innerTxStatuses|e]].
  - do 3 eexists. split; [reflexivity|]. split; [exact Hlog|].
    split; [exact Hshape|].
    intros (_ & _ & _ & _ & Hrequests) _. by apply Hsettles.
  - destruct (0 <? length _)%nat;
      (do 3 eexists; split; [reflexivity|]; split; [exact Hlog|];
       split; [exact Hshape|done]).
  - do 3 eexists. split; [reflexivity|]. split; [exact Hlog|].
    split; [exact Hshape|done].
Qed.

(** The run of the function: the client is constructed, the [try] block
    runs as far as it gets, and [disconnect] is called unless the function
    is still suspended in the block. *)
Lemma batchAllOrNothing_run env latency w :
  ∃ p w' cs closing,
    batchAllOrNothing sdk env latency w = (p, w')
    ∧ calls w' = calls w ++ [NewClient (ws (getNetworkUrl env))] ++ cs ++ closing
    ∧ try_calls sdk cs
    ∧ (closing = [] ∨ closing = [Disconnect])
    ∧ (p ≠ Pending → closing = [Disconnect])
    ∧ (sdk_settles sdk → p ≠ Pending).
Proof.
  unfold batchAllOrNothing, new_Client. rewrite valid_server_networks.
  unfold mbind at 1, M_bind, log, try_catch_finally, try_catch_async.
  match goal with
  | |- context [batchAllOrNothing_try sdk env latency ?w0] =>
      destruct (batchAllOrNothing_try_run env latency w0)
        as (p & w1 & cs & -> & Hcalls & Hshape & Hsettles)
  end.
  cbn [calls] in Hcalls.
  assert (∀ (c : Completion bool) (w2 : World L),
            calls w2 = calls w1 →
            ∃ p' w' closing,
              (let '(p0, w3) := (Settled c, w2) in
               match p0 with
               | Pending => (Pending, w3)
               | Settled c0 =>
                   match disconnect sdk w3 with
                   | (Settled (Normal _), w4) => (Settled c0, w4)
                   | (Settled (Throw e), w4) => (Rejected e, w4)
                   | (Pending, w4) => (Pending, w4)
                   end
               end) = (p', w')
              ∧ calls w' = calls w ++ [NewClient (ws (getNetworkUrl env))] ++ cs ++ closing
              ∧ closing = [Disconnect]
              ∧ (sdk_settles sdk → p' ≠ Pending)) as Hfinally.
  { intros c w2 Hw2. cbv beta iota. unfold disconnect.
    destruct (client_disconnect sdk (outside w2)) as [[|[[]|e]] l] eqn:Hdisconnect;
      (do 3 eexists; split; [reflexivity|];
       split; [cbn [calls]; rewrite Hw2, Hcalls, <- !app_assoc; reflexivity|];
       split; [reflexivity|settles_leaf]). }
  destruct p as [|[b|e]].
  - exists Pending, w1, cs, []. rewrite app_nil_r.
    split; [done|]. split; [by rewrite Hcalls, <- app_assoc|].
    split; [done|]. split; [by left|]. split; [done|done].
  - destruct (Hfinally (Normal b) w1 eq_refl) as (p' & w' & closing & -> & ? & -> & ?).
    exists p', w', cs, [Disconnect]. split; [done|]. repeat split; eauto.
  - destruct (Hfinally (Normal false) w1 eq_refl) as (p' & w' & closing & Hrun & ? & -> & ?).
    exists p', w', cs, [Disconnect]. split; [exact Hrun|]. repeat split; eauto.
Qed.

Lemma connects_quiet cs : Forall (λ c, c ≠ Connect) cs → connects cs = 0.
Proof.
  induction 1 as [|c cs Hc _ IH]; [done|]. by destruct c.
Qed.

Lemma lookups_tx_requests pairs answers :
  Forall is_tx_request
    (zip_with (λ tx q, SendRequest (tx_request tx) q) pairs answers).
Proof.
  revert answers. induction pairs as [|pair pairs IH]; intros answers.
  - constructor.
  - destruct answers as [|q answers]; simpl; constructor; [|apply IH].
    by exists (tx_request pair), q.
Qed.

(** Inside the [try] block: no [new Client], no [disconnect], one
    [connect] at most. *)
Lemma try_calls_client cs :
  try_calls sdk cs →
  Forall (λ c, c ≠ Disconnect ∧ ∀ server, c ≠ NewClient server) cs
  ∧ connects cs ≤ 1.
Proof.
  destruct 1 as [| | | | |tx tx_blob r res items rest Hr Hitems Hrest];
    try (split; [by repeat constructor|simpl; lia]).
  assert (Forall (λ c, c ≠ Connect ∧ c ≠ Disconnect ∧ ∀ server, c ≠ NewClient server)
                 (hash_calls items ++ rest)) as Hquiet.
  { apply Forall_app. split.
    - eapply Forall_impl; [apply hash_calls_from_items|].
      by intros c (tx' & -> & _).
    - destruct Hrest as [|answers _ _ _]; constructor; [done|].
      eapply Forall_impl; [apply lookups_tx_requests|].
      by intros c (r' & p & -> & _). }
  split.
  - apply Forall_app. split; [by repeat constructor|].
    eapply Forall_impl; [exact Hquiet|]. by intros c (_ & ? & ?).
  - rewrite connects_app, (connects_quiet (hash_calls items ++ rest)); [simpl; lia|].
    eapply Forall_impl; [exact Hquiet|]. by intros c (? & _).
Qed.

(** C8. [batchAllOrNothing] constructs one client, and whenever it
    terminates, by returning [true], by returning [false] or by throwing,
    the last thing it has done is to call [disconnect] on that client, once;
    in between it has called [connect] at most once.  When every promise of
    the SDK settles the function terminates. *)
Theorem batchAllOrNothing_disconnects env latency w :
  let run := batchAllOrNothing sdk env latency w in
  (run.1 ≠ Pending →
   ∃ cs,
     calls run.2
     = calls w ++ [NewClient (ws (getNetworkUrl env))] ++ cs ++ [Disconnect]
     ∧ Forall (λ c, c ≠ Disconnect ∧ ∀ server, c ≠ NewClient server) cs
     ∧ connects cs ≤ 1)
  ∧ (sdk_settles sdk → run.1 ≠ Pending).
Proof.
  intros run. subst run.
  destruct (batchAllOrNothing_run env latency w)
    as (p & w' & cs & closing & -> & Hcalls & Hshape & _ & Hclosing & Hsettles).
  simpl. split; [|done].
  intros Hp. rewrite (Hclosing Hp) in Hcalls.
  exists cs. split; [done|]. by apply try_calls_client.
Qed.

Lemma hashed_pairs_complete i items j item pair :
  items !! j = Some item → pair_of_item sdk (i + j) item = Some pair →
  pair ∈ hashed_pairs sdk i items.
Proof.
  revert i j. induction items as [|item' items IH]; intros i j Hj Hpair; [done|].
  cbn [hashed_pairs]. apply elem_of_app. destruct j as [|j]; simpl in Hj.
  - left. simplify_eq. rewrite Nat.add_0_r in Hpair. rewrite Hpair.
    apply list_elem_of_here.
  - right. apply (IH (S i) j); [done|]. by rewrite Nat.add_succ_comm.
Qed.

Lemma hash_calls_complete items i item innerTx :
  items !! i = Some item →
  forallb readable (take i items) = true →
  get item "RawTransaction" = Normal innerTx →
  truthy innerTx = true →
  HashSignedTx innerTx ∈ hash_calls items.
Proof.
  revert i. induction items as [|item' items IH]; intros i Hi Hbefore Hget Htruthy;
    [done|].
  cbn [hash_calls]. destruct i as [|i]; simpl in Hi, Hbefore.
  - simplify_eq. rewrite Hget, Htruthy. apply list_elem_of_here.
  - apply andb_true_iff in Hbefore as [Hitem' Hbefore].
    destruct (get item' "RawTransaction") as [v|e] eqn:Hget'.
    + apply elem_of_app. right. by eapply IH.
    + by destruct item'.
Qed.

Lemma status_calls_hash items rest tx :
  status_calls sdk items rest → HashSignedTx tx ∉ rest.
Proof.
  intros [|answers _ _ _]; [apply not_elem_of_nil|].
  intros [?|Hin]%elem_of_cons; [done|].
  by destruct (proj1 (Forall_forall _ _) (lookups_tx_requests _ _) _ Hin)
    as (r & p & ? & _).
Qed.

Lemma status_calls_pairs items rest pairs :
  status_calls sdk items rest → GetBatchTxStatus pairs ∈ rest →
  pairs = hashed_pairs sdk 0 items.
Proof.
  intros [|answers _ _ _]; [by intros ?%not_elem_of_nil|].
  intros [[= ->]|Hin]%elem_of_cons; [done|].
  by destruct (proj1 (Forall_forall _ _) (lookups_tx_requests _ _) _ Hin)
    as (r & p & ? & _).
Qed.

Lemma closing_calls closing c :
  closing = [] ∨ closing = [Disconnect] → c ∈ closing → c = Disconnect.
Proof.
  intros [->| ->]; [by intros ?%not_elem_of_nil|].
  by intros ->%list_elem_of_singleton.
Qed.

(** C5. In [batchAllOrNothing] a hash is computed, and [getBatchTxStatus]
    called, only after the batch was submitted, the response to the
    submission passed [validateTransactionResult], and the transaction of
    that response was fetched back from the ledger with a [tx] request that
    returned an array of [RawTransactions].  And once that has happened the
    script calls [hashes.hashSignedTx] on the truthy [RawTransaction]s of
    that array, in the order of the array (up to a [null] or [undefined]
    element, at which the loop throws), and on nothing else; when no
    element is [null] or [undefined] and a hash was returned, it calls
    [getBatchTxStatus] next, on the pairs made of the hash of the
    [RawTransaction] of element [i] and the index [i + 1], for the elements
    that have a hash, in the order of the array: no such element is left
    out. *)
Theorem batchAllOrNothing_hashes_from_ledger env latency w new :
  calls (batchAllOrNothing sdk env latency w).2 = calls w ++ new →
  ((∃ tx, HashSignedTx tx ∈ new) ∨ (∃ pairs, GetBatchTxStatus pairs ∈ new) →
   ∃ batchTx tx_blob r res items after,
     new = [NewClient (ws (getNetworkUrl env)); Connect; Autofill batchTx;
            SubmitAndWait tx_blob; SendRequest r (Fulfilled res)] ++ after
     ∧ get_optional (TxResponse.tx_json (TxResponse.result res)) "RawTransactions"
       = Normal (Array items))
  ∧ ∀ batchTx tx_blob r res items after,
      new = [NewClient (ws (getNetworkUrl env)); Connect; Autofill batchTx;
             SubmitAndWait tx_blob; SendRequest r (Fulfilled res)] ++ after →
      get_optional (TxResponse.tx_json (TxResponse.result res)) "RawTransactions"
      = Normal (Array items) →
      validated_submission sdk tx_blob r
      ∧ ∃ rest,
          after = hash_calls items ++ rest
          ∧ (∀ tx, HashSignedTx tx ∈ new →
               HashSignedTx tx ∈ hash_calls items
               ∧ ∃ i item, items !! i = Some item
                           ∧ get item "RawTransaction" = Normal tx)
          ∧ (∀ pairs, GetBatchTxStatus pairs ∈ new →
               pairs = hashed_pairs sdk 0 items
               ∧ ∀ pair, pair ∈ pairs →
                   ∃ i item innerTx,
                     items !! i = Some item
                     ∧ get item "RawTransaction" = Normal innerTx
                     ∧ hashes_hashSignedTx sdk innerTx
                       = Normal (InnerTxHash.hash pair)
                     ∧ InnerTxHash.index pair = (Z.of_nat i + 1)%Z)
          ∧ (forallb readable items = true →
             hashed_pairs sdk 0 items ≠ [] →
             ∃ reqs, rest = GetBatchTxStatus (hashed_pairs sdk 0 items) :: reqs)
          ∧ (∀ i item innerTx,
               items !! i = Some item →
               forallb readable (take i items) = true →
               get item "RawTransaction" = Normal innerTx →
               truthy innerTx = true →
               HashSignedTx innerTx ∈ after
               ∧ ∀ txHash,
                   forallb readable items = true →
                   hashes_hashSignedTx sdk innerTx = Normal txHash →
                   ∃ pairs reqs,
                     rest = GetBatchTxStatus pairs :: reqs
                     ∧ {| InnerTxHash.hash := txHash;
                          InnerTxHash.index := (Z.of_nat i + 1)%Z |} ∈ pairs).
Proof.
  intros Hnew.
  destruct (batchAllOrNothing_run env latency w)
    as (p & w' & cs & closing & Hrun & Hcalls & Hshape & Hclosing & _ & _).
  rewrite Hrun in Hnew. simpl in Hnew. rewrite Hcalls in Hnew.
  apply app_inv_head in Hnew. subst new.
  split.
  - intros Hreached.
    destruct Hshape as [| | | | |tx0 tx_blob r res items rest Hr Hitems Hrest].
    1-5: exfalso; destruct Hreached as [[x Hin]|[x Hin]];
         simpl in Hin; rewrite ?elem_of_cons in Hin;
         repeat (destruct Hin as [Hin|Hin]; [discriminate|]);
         by apply (closing_calls _ _ Hclosing) in Hin.
    exists tx0, tx_blob, r, res, items, (hash_calls items ++ rest ++ closing).
    split; [|done]. simpl. by rewrite <- !app_assoc.
  - intros batchTx tx_blob r res items after Heq Hitems.
    simpl in Heq. injection Heq as Heq.
    destruct Hshape
      as [| | | |tx0 tx_blob0 r0 p0 Hr Hp
          |tx0 tx_blob0 r0 res0 items0 rest Hr Hitems0 Hrest];
      try (destruct Hclosing as [-> | ->]; discriminate Heq).
    { exfalso. simpl in Heq. injection Heq as -> -> -> -> _.
      by eapply Hp. }
    simpl in Heq. rewrite <- app_assoc in Heq.
    injection Heq as -> -> -> -> <-.
    rewrite Hitems in Hitems0. injection Hitems0 as <-.
    split; [exact Hr|].
    exists (rest ++ closing). split; [done|].
    assert (forallb readable items = true →
            hashed_pairs sdk 0 items ≠ [] →
            ∃ reqs, rest ++ closing
                    = GetBatchTxStatus (hashed_pairs sdk 0 items) :: reqs)
      as Hcalled.
    { intros Hreadable Hpairs.
      destruct Hrest as [[Hunreadable|Hnone]|answers _ _ _].
      - congruence.
      - done.
      - simpl. eauto. }
    split; [|split; [|split; [exact Hcalled|]]].
    + intros tx Hin. simpl in Hin. rewrite !elem_of_cons, <- app_assoc in Hin.
      repeat (destruct Hin as [Hin|Hin]; [discriminate|]).
      apply elem_of_app in Hin as [Hin|[Hin|Hin]%elem_of_app].
      * split; [done|].
        destruct (proj1 (Forall_forall _ _) (hash_calls_from_items items) _ Hin)
          as (tx' & [= <-] & Hraw).
        exact Hraw.
      * by apply (status_calls_hash _ _ _ Hrest) in Hin.
      * by apply (closing_calls _ _ Hclosing) in Hin.
    + intros pairs Hin. simpl in Hin. rewrite !elem_of_cons, <- app_assoc in Hin.
      repeat (destruct Hin as [Hin|Hin]; [discriminate|]).
      apply elem_of_app in Hin as [Hin|[Hin|Hin]%elem_of_app].
      * by destruct (proj1 (Forall_forall _ _) (hash_calls_from_items items) _ Hin)
          as (tx' & ? & _).
      * apply (status_calls_pairs _ _ _ Hrest) in Hin as ->.
        split; [done|]. intros pair Hpair.
        exact (proj1 (Forall_forall _ _) (hashed_pairs_from_ledger 0 items)
                 _ Hpair).
      * by apply (closing_calls _ _ Hclosing) in Hin.
    + intros i item innerTx Hi Hbefore Hget Htruthy. split.
      * apply elem_of_app. left. by eapply hash_calls_complete.
      * intros txHash Hreadable Hhash.
        assert ({| InnerTxHash.hash := txHash;
                   InnerTxHash.index := (Z.of_nat i + 1)%Z |}
                ∈ hashed_pairs sdk 0 items) as Hpair.
        { apply (hashed_pairs_complete 0 items i item); [done|].
          unfold pair_of_item. by rewrite Hget, Htruthy, Hhash. }
        destruct (Hcalled Hreadable) as [reqs Hreqs].
        { intros Hnil. rewrite Hnil in Hpair. by apply not_elem_of_nil in Hpair. }
        eauto.
Qed.

End BatchFacts.

(** * The properties on the sample node *)

(** Every lookup of the sample pairs settles on the sample node. *)
Lemma sample_lookups_settle :
  every_lookup_settles sample_sdk sample_pairs sample_world.
Proof.
  unfold every_lookup_settles. vm_compute. repeat constructor; discriminate.
Defined.

(** The first sample pair succeeded: its entry says so. *)
Lemma getBatchTxStatus_success_classification_sample :
  every_lookup_settles sample_sdk sample_pairs sample_world
  ∧ ∃ results entry,
      (getBatchTxStatus sample_sdk sample_latency sample_pairs sample_world).1
      = Fulfilled results
      ∧ results !! 0 = Some entry
      ∧ InnerTxStatus.successful entry = true
      ∧ InnerTxStatus.status entry = Str "tesSUCCESS".
Proof.
  split; [exact sample_lookups_settle|].
  destruct (getBatchTxStatus_success_classification sample_sdk sample_latency
              sample_pairs sample_world sample_lookups_settle)
    as (results & Hrun & Hentries).
  destruct (Hentries 0 _ _ eq_refl eq_refl) as (entry & Hentry & Hsuccess & Hstatus).
  assert (has_result_code sample_success (Str "tesSUCCESS")) as Hcode.
  { eexists. split; reflexivity. }
  exists results, entry. split; [exact Hrun|]. split; [exact Hentry|].
  split; [apply Hsuccess, Hcode|apply (Hstatus _ Hcode)].
Defined.

(** The four entries come back in the order of the pairs, though the
    answers arrive in the reverse order. *)
Lemma getBatchTxStatus_order_preserved_sample :
  every_lookup_settles sample_sdk sample_pairs sample_world
  ∧ ∃ results,
      (getBatchTxStatus sample_sdk sample_latency sample_pairs sample_world).1
      = Fulfilled results
      ∧ length results = 4
      ∧ InnerTxStatus.index <$> results = [1; 2; 3; 4]%Z.
Proof.
  split; [exact sample_lookups_settle|].
  destruct (getBatchTxStatus_order_preserved sample_sdk sample_latency
              sample_pairs sample_world) as (_ & Hsettled & _).
  destruct (Hsettled sample_lookups_settle) as (results & Hrun & Hlen & Hentries).
  exists results. split; [exact Hrun|]. split; [exact Hlen|].
  destruct (Hentries 0 _ eq_refl) as (e0 & H0 & Hi0 & _).
  destruct (Hentries 1 _ eq_refl) as (e1 & H1 & Hi1 & _).
  destruct (Hentries 2 _ eq_refl) as (e2 & H2 & Hi2 & _).
  destruct (Hentries 3 _ eq_refl) as (e3 & H3 & Hi3 & _).
  destruct results as [|r0 [|r1 [|r2 [|r3 [|r4 rest]]]]]; try discriminate.
  simpl in *. congruence.
Defined.

(** The lookup of the third sample pair throws: its entry alone is
    ["not validated"]; the entries of the first two pairs carry the codes
    of their own responses, and the entry of the fourth is ["unknown"]. *)
Lemma getBatchTxStatus_failure_isolation_sample :
  every_lookup_settles sample_sdk sample_pairs sample_world
  ∧ ∃ results first second,
      (getBatchTxStatus sample_sdk sample_latency sample_pairs sample_world).1
      = Fulfilled results
      ∧ length results = 4
      ∧ results !! 0 = Some first
      ∧ InnerTxStatus.status first = Str "tesSUCCESS"
      ∧ InnerTxStatus.successful first = true
      ∧ results !! 1 = Some second
      ∧ InnerTxStatus.status second = Str "tecUNFUNDED_PAYMENT"
      ∧ InnerTxStatus.successful second ≠ true
      ∧ results !! 2 =
          Some {| InnerTxStatus.hash := "H0";
                  InnerTxStatus.index := 3;
                  InnerTxStatus.successful := false;
                  InnerTxStatus.status := Str "not validated" |}
      ∧ results !! 3 =
          Some {| InnerTxStatus.hash := "H9";
                  InnerTxStatus.index := 4;
                  InnerTxStatus.successful := false;
                  InnerTxStatus.status := Str "unknown" |}.
Proof.
  split; [exact sample_lookups_settle|].
  destruct (getBatchTxStatus_failure_isolation sample_sdk sample_latency
              sample_pairs sample_world) as [_ Hsettled].
  destruct (Hsettled sample_lookups_settle)
    as (results & Hrun & Hlength & Hentries).
  destruct (Hentries 0 _ eq_refl) as (_ & Hcoded0 & _).
  destruct (Hcoded0 _ (Str "tesSUCCESS") eq_refl)
    as (first & Hfirst & _ & _ & Hstatus0 & Hsuccess0).
  { eexists. split; reflexivity. }
  destruct (Hentries 1 _ eq_refl) as (_ & Hcoded1 & _).
  destruct (Hcoded1 _ (Str "tecUNFUNDED_PAYMENT") eq_refl)
    as (second & Hsecond & _ & _ & Hstatus1 & Hsuccess1).
  { eexists. split; reflexivity. }
  destruct (Hentries 2 _ eq_refl) as (Hthrown & _).
  destruct (Hentries 3 _ eq_refl) as (_ & _ & Hunknown & _).
  exists results, first, second.
  split; [exact Hrun|]. split; [exact Hlength|].
  split; [exact Hfirst|]. split; [exact Hstatus0|].
  split; [apply Hsuccess0; reflexivity|].
  split; [exact Hsecond|]. split; [exact Hstatus1|].
  split; [intros Hs; apply Hsuccess1 in Hs; discriminate Hs|].
  split; [exact (Hthrown _ eq_refl)|].
  apply (Hunknown _ eq_refl).
  intros code (fields & Hmeta & _). discriminate Hmeta.
Defined.

(** The metadata of the fourth sample pair is a string: its entry is
    ["unknown"]. *)
Lemma getBatchTxStatus_missing_metadata_sample :
  every_lookup_settles sample_sdk sample_pairs sample_world
  ∧ ∃ results,
      (getBatchTxStatus sample_sdk sample_latency sample_pairs sample_world).1
      = Fulfilled results
      ∧ results !! 3 =
          Some {| InnerTxStatus.hash := "H9";
                  InnerTxStatus.index := 4;
                  InnerTxStatus.successful := false;
                  InnerTxStatus.status := Str "unknown" |}.
Proof.
  split; [exact sample_lookups_settle|].
  destruct (getBatchTxStatus_missing_metadata sample_sdk sample_latency
              sample_pairs sample_world sample_lookups_settle)
    as (results & Hrun & Hentries).
  exists results. split; [exact Hrun|].
  apply (Hentries 3 _ _ eq_refl eq_refl).
  intros code (fields & Hmeta & _). discriminate.
Defined.

(** Lookups leave the sample node as it is. *)
Lemma sample_lookups_read_only : tx_lookups_read_only sample_sdk.
Proof. intros l r _. reflexivity. Defined.

(** A second call, with another timing, returns what the first did. *)
Lemma getBatchTxStatus_idempotent_sample :
  tx_lookups_read_only sample_sdk
  ∧ (getBatchTxStatus sample_sdk id sample_pairs
       (getBatchTxStatus sample_sdk sample_latency sample_pairs sample_world).2).1
    = (getBatchTxStatus sample_sdk sample_latency sample_pairs sample_world).1.
Proof.
  split; [exact sample_lookups_read_only|].
  apply (getBatchTxStatus_idempotent sample_sdk sample_latency id sample_pairs
           sample_world sample_lookups_read_only).
Defined.

(** The calls of the resolver on the sample pairs are its four requests. *)
Lemma getBatchTxStatus_requests_sample :
  ∃ answers,
    length answers = 4
    ∧ calls (getBatchTxStatus sample_sdk sample_latency sample_pairs sample_world).2
      = zip_with (λ tx p, SendRequest {| command := "tx";
                                         transaction := InnerTxHash.hash tx |} p)
                 sample_pairs answers.
Proof.
  destruct (getBatchTxStatus_requests sample_sdk sample_latency sample_pairs
              sample_world) as (answers & Hlen & Hcalls & _).
  exists answers. split; [exact Hlen|exact Hcalls].
Defined.

(** Every promise of the sample SDK settles. *)
Lemma sample_sdk_settles : sdk_settles sample_sdk.
Proof.
  repeat split; intros; simpl; try discriminate.
  unfold sample_lookup. repeat destruct (String.eqb _ _); discriminate.
Defined.

(** The run of the script on the sample node ends with [disconnect]. *)
Lemma batchAllOrNothing_disconnects_sample :
  sdk_settles sample_sdk
  ∧ ∃ cs,
      calls (batchAllOrNothing sample_sdk sample_env sample_latency sample_world).2
      = [NewClient "wss://s.devnet.rippletest.net:51233"] ++ cs ++ [Disconnect]
      ∧ Forall (λ c, c ≠ Disconnect ∧ ∀ server, c ≠ NewClient server) cs
      ∧ connects cs ≤ 1.
Proof.
  split; [exact sample_sdk_settles|].
  destruct (batchAllOrNothing_disconnects sample_sdk sample_env sample_latency
              sample_world) as [Hterminated Hsettles].
  exact (Hterminated (Hsettles sample_sdk_settles)).
Defined.

(** On the sample node the batch is fetched back by the hash of the
    response to its submission; the three truthy [RawTransaction]s of the
    array are hashed, the one that is [null] is not, and
    [getBatchTxStatus] is called on the two pairs that have a hash, the
    first and the fourth element. *)
Lemma batchAllOrNothing_hashes_from_ledger_sample :
  ∃ reqs,
    calls (batchAllOrNothing sample_sdk sample_env sample_latency sample_world).2
    = [NewClient "wss://s.devnet.rippletest.net:51233"; Connect;
       Autofill (batch_transaction "sIssuer"
                   [inner_payment "sIssuer" "sUser" "1000000";
                    inner_payment "sIssuer" "sUser" "500000"]);
       SubmitAndWait "blob";
       SendRequest {| command := "tx"; transaction := "BATCH" |}
         (Fulfilled (sample_response "BATCH" sample_success sample_batch))]
      ++ [HashSignedTx (Object [("Sequence", Number 7)]);
          HashSignedTx (Str "bad");
          HashSignedTx (Object [("Sequence", Number 8)])]
      ++ GetBatchTxStatus [{| InnerTxHash.hash := "H7"; InnerTxHash.index := 1 |};
                           {| InnerTxHash.hash := "H8"; InnerTxHash.index := 4 |}]
         :: reqs
    ∧ validated_submission sample_sdk "blob"
        {| command := "tx"; transaction := "BATCH" |}.
Proof.
  destruct (batchAllOrNothing_hashes_from_ledger sample_sdk sample_env
              sample_latency sample_world
              (calls (batchAllOrNothing sample_sdk sample_env sample_latency
                        sample_world).2) eq_refl)
    as [_ Hexact].
  destruct (Hexact (batch_transaction "sIssuer"
                      [inner_payment "sIssuer" "sUser" "1000000";
                       inner_payment "sIssuer" "sUser" "500000"])
              "blob" {| command := "tx"; transaction := "BATCH" |}
              (sample_response "BATCH" sample_success sample_batch)
              sample_items
              (drop 5 (calls (batchAllOrNothing sample_sdk sample_env
                                sample_latency sample_world).2)))
    as (Hvalidated & rest & Hafter & _ & _ & Hstatus & _).
  - vm_compute. reflexivity.
  - reflexivity.
  - destruct Hstatus as [reqs Hrest]; [reflexivity|discriminate|].
    exists reqs. split; [|exact Hvalidated].
    pose proof (take_drop 5 (calls (batchAllOrNothing sample_sdk sample_env
                                      sample_latency sample_world).2)) as Hsplit.
    rewrite Hafter, Hrest in Hsplit.
    etransitivity; [symmetry; exact Hsplit|]. vm_compute. reflexivity.
Defined.

(** A failed transaction makes [validateTransactionResult] throw. *)
Lemma validateTransactionResult_throws_iff_sample :
  ∃ e,
    validateTransactionResult
      (sample_response "H8"
         (Object [("TransactionResult", Str "tecUNFUNDED_PAYMENT")]) Undefined)
    = Throw e.
Proof.
  apply (validateTransactionResult_throws_iff
           (sample_response "H8"
              (Object [("TransactionResult", Str "tecUNFUNDED_PAYMENT")]) Undefined)).
  intros (fields & [= <-] & [=]).
Defined.

(** * Further properties *)

(** ** More about [getBatchTxStatus] *)

Lemma gathered_Fulfilled_settled txs answers results :
  length answers = length txs →
  gathered txs answers = Fulfilled results →
  Forall (λ p, p ≠ Pending) answers.
Proof.
  intros Hlen Hrun. unfold gathered in Hrun.
  case_bool_decide as Hall; [|discriminate].
  rewrite Forall_fmap in Hall.
  apply Forall_lookup. intros i p Hp ->.
  assert (i < length txs) as Hi by (rewrite <- Hlen; by eapply lookup_lt_Some).
  apply (proj1 (Forall_seq _ _ _)) with (j := i) in Hall; [|lia].
  simpl in Hall. unfold slot in Hall. rewrite Hp in Hall.
  destruct (txs !! i); by destruct Hall.
Qed.

Section ResolverMore.
Context {L : Type} (sdk : Sdk L).

(** A fulfilled call is a call whose lookups all settled. *)
Lemma getBatchTxStatus_Fulfilled_settles latency txs w results :
  (getBatchTxStatus sdk latency txs w).1 = Fulfilled results →
  every_lookup_settles sdk txs w.
Proof.
  rewrite getBatchTxStatus_gathered. simpl.
  apply gathered_Fulfilled_settled, dispatch_length.
Qed.

Lemma getBatchTxStatus_Fulfilled_entries latency txs w results :
  (getBatchTxStatus sdk latency txs w).1 = Fulfilled results →
  length results = length txs
  ∧ ∀ i tx, txs !! i = Some tx →
      ∃ answer, answers_of sdk txs w !! i = Some (Settled answer)
                ∧ results !! i = Some (settled_status tx answer).
Proof.
  intros Hrun.
  destruct (getBatchTxStatus_results sdk latency txs w
              (getBatchTxStatus_Fulfilled_settles _ _ _ _ Hrun))
    as (results' & Hrun' & Hlen & Hentries).
  rewrite Hrun in Hrun'. injection Hrun' as <-.
  split; [done|]. intros i tx Htx.
  destruct (lookup_lt_is_Some_2 (answers_of sdk txs w) i) as [p Hp].
  { unfold answers_of. rewrite dispatch_length. by eapply lookup_lt_Some. }
  destruct (Hentries i tx p Htx Hp) as (answer & -> & Hentry). eauto.
Qed.

Lemma settled_status_successful tx answer :
  InnerTxStatus.successful (settled_status tx answer) = true
  ↔ InnerTxStatus.status (settled_status tx answer) = Str "tesSUCCESS".
Proof.
  destruct answer as [res|e]; simpl; [|done].
  destruct (result_code _) as [code|]; simpl; [|done].
  apply strict_eq_str_true.
Qed.

(** X1. In every list the resolver returns, an entry is successful exactly
    when its status is ['tesSUCCESS']; so the entries with status
    ["unknown"] or ["not validated"] are never successful. *)
Theorem getBatchTxStatus_successful_iff_status latency txs w results :
  (getBatchTxStatus sdk latency txs w).1 = Fulfilled results →
  ∀ entry, entry ∈ results →
    (InnerTxStatus.successful entry = true
     ↔ InnerTxStatus.status entry = Str "tesSUCCESS")
    ∧ (InnerTxStatus.status entry = Str "unknown"
       ∨ InnerTxStatus.status entry = Str "not validated" →
       InnerTxStatus.successful entry = false).
Proof.
  intros Hrun entry Hentry.
  destruct (getBatchTxStatus_Fulfilled_entries _ _ _ _ Hrun) as [Hlen Hentries].
  apply list_elem_of_lookup in Hentry as [i Hi].
  destruct (lookup_lt_is_Some_2 txs i) as [tx Htx].
  { rewrite <- Hlen. by eapply lookup_lt_Some. }
  destruct (Hentries i tx Htx) as (answer & _ & Hi').
  rewrite Hi in Hi'. injection Hi' as ->.
  pose proof (settled_status_successful tx answer) as Hiff.
  split; [exact Hiff|].
  intros Hstatus. apply not_true_is_false. intros Hs%Hiff.
  destruct Hstatus as [Hu|Hn]; congruence.
Qed.

Lemma dispatch_app txs1 txs2 w :
  dispatch sdk (txs1 ++ txs2) w =
    ((dispatch sdk txs1 w).1 ++ (dispatch sdk txs2 (dispatch sdk txs1 w).2).1,
     (dispatch sdk txs2 (dispatch sdk txs1 w).2).2).
Proof.
  revert w. induction txs1 as [|tx txs1 IH]; intros w.
  - simpl. by destruct (dispatch sdk txs2 w).
  - rewrite <- app_comm_cons, !dispatch_cons. simpl. by rewrite IH.
Qed.

(** X2. One call on a concatenated list does what two calls in sequence
    do: when both calls return, the call on [txs1 ++ txs2] returns the two
    lists one after the other and leaves the same world, call log
    included, whatever the timing of the three calls. *)
Theorem getBatchTxStatus_app latency latency1 latency2 txs1 txs2 w results1 results2 :
  let first := getBatchTxStatus sdk latency1 txs1 w in
  let second := getBatchTxStatus sdk latency2 txs2 first.2 in
  first.1 = Fulfilled results1 →
  second.1 = Fulfilled results2 →
  getBatchTxStatus sdk latency (txs1 ++ txs2) w
  = (Fulfilled (results1 ++ results2), second.2).
Proof.
  intros first second H1 H2. subst first second.
  destruct (getBatchTxStatus_Fulfilled_entries _ _ _ _ H1) as [Hlen1 Hentries1].
  destruct (getBatchTxStatus_Fulfilled_entries _ _ _ _ H2) as [Hlen2 Hentries2].
  pose proof (getBatchTxStatus_Fulfilled_settles _ _ _ _ H1) as Hs1.
  pose proof (getBatchTxStatus_Fulfilled_settles _ _ _ _ H2) as Hs2.
  rewrite (getBatchTxStatus_gathered sdk latency1) in Hs2, Hentries2 |- *.
  simpl in Hs2, Hentries2 |- *.
  rewrite (getBatchTxStatus_gathered sdk latency2). simpl.
  set (w1 := (dispatch sdk txs1 w).2) in *.
  assert (every_lookup_settles sdk (txs1 ++ txs2) w) as Hs.
  { unfold every_lookup_settles, answers_of. rewrite dispatch_app. simpl.
    apply Forall_app. by split. }
  destruct (getBatchTxStatus_results sdk latency (txs1 ++ txs2) w Hs)
    as (results & Hrun & Hlen & Hentries).
  rewrite getBatchTxStatus_gathered in Hrun |- *. simpl in Hrun. rewrite Hrun.
  rewrite dispatch_app. simpl. fold w1. f_equal. f_equal.
  apply list_eq. intros i.
  unfold answers_of in Hentries. rewrite dispatch_app in Hentries.
  simpl in Hentries. fold w1 in Hentries.
  assert (length (dispatch sdk txs1 w).1 = length results1) as Hla.
  { by rewrite dispatch_length. }
  destruct (decide (i < length txs1)) as [Hi|Hi].
  - destruct (lookup_lt_is_Some_2 txs1 i Hi) as [tx Htx].
    destruct (Hentries1 i tx Htx) as (answer & Ha & Hr).
    rewrite lookup_app_l by lia. rewrite Hr.
    destruct (Hentries i tx (Settled answer)) as (answer' & [= <-] & ->); [| |done].
    + by rewrite lookup_app_l.
    + rewrite lookup_app_l by (rewrite dispatch_length; lia). exact Ha.
  - rewrite lookup_app_r by lia.
    destruct (txs2 !! (i - length txs1)) as [tx|] eqn:Htx.
    + destruct (Hentries2 _ tx Htx) as (answer & Ha & Hr).
      rewrite Hlen1, Hr.
      destruct (Hentries i tx (Settled answer)) as (answer' & [= <-] & ->); [| |done].
      * rewrite lookup_app_r by lia. done.
      * rewrite lookup_app_r by (rewrite dispatch_length; lia).
        rewrite dispatch_length. exact Ha.
    + rewrite (proj2 (lookup_ge_None _ _)).
      * symmetry. apply lookup_ge_None. rewrite Hlen2.
        apply lookup_ge_None in Htx. lia.
      * rewrite Hlen, length_app. apply lookup_ge_None in Htx. lia.
Qed.

(** X3. The timing of the answers does not show in what
    [getBatchTxStatus] does: with any two timings the call returns the same
    promise and leaves the same world, call log included. *)
Theorem getBatchTxStatus_timing_irrelevant latency1 latency2 txs w :
  getBatchTxStatus sdk latency1 txs w = getBatchTxStatus sdk latency2 txs w.
Proof. by rewrite !getBatchTxStatus_gathered. Qed.

End ResolverMore.

(** X4. [validateTransactionResult] and [getBatchTxStatus] judge a
    response alike: the first returns normally exactly when the second
    marks the entry of that response successful. *)
Theorem validateTransactionResult_agrees (tx : InnerTxHash.t) (res : TxResponse.t) :
  validateTransactionResult res = Normal tt
  ↔ ∃ entry, on_settled tx (Normal res) = Normal entry
             ∧ InnerTxStatus.successful entry = true.
Proof.
  rewrite validateTransactionResult_eq, on_settled_eq. cbv zeta. simpl.
  destruct (result_code _) as [code|] eqn:Hcode; simpl.
  - destruct (strict_eq_str code "tesSUCCESS") eqn:Heq.
    + split; [|done]. intros _. eexists. split; [done|]. exact Heq.
    + split; [done|]. intros (entry & [= <-] & Hs). simpl in Hs. congruence.
  - split.
    + by destruct (TxResponse.meta _).
    + by intros (entry & [= <-] & Hs).
Qed.

(** ** The loop over [RawTransactions] *)

Section LoopFacts.
Context {L : Type} (sdk : Sdk L).

(** The loop in closed form: it throws at the first element that is [null]
    or [undefined], and returns the pairs of the other elements
    otherwise. *)
Lemma collectInnerTxHashes_result items i acc w :
  (collectInnerTxHashes sdk items i acc w).1 =
    if forallb readable items then Fulfilled (acc ++ hashed_pairs sdk i items)
    else Rejected (TypeError "Cannot read properties").
Proof.
  revert i acc w. induction items as [|item items IH]; intros i acc w.
  - simpl. by rewrite app_nil_r.
  - cbn [collectInnerTxHashes forallb hashed_pairs].
    unfold mbind at 1 2, M_bind, sync. unfold pair_of_item.
    destruct item; simpl; try done;
      match goal with
      | |- context [truthy ?v] =>
          destruct (truthy v); simpl;
          [unfold try_catch_async, hashSignedTx, log, mbind, M_bind, sync; simpl;
           destruct (hashes_hashSignedTx sdk v); simpl
          |];
          rewrite IH; destruct (forallb readable items);
          rewrite ?app_nil_r, <- ?app_assoc; done
      end.
Qed.

Lemma hashed_pairs_bounds i items :
  Forall (λ pair, (Z.of_nat i + 1 ≤ InnerTxHash.index pair
                   ≤ Z.of_nat (i + length items))%Z)
         (hashed_pairs sdk i items).
Proof.
  revert i. induction items as [|item items IH]; intros i; [constructor|].
  cbn [hashed_pairs]. apply Forall_app. split.
  - unfold pair_of_item.
    destruct (get item "RawTransaction") as [innerTx|]; [|constructor].
    destruct (truthy innerTx); [|constructor].
    destruct (hashes_hashSignedTx sdk innerTx); constructor; [|constructor].
    simpl. lia.
  - eapply Forall_impl; [apply IH|]. intros pair. simpl. lia.
Qed.

Lemma hashed_pairs_length i items :
  length (hashed_pairs sdk i items) ≤ length items.
Proof.
  revert i. induction items as [|item items IH]; intros i; [done|].
  cbn [hashed_pairs]. rewrite length_app. specialize (IH (S i)).
  destruct (pair_of_item sdk i item); simpl; lia.
Qed.

Lemma hashed_pairs_sorted i items :
  StronglySorted (λ p q, (InnerTxHash.index p < InnerTxHash.index q)%Z)
                 (hashed_pairs sdk i items).
Proof.
  revert i. induction items as [|item items IH]; intros i; [constructor|].
  cbn [hashed_pairs].
  destruct (pair_of_item sdk i item) as [pair|] eqn:Hpair; simpl; [|apply IH].
  constructor; [apply IH|].
  eapply Forall_impl; [apply (hashed_pairs_bounds (S i) items)|].
  intros q Hq. simpl in Hq.
  assert (InnerTxHash.index pair = (Z.of_nat i + 1)%Z) as ->; [|lia].
  unfold pair_of_item in Hpair.
  destruct (get item "RawTransaction") as [innerTx|]; [|done].
  destruct (truthy innerTx); [|done].
  destruct (hashes_hashSignedTx sdk innerTx); by simplify_eq.
Qed.

Lemma forallb_readable items :
  if forallb readable items
  then ∀ item, item ∈ items → readable item = true
  else ∃ item, item ∈ items ∧ readable item = false.
Proof.
  induction items as [|item items IH]; simpl.
  - by intros item ?%not_elem_of_nil.
  - destruct (readable item) eqn:Hitem; simpl.
    + destruct (forallb readable items).
      * intros item' [->|?]%elem_of_cons; auto.
      * destruct IH as (item' & Hin & Hbad). exists item'. split; [|done].
        by apply list_elem_of_further.
    + exists item. split; [apply list_elem_of_here|done].
Qed.

(** X5. The loop of the Batch scripts never waits; it throws exactly when
    an element of the array is [null] or [undefined], the error being a
    [TypeError].  A [RawTransaction] that is missing, falsy or cannot be
    hashed does not make it throw. *)
Theorem collectInnerTxHashes_throws_iff items w :
  let run := collectInnerTxHashes sdk items 0 [] w in
  run.1 ≠ Pending
  ∧ ((∃ e, run.1 = Rejected e)
     ↔ ∃ item, item ∈ items ∧ (item = Undefined ∨ item = Null))
  ∧ ∀ e, run.1 = Rejected e → ∃ message, e = TypeError message.
Proof.
  intros run. subst run. rewrite collectInnerTxHashes_result.
  pose proof (forallb_readable items) as Hall.
  destruct (forallb readable items).
  - split; [done|]. split; [|done]. split; [by intros [e ?]|].
    intros (item & Hin & Hitem). exfalso.
    apply Hall in Hin. by destruct Hitem as [-> | ->].
  - split; [done|]. split; [|intros e [= <-]; eauto].
    split; [|eauto]. intros _.
    destruct Hall as (item & Hin & Hitem).
    exists item. split; [done|]. destruct item; simpl in Hitem; auto; done.
Qed.

(** X6. The pairs the loop returns are in the order of the array: their
    indices increase strictly, lie between 1 and the length of the array,
    and there are no more pairs than elements. *)
Theorem collectInnerTxHashes_indices items w pairs :
  (collectInnerTxHashes sdk items 0 [] w).1 = Fulfilled pairs →
  length pairs ≤ length items
  ∧ StronglySorted (λ p q, (InnerTxHash.index p < InnerTxHash.index q)%Z) pairs
  ∧ Forall (λ pair, (1 ≤ InnerTxHash.index pair ≤ Z.of_nat (length items))%Z) pairs.
Proof.
  rewrite collectInnerTxHashes_result.
  destruct (forallb readable items); [|discriminate].
  intros [= <-]. simpl. split; [apply hashed_pairs_length|].
  split; [apply hashed_pairs_sorted|].
  eapply Forall_impl; [apply (hashed_pairs_bounds 0 items)|].
  intros pair. simpl. lia.
Qed.

(** X7. The loop drops no element it can hash: when it returns, every
    element whose [RawTransaction] is truthy and has a hash is there, with
    its position plus one. *)
Theorem collectInnerTxHashes_complete items w pairs j item innerTx txHash :
  (collectInnerTxHashes sdk items 0 [] w).1 = Fulfilled pairs →
  items !! j = Some item →
  get item "RawTransaction" = Normal innerTx →
  truthy innerTx = true →
  hashes_hashSignedTx sdk innerTx = Normal txHash →
  {| InnerTxHash.hash := txHash; InnerTxHash.index := (Z.of_nat j + 1)%Z |}
    ∈ pairs.
Proof.
  rewrite collectInnerTxHashes_result.
  destruct (forallb readable items); [|discriminate].
  intros [= <-] Hj Hget Htruthy Hhash. simpl.
  apply (hashed_pairs_complete sdk 0 items j item); [done|].
  unfold pair_of_item. by rewrite Hget, Htruthy, Hhash.
Qed.

End LoopFacts.

(** ** The Batch scripts *)

Ltac pending_excluded :=
  intros (Hconnects & Hdisconnects & Hautofills & Hsubmits & Hrequests);
  try discriminate;
  exfalso;
  match goal with
  | H : client_connect _ ?l = (Pending, _) |- _ =>
      apply (Hconnects l); by rewrite H
  | H : client_disconnect _ ?l = (Pending, _) |- _ =>
      apply (Hdisconnects l); by rewrite H
  | H : client_autofill _ ?l ?tx = (Pending, _) |- _ =>
      apply (Hautofills l tx); by rewrite H
  | H : client_submitAndWait _ ?l ?b = (Pending, _) |- _ =>
      apply (Hsubmits l b); by rewrite H
  | H : client_request _ ?l ?r = (Pending, _) |- _ =>
      apply (Hrequests l r); by rewrite H
  end.

Ltac log_equation :=
  simpl; rewrite <- ?app_assoc; simpl;
  first [reflexivity | symmetry; apply app_nil_r].

Ltac not_reached :=
  let pairs := fresh "pairs" in
  let Hin := fresh "Hin" in
  intros pairs Hin; simpl in Hin;
  repeat (apply elem_of_cons in Hin as [Hin|Hin]; [discriminate|]);
  by apply not_elem_of_nil in Hin.

Ltac looked_up :=
  let Hcs := fresh "Hcs" in
  intros ? ? ? ? ? Hcs; simpl in Hcs;
  first [discriminate Hcs | by simplify_eq; eauto 10].

Ltac not_an_array :=
  let Hp := fresh "Hp" in
  let Hget := fresh "Hget" in
  intros ? ? Hp Hget;
  first [discriminate Hp | injection Hp as <-; congruence].

Ltac early_exit :=
  do 3 eexists; split; [reflexivity|];
  split; [log_equation|];
  split;
  [ econstructor;
    first [done | by unfold validated_submission; eauto 10 | not_an_array]
  |];
  split; [pending_excluded|];
  split;
  [ intros ? ?;
    first [discriminate | simplify_eq; left; split; [done|not_reached]]
  | split; [intros ? ?; first [discriminate | not_reached]|looked_up] ].

Section ScriptFacts.
Context {L : Type} (sdk : Sdk L).

Lemma M_bind_ext {A B} (m : M L A) (f g : A → M L B) (w : World L) :
  (∀ a w', f a w' = g a w') → (m ≫= f) w = (m ≫= g) w.
Proof.
  intros Hfg. unfold mbind, M_bind.
  destruct (m w) as [[|[a|e]] w']; [done|apply Hfg|done].
Qed.

Lemma sync_bind {A B} (c : Completion A) (k : A → M L B) (w : World L) :
  (sync c ≫= k) w =
    match c with
    | Normal a => k a w
    | Throw e => (Rejected e, w)
    end.
Proof. by destruct c. Qed.

Ltac bind_ext := apply M_bind_ext; intros ? ?.

(** The three Batch scripts are instances of the shared body. *)
Lemma batchAllOrNothing_try_shared env latency w :
  batchAllOrNothing_try sdk env latency w
  = batch_script_try sdk 0x00010000 ["1"; "0.5"] none_failed env latency w.
Proof.
  unfold batchAllOrNothing_try, batch_script_try.
  do 3 bind_ext.
  rewrite !sync_bind. cbn [drops]. unfold mbind at 3 4, Completion_bind.
  destruct (xrpToDrops sdk "1") as [amount1|e]; [|done].
  rewrite sync_bind.
  destruct (xrpToDrops sdk "0.5") as [amount2|e]; [|done].
  cbn [mbind mret Completion_ret fmap list_fmap].
  do 6 bind_ext.
  destruct (negb (truthy _) || negb (isArray _)); [done|].
  bind_ext. destruct (length _ =? 0)%nat; [done|].
  do 2 bind_ext. unfold none_failed. by destruct (0 <? _)%nat.
Qed.

Lemma batchOnlyOne_try_shared env latency w :
  batchOnlyOne_try sdk env latency w
  = batch_script_try sdk 0x00020000 ["3"; "2"; "1"] (λ _, true) env latency w.
Proof.
  unfold batchOnlyOne_try, batch_script_try.
  do 3 bind_ext.
  rewrite !sync_bind. cbn [drops]. unfold mbind at 3 4, Completion_bind.
  destruct (xrpToDrops sdk "3") as [amount1|e]; [|done].
  rewrite sync_bind. unfold mbind at 3 4, Completion_bind.
  destruct (xrpToDrops sdk "2") as [amount2|e]; [|done].
  rewrite sync_bind.
  destruct (xrpToDrops sdk "1") as [amount3|e]; [|done].
  cbn [mbind mret Completion_ret fmap list_fmap].
  do 6 bind_ext.
  destruct (negb (truthy _) || negb (isArray _)); [done|].
  bind_ext. destruct (length _ =? 0)%nat; [done|].
  by do 2 bind_ext.
Qed.

Lemma batchUntilFailure_try_shared env latency w :
  batchUntilFailure_try sdk env latency w
  = batch_script_try sdk 0x00040000 ["0.5"; "999999"; "0.5"] (λ _, true)
      env latency w.
Proof.
  unfold batchUntilFailure_try, batch_script_try.
  do 3 bind_ext.
  rewrite !sync_bind. cbn [drops]. unfold mbind at 3 4, Completion_bind.
  destruct (xrpToDrops sdk "0.5") as [amount1|e]; [|done].
  rewrite sync_bind. unfold mbind at 3 4, Completion_bind.
  destruct (xrpToDrops sdk "999999") as [amount2|e]; [|done].
  rewrite sync_bind.
  cbn [mbind mret Completion_ret fmap list_fmap].
  do 6 bind_ext.
  destruct (negb (truthy _) || negb (isArray _)); [done|].
  bind_ext. destruct (length _ =? 0)%nat; [done|].
  by do 2 bind_ext.
Qed.

Lemma hash_calls_unreached items hashed :
  Forall (is_hash_call_of items) hashed → unreached hashed.
Proof.
  intros Hhashed pairs Hin.
  by destruct (proj1 (Forall_forall _ _) Hhashed _ Hin) as (tx & ? & _).
Qed.

Lemma unreached_app cs1 cs2 : unreached cs1 → unreached cs2 → unreached (cs1 ++ cs2).
Proof. intros H1 H2 pairs [?|?]%elem_of_app; [by eapply H1|by eapply H2]. Qed.

(** The run of the shared body of the Batch scripts. *)
Lemma batch_script_try_run flags amounts verdict env latency w :
  ∃ p w' cs,
    batch_script_try sdk flags amounts verdict env latency w = (p, w')
    ∧ calls w' = calls w ++ cs
    ∧ try_calls sdk cs
    ∧ (sdk_settles sdk → p ≠ Pending)
    ∧ (∀ b, p = Fulfilled b → batch_outcome verdict cs b)
    ∧ (∀ e, p = Rejected e → unreached cs)
    ∧ (∀ tx tx_blob r q rest,
         cs = Connect :: Autofill tx :: SubmitAndWait tx_blob
              :: SendRequest r q :: rest →
         validated_submission sdk tx_blob r).
Proof.
  unfold batch_script_try, validated_submission. rewrite sync_bind.
  destruct (Wallet_fromSeed sdk (ISUEER_SEED env)) as [issuer|e]; [|early_exit].
  rewrite sync_bind.
  destruct (Wallet_fromSeed sdk (USER_SEED env)) as [user|e]; [|early_exit].
  unfold mbind at 1, M_bind, connect.
  destruct (client_connect sdk (outside w)) as [[|[[]|e]] l1] eqn:Hconnect;
    [early_exit| |early_exit].
  rewrite sync_bind.
  destruct (drops sdk amounts) as [ds|e]; [|early_exit].
  unfold mbind at 1, M_bind, autofill. cbn [outside calls].
  destruct (client_autofill sdk l1 _) as [[|[prepared|e]] l2] eqn:Hautofill;
    [early_exit| |early_exit].
  rewrite sync_bind.
  destruct (Wallet_sign sdk issuer prepared) as [signed|e]; [|early_exit].
  unfold mbind at 1, M_bind, submitAndWait. cbn [outside calls].
  destruct (client_submitAndWait sdk l2 _) as [[|[result|e]] l3] eqn:Hsubmit;
    [early_exit| |early_exit].
  rewrite sync_bind.
  destruct (validateTransactionResult result) as [[]|e] eqn:Hvalid; [|early_exit].
  unfold mbind at 1, M_bind, request. cbn [outside calls].
  destruct (client_request sdk l3 _) as [[|[batchTxData|e]] l4] eqn:Hrequest;
    [early_exit| |early_exit].
  rewrite sync_bind.
  destruct (get_optional _ "RawTransactions") as [rawTransactions|e] eqn:Hraw;
    [|early_exit].
  destruct rawTransactions as [| |b|n|s|fields|items]; simpl;
    try (destruct b); try (destruct (n =? 0)%Z); try (destruct (String.eqb s ""));
    simpl; try early_exit.
  unfold mbind at 1, M_bind.
  rewrite collectInnerTxHashes_run. cbn [outside calls].
  set (tx := batch_of flags (Wallet.address issuer) _) in *.
  set (r := {| command := "tx";
               transaction := TxResponse.hash (TxResponse.result result) |}) in *.
  assert (validated_submission sdk (Signed.tx_blob signed) r) as Hvalidated.
  { exists l2, result, l3. by repeat split. }
  assert (unreached ([Connect; Autofill tx; SubmitAndWait (Signed.tx_blob signed);
                      SendRequest r (Fulfilled batchTxData)] ++ hash_calls items))
    as Hbefore.
  { apply unreached_app; [not_reached|].
    eapply hash_calls_unreached, hash_calls_from_items. }
  destruct (forallb readable items) eqn:Hreadable.
  2:{ do 3 eexists. split; [reflexivity|]. split; [log_equation|].
      split.
      { rewrite <- (app_nil_r (hash_calls items)).
        eapply (try_verify sdk); eauto. constructor. by left. }
      split; [pending_excluded|].
      split; [intros ? ?; simplify_eq|].
      split; [intros ? ?; exact Hbefore|looked_up]. }
  simpl.
  destruct (length (hashed_pairs sdk 0 items) =? 0)%nat eqn:Hempty.
  { do 3 eexists. split; [reflexivity|]. split; [log_equation|].
    split.
    { rewrite <- (app_nil_r (hash_calls items)).
      eapply (try_verify sdk); eauto. constructor. right.
      apply Nat.eqb_eq in Hempty. by apply nil_length_inv. }
    split; [pending_excluded|].
    split; [|split; [intros ? ?; simplify_eq|looked_up]].
    intros b [= <-]. left. by split. }
  assert (hashed_pairs sdk 0 items ≠ []) as Hnonempty.
  { intros Hnil. by rewrite Hnil in Hempty. }
  set (new := hashed_pairs sdk 0 items) in *.
  unfold mbind at 1, M_bind, log. cbn [outside calls].
  unfold mbind at 1, M_bind.
  rewrite getBatchTxStatus_gathered.
  match goal with
  | |- context [dispatch sdk new ?w0] =>
      pose proof (dispatch_calls sdk new w0) as Hcalls;
      pose proof (dispatch_length sdk new w0) as Hlength;
      pose proof (requests_settle_every_lookup sdk new w0) as Hsettles;
      unfold every_lookup_settles, answers_of in Hsettles;
      destruct (dispatch sdk new w0) as [answers w'] eqn:Hdispatch
  end.
  cbn [fst snd calls] in *.
  assert (try_calls sdk
            ([Connect; Autofill tx; SubmitAndWait (Signed.tx_blob signed);
              SendRequest r (Fulfilled batchTxData)]
             ++ hash_calls items
             ++ GetBatchTxStatus new
                :: zip_with (λ tx q, SendRequest (tx_request tx) q) new answers))
    as Hshape.
  { eapply (try_verify sdk); eauto. by constructor. }
  assert (calls w' = calls w ++
            ([Connect; Autofill tx; SubmitAndWait (Signed.tx_blob signed);
              SendRequest r (Fulfilled batchTxData)] ++ hash_calls items)
            ++ GetBatchTxStatus new
               :: zip_with (λ tx q, SendRequest (tx_request tx) q) new answers)
    as Hlog.
  { rewrite Hcalls. rewrite <- !app_assoc. done. }
  destruct (gathered new answers) as [|[statuses|e]] eqn:Hgathered.
  - do 3 eexists. split; [reflexivity|]. split; [exact Hlog|].
    split; [by rewrite <- app_assoc|].
    split; [|split; [intros ? ?; simplify_eq|]].
    2:{ split; [intros ? ?; simplify_eq|looked_up]. }
    intros (_ & _ & _ & _ & Hrequests) _.
    destruct (gathered_settled new answers Hlength (Hsettles Hrequests))
      as (results & Hfulfilled & _).
    rewrite Hgathered in Hfulfilled. discriminate Hfulfilled.
  - do 3 eexists. split; [reflexivity|]. split; [exact Hlog|].
    split; [by rewrite <- app_assoc|]. split; [done|].
    split; [|split; [intros ? ?; simplify_eq|looked_up]].
    intros b [= <-]. right. by eexists _, new, answers, statuses.
  - by apply gathered_not_rejected in Hgathered.
Qed.

End ScriptFacts.

Section ScriptRuns.
Context {L : Type} (sdk : Sdk L).

(** The scripts unfolded: the client is constructed, the body runs, and
    unless the body is still suspended [disconnect] is called; the result is
    that of the body, [false] when the body threw, and whatever [disconnect]
    throws replaces it. *)
Lemma script_unfold (body : M L bool) env w :
  script sdk body env w =
    match body {| outside := outside w;
                  calls := calls w ++ [NewClient (ws (getNetworkUrl env))] |} with
    | (Pending, w1) => (Pending, w1)
    | (Settled c, w1) =>
        match client_disconnect sdk (outside w1) with
        | (Pending, l) =>
            (Pending, {| outside := l; calls := calls w1 ++ [Disconnect] |})
        | (Settled (Normal _), l) =>
            (Fulfilled (match c with Normal b => b | Throw _ => false end),
             {| outside := l; calls := calls w1 ++ [Disconnect] |})
        | (Settled (Throw e), l) =>
            (Rejected e, {| outside := l; calls := calls w1 ++ [Disconnect] |})
        end
    end.
Proof.
  unfold script, new_Client. rewrite valid_server_networks.
  unfold mbind at 1, M_bind, log, try_catch_finally, try_catch_async, disconnect.
  cbn [outside calls].
  destruct (body _) as [[|[b|e]] w1]; [done| |]; cbn [mret M_ret];
    by destruct (client_disconnect sdk (outside w1)) as [[|[[]|e']] l].
Qed.

Lemma script_ext (body1 body2 : M L bool) env w :
  (∀ w0, body1 w0 = body2 w0) → script sdk body1 env w = script sdk body2 env w.
Proof. intros Hbody. by rewrite !script_unfold, Hbody. Qed.

(** The run of a script whose body has been run. *)
Lemma script_run (body : M L bool) env w p1 w1 :
  body {| outside := outside w;
          calls := calls w ++ [NewClient (ws (getNetworkUrl env))] |} = (p1, w1) →
  ∃ p w' closing,
    script sdk body env w = (p, w')
    ∧ calls w' = calls w1 ++ closing
    ∧ (closing = [] ∨ closing = [Disconnect])
    ∧ (p ≠ Pending → closing = [Disconnect])
    ∧ (sdk_settles sdk → p1 ≠ Pending → p ≠ Pending)
    ∧ (∀ b, p = Fulfilled b →
         p1 = Fulfilled b ∨ (b = false ∧ ∃ e, p1 = Rejected e))
    ∧ (∀ e, p = Rejected e → ∃ l, (client_disconnect sdk l).1 = Rejected e).
Proof.
  intros Hbody. rewrite script_unfold, Hbody.
  destruct p1 as [|c].
  { exists Pending, w1, []. rewrite app_nil_r. repeat split; try done; auto. }
  destruct (client_disconnect sdk (outside w1)) as [[|[[]|e']] l] eqn:Hdisconnect.
  - do 3 eexists. split; [reflexivity|]. repeat split; try done; auto.
    intros (_ & Hdisconnects & _) _ _. apply (Hdisconnects (outside w1)).
    by rewrite Hdisconnect.
  - do 3 eexists. split; [reflexivity|]. repeat split; try done; auto.
    intros b [= <-]. destruct c as [b|e]; [by left|right; eauto].
  - do 3 eexists. split; [reflexivity|]. repeat split; try done; auto.
    intros e [= <-]. exists (outside w1). by rewrite Hdisconnect.
Qed.

(** The Batch scripts as a whole. *)
Lemma batch_script_run flags amounts verdict env latency w :
  ∃ p w' cs closing,
    script sdk (batch_script_try sdk flags amounts verdict env latency) env w
    = (p, w')
    ∧ calls w' = calls w ++ [NewClient (ws (getNetworkUrl env))] ++ cs ++ closing
    ∧ try_calls sdk cs
    ∧ (closing = [] ∨ closing = [Disconnect])
    ∧ (p ≠ Pending → closing = [Disconnect])
    ∧ (sdk_settles sdk → p ≠ Pending)
    ∧ (∀ b, p = Fulfilled b → batch_outcome verdict cs b)
    ∧ (∀ e, p = Rejected e → ∃ l, (client_disconnect sdk l).1 = Rejected e)
    ∧ (∀ tx tx_blob r q rest,
         cs = Connect :: Autofill tx :: SubmitAndWait tx_blob
              :: SendRequest r q :: rest →
         validated_submission sdk tx_blob r).
Proof.
  match goal with
  | |- context [script sdk ?body env w] =>
      destruct (batch_script_try_run sdk flags amounts verdict env latency
                  {| outside := outside w;
                     calls := calls w ++ [NewClient (ws (getNetworkUrl env))] |})
        as (p1 & w1 & cs & Hbody & Hcalls & Hshape & Hsettles & Houtcome & Hthrown
            & Hlooked_up);
      destruct (script_run body env w p1 w1 Hbody)
        as (p & w' & closing & Hrun & Hlog & Hclosing & Hclosed & Hends
            & Hresult & Hrejected)
  end.
  cbn [calls] in Hcalls.
  exists p, w', cs, closing. split; [exact Hrun|].
  split; [by rewrite Hlog, Hcalls, <- !app_assoc|].
  repeat split; auto.
  intros b Hb. destruct (Hresult b Hb) as [->|(-> & e & ->)].
  - by apply Houtcome.
  - left. split; [done|]. by eapply Hthrown.
Qed.

End ScriptRuns.

(** ** The three Batch scripts *)

Lemma none_failed_true statuses :
  none_failed statuses = true
  ↔ Forall (λ s, InnerTxStatus.successful s = true) statuses.
Proof.
  unfold none_failed. induction statuses as [|s statuses IH]; [done|].
  rewrite filter_cons, Forall_cons.
  destruct (InnerTxStatus.successful s) eqn:Hs.
  - rewrite decide_False by done. rewrite IH. by split; [|intros [_ ?]].
  - rewrite decide_True by done. simpl. split; [done|by intros [? _]].
Qed.

(** The statuses gathered are all successful exactly when every lookup was
    answered with ['tesSUCCESS']. *)
Lemma gathered_all_successful pairs answers statuses :
  length answers = length pairs →
  gathered pairs answers = Fulfilled statuses →
  Forall (λ s, InnerTxStatus.successful s = true) statuses
  ↔ Forall answered_success answers.
Proof.
  intros Hlen Hgathered.
  destruct (gathered_settled pairs answers Hlen
              (gathered_Fulfilled_settled _ _ _ Hlen Hgathered))
    as (results & Hresults & Hlength & Hentries).
  rewrite Hgathered in Hresults. injection Hresults as <-.
  assert (∀ tx answer,
            InnerTxStatus.successful (settled_status tx answer) = true
            ↔ answered_success (Settled answer)) as Hiff.
  { intros tx answer. unfold answered_success. destruct answer as [res|e]; simpl.
    - destruct (result_code _) as [code|] eqn:Hcode; simpl.
      + rewrite strict_eq_str_true. split.
        * intros ->. exists res. split; [done|]. by apply result_code_Some.
        * intros (res' & [= <-] & Hres%result_code_Some). congruence.
      + split; [done|].
        intros (res' & [= <-] & Hres%result_code_Some). congruence.
    - split; [done|]. by intros (res' & ? & _). }
  rewrite !Forall_lookup. split.
  - intros Hall i q Hq.
    destruct (lookup_lt_is_Some_2 pairs i) as [tx Htx].
    { rewrite <- Hlen. by eapply lookup_lt_Some. }
    destruct (Hentries i tx q Htx Hq) as (answer & -> & Hs).
    apply (Hiff tx). by eapply Hall.
  - intros Hall i s Hs.
    destruct (lookup_lt_is_Some_2 pairs i) as [tx Htx].
    { rewrite <- Hlength. by eapply lookup_lt_Some. }
    destruct (lookup_lt_is_Some_2 answers i) as [q Hq].
    { rewrite Hlen. by eapply lookup_lt_Some. }
    destruct (Hentries i tx q Htx Hq) as (answer & -> & Hs').
    rewrite Hs in Hs'. injection Hs' as ->.
    apply Hiff. by eapply Hall.
Qed.

Lemma lookups_unreached pairs answers :
  unreached (zip_with (λ tx q, SendRequest (tx_request tx) q) pairs answers).
Proof.
  intros pairs'. revert answers.
  induction pairs as [|tx pairs IH]; intros [|q answers]; simpl;
    try apply not_elem_of_nil.
  intros [?|?]%elem_of_cons; [discriminate|by eapply IH].
Qed.

(** The call of [getBatchTxStatus] is found at one place in the log. *)
Lemma status_lookups_unique before before' pairs pairs' rest rest' :
  unreached before' → unreached rest' →
  before ++ GetBatchTxStatus pairs :: rest
  = before' ++ GetBatchTxStatus pairs' :: rest' →
  before = before' ∧ pairs = pairs' ∧ rest = rest'.
Proof.
  intros Hbefore Hrest. revert before.
  induction before' as [|c' before' IH]; intros [|c before] Heq; simpl in Heq.
  - by injection Heq as -> ->.
  - injection Heq as -> Heq. exfalso. apply (Hrest pairs).
    rewrite <- Heq. apply elem_of_app. right. left.
  - injection Heq as <- Heq. exfalso. apply (Hbefore pairs). left.
  - injection Heq as -> Heq.
    destruct (IH (λ ps Hin, Hbefore ps (proj2 (elem_of_cons _ _ _) (or_intror Hin)))
                 before Heq) as (-> & -> & ->).
    done.
Qed.

Lemma lookups_inj pairs answers answers' :
  length answers = length pairs → length answers' = length pairs →
  zip_with (λ tx q, SendRequest (tx_request tx) q) pairs answers
  = zip_with (λ tx q, SendRequest (tx_request tx) q) pairs answers' →
  answers = answers'.
Proof.
  revert answers answers'.
  induction pairs as [|tx pairs IH]; intros [|q answers] [|q' answers'];
    simpl; try done.
  intros [= Hlen] [= Hlen'] [= -> Heq]. f_equal. by apply IH.
Qed.

Section BatchScriptFacts.
Context {L : Type} (sdk : Sdk L).

Lemma batchAllOrNothing_script env latency w :
  batchAllOrNothing sdk env latency w
  = script sdk (batch_script_try sdk 0x00010000 ["1"; "0.5"] none_failed
                  env latency) env w.
Proof.
  change (batchAllOrNothing sdk env latency w)
    with (script sdk (batchAllOrNothing_try sdk env latency) env w).
  apply script_ext. intros w0. apply batchAllOrNothing_try_shared.
Qed.

Lemma batchOnlyOne_script env latency w :
  batchOnlyOne sdk env latency w
  = script sdk (batch_script_try sdk 0x00020000 ["3"; "2"; "1"] (λ _, true)
                  env latency) env w.
Proof.
  change (batchOnlyOne sdk env latency w)
    with (script sdk (batchOnlyOne_try sdk env latency) env w).
  apply script_ext. intros w0. apply batchOnlyOne_try_shared.
Qed.

Lemma batchUntilFailure_script env latency w :
  batchUntilFailure sdk env latency w
  = script sdk (batch_script_try sdk 0x00040000 ["0.5"; "999999"; "0.5"]
                  (λ _, true) env latency) env w.
Proof.
  change (batchUntilFailure sdk env latency w)
    with (script sdk (batchUntilFailure_try sdk env latency) env w).
  apply script_ext. intros w0. apply batchUntilFailure_try_shared.
Qed.

(** What the three scripts have in common, read off the run of the shared
    body. *)
Lemma batch_script_calls flags amounts verdict env latency w :
  let run :=
    script sdk (batch_script_try sdk flags amounts verdict env latency) env w in
  (∃ cs closing,
     calls run.2
     = calls w ++ [NewClient (ws (getNetworkUrl env))] ++ cs ++ closing
     ∧ try_calls sdk cs
     ∧ (∀ tx tx_blob r q rest,
          cs = Connect :: Autofill tx :: SubmitAndWait tx_blob
               :: SendRequest r q :: rest →
          validated_submission sdk tx_blob r)
     ∧ (closing = [] ∨ closing = [Disconnect])
     ∧ (run.1 ≠ Pending → closing = [Disconnect]))
  ∧ (sdk_settles sdk → run.1 ≠ Pending).
Proof.
  intros run. subst run.
  destruct (batch_script_run sdk flags amounts verdict env latency w)
    as (p & w' & cs & closing & -> & Hcalls & Hshape & Hclosing & Hclosed
        & Hsettles & _ & _ & Hlooked_up).
  split; [|exact Hsettles]. by exists cs, closing.
Qed.

Lemma batch_script_verdict flags amounts verdict env latency w b :
  let run :=
    script sdk (batch_script_try sdk flags amounts verdict env latency) env w in
  run.1 = Fulfilled b →
  ∃ cs,
    calls run.2
    = calls w ++ [NewClient (ws (getNetworkUrl env))] ++ cs ++ [Disconnect]
    ∧ batch_outcome verdict cs b.
Proof.
  intros run. subst run.
  destruct (batch_script_run sdk flags amounts verdict env latency w)
    as (p & w' & cs & closing & -> & Hcalls & _ & _ & Hclosed & _ & Houtcome & _).
  simpl. intros ->. exists cs. split; [|by apply Houtcome].
  by rewrite Hcalls, Hclosed.
Qed.

(** X8. [batchOnlyOne] runs as [batchAllOrNothing] does: one client is
    constructed; the calls of the [try] block are those of a prefix of
    connect, autofill, submit, fetch back the transaction of the response
    to the submission once [validateTransactionResult] has accepted it,
    hash the truthy raw transactions of the array that request returned, in
    order, and call [getBatchTxStatus] on the pairs of the elements that
    have a hash, which sends one lookup per pair; [disconnect] is the last
    call whenever the function terminates, and it terminates when every
    promise of the SDK settles. *)
Theorem batchOnlyOne_calls env latency w :
  let run := batchOnlyOne sdk env latency w in
  (∃ cs closing,
     calls run.2
     = calls w ++ [NewClient (ws (getNetworkUrl env))] ++ cs ++ closing
     ∧ try_calls sdk cs
     ∧ (∀ tx tx_blob r q rest,
          cs = Connect :: Autofill tx :: SubmitAndWait tx_blob
               :: SendRequest r q :: rest →
          validated_submission sdk tx_blob r)
     ∧ (closing = [] ∨ closing = [Disconnect])
     ∧ (run.1 ≠ Pending → closing = [Disconnect]))
  ∧ (sdk_settles sdk → run.1 ≠ Pending).
Proof. cbv zeta. rewrite batchOnlyOne_script. apply batch_script_calls. Qed.

(** X9. [batchUntilFailure] runs in the same way: one client; in the
    [try] block a prefix of connect, autofill, submit, fetch back the
    transaction of the response to the submission once
    [validateTransactionResult] has accepted it, hash the truthy raw
    transactions of the array that request returned, in order, and call
    [getBatchTxStatus] on the pairs of the elements that have a hash, which
    sends one lookup per pair; [disconnect] last whenever the function
    terminates, which it does when every promise of the SDK settles. *)
Theorem batchUntilFailure_calls env latency w :
  let run := batchUntilFailure sdk env latency w in
  (∃ cs closing,
     calls run.2
     = calls w ++ [NewClient (ws (getNetworkUrl env))] ++ cs ++ closing
     ∧ try_calls sdk cs
     ∧ (∀ tx tx_blob r q rest,
          cs = Connect :: Autofill tx :: SubmitAndWait tx_blob
               :: SendRequest r q :: rest →
          validated_submission sdk tx_blob r)
     ∧ (closing = [] ∨ closing = [Disconnect])
     ∧ (run.1 ≠ Pending → closing = [Disconnect]))
  ∧ (sdk_settles sdk → run.1 ≠ Pending).
Proof. cbv zeta. rewrite batchUntilFailure_script. apply batch_script_calls. Qed.

(** X10. [batchAllOrNothing] returns [true] exactly when it has called
    [getBatchTxStatus] and every lookup of that call was answered by a
    response whose metadata report ['tesSUCCESS']; in every other case in
    which it returns (an error caught, no array of raw transactions, no
    hash computed, a lookup failed or reported another code) it returns
    [false]. *)
Theorem batchAllOrNothing_verdict env latency w b :
  let run := batchAllOrNothing sdk env latency w in
  run.1 = Fulfilled b →
  ∃ cs,
    calls run.2
    = calls w ++ [NewClient (ws (getNetworkUrl env))] ++ cs ++ [Disconnect]
    ∧ (b = true
       ↔ ∃ before pairs answers,
           cs = before ++ GetBatchTxStatus pairs
                  :: zip_with (λ tx q, SendRequest (tx_request tx) q) pairs answers
           ∧ length answers = length pairs
           ∧ Forall answered_success answers).
Proof.
  cbv zeta. rewrite batchAllOrNothing_script. intros Hrun.
  destruct (batch_script_verdict _ _ _ _ _ _ _ Hrun) as (cs & Hcalls & Houtcome).
  exists cs. split; [exact Hcalls|].
  destruct Houtcome
    as [[-> Hunreached]
       |(before & pairs & answers & statuses & -> & Hbefore & _ & Hlen
         & Hgathered & ->)].
  - split; [done|]. intros (before & pairs & answers & -> & _).
    exfalso. apply (Hunreached pairs). apply elem_of_app. right. left.
  - rewrite none_failed_true, (gathered_all_successful _ _ _ Hlen Hgathered).
    split; [by eauto 10|].
    intros (before' & pairs' & answers' & Heq & Hlen' & Hall).
    symmetry in Heq.
    apply status_lookups_unique in Heq as (_ & -> & Heq);
      [|exact Hbefore|apply lookups_unreached].
    by rewrite (lookups_inj _ _ _ Hlen Hlen' (eq_sym Heq)).
Qed.



Lemma batch_script_lookup flags amounts verdict env latency w tx tx_blob r q rest :
  calls (script sdk (batch_script_try sdk flags amounts verdict env latency)
           env w).2
  = calls w ++ NewClient (ws (getNetworkUrl env)) :: Connect :: Autofill tx
      :: SubmitAndWait tx_blob :: SendRequest r q :: rest →
  validated_submission sdk tx_blob r.
Proof.
  destruct (batch_script_run sdk flags amounts verdict env latency w)
    as (p & w' & cs & closing & -> & Hcalls & Hshape & Hclosing & _ & _ & _ & _
        & Hlooked_up).
  simpl. rewrite Hcalls. intros Heq%app_inv_head. simpl in Heq.
  injection Heq as Heq.
  destruct Hshape as [| | | | |tx0 tx_blob0 r0 res items rest0];
    try (destruct Hclosing as [-> | ->]; discriminate Heq).
  - destruct Hclosing as [-> | ->]; simpl in Heq; simplify_eq;
      eapply Hlooked_up; reflexivity.
  - simpl in Heq. simplify_eq. eapply Hlooked_up. reflexivity.
Qed.

(** X13. In the three Batch scripts a request is sent to the ledger only
    after the submission of the batch was answered by a response that
    [validateTransactionResult] accepts, and the first request asks for the
    transaction whose hash that response carries. *)
Theorem batch_scripts_lookup_validated env latency w tx tx_blob r q rest :
  calls (batchAllOrNothing sdk env latency w).2
    = calls w ++ NewClient (ws (getNetworkUrl env)) :: Connect :: Autofill tx
        :: SubmitAndWait tx_blob :: SendRequest r q :: rest
  ∨ calls (batchOnlyOne sdk env latency w).2
    = calls w ++ NewClient (ws (getNetworkUrl env)) :: Connect :: Autofill tx
        :: SubmitAndWait tx_blob :: SendRequest r q :: rest
  ∨ calls (batchUntilFailure sdk env latency w).2
    = calls w ++ NewClient (ws (getNetworkUrl env)) :: Connect :: Autofill tx
        :: SubmitAndWait tx_blob :: SendRequest r q :: rest →
  validated_submission sdk tx_blob r.
Proof.
  rewrite batchAllOrNothing_script, batchOnlyOne_script, batchUntilFailure_script.
  intros [H|[H|H]]; by eapply batch_script_lookup.
Qed.

End BatchScriptFacts.

(** ** The scripts that submit one transaction *)

Section SingleScriptFacts.
Context {L : Type} (sdk : Sdk L).

Ltac single_exit :=
  do 3 eexists; split; [reflexivity|];
  split; [log_equation|];
  split; [by econstructor|];
  split; [pending_excluded|];
  intros ? ?; first [discriminate | by simplify_eq; eauto 10].

(** The run of the end of the body, after [connect]. *)
Lemma submit_validated_run signer tx w :
  ∃ p w' cs,
    submit_validated sdk signer tx w = (p, w')
    ∧ calls w' = calls w ++ cs
    ∧ single_calls (Connect :: cs)
    ∧ (sdk_settles sdk → p ≠ Pending)
    ∧ (∀ b, p = Fulfilled b →
         b = true
         ∧ ∃ tx_blob, cs = [Autofill tx; SubmitAndWait tx_blob]
                      ∧ accepted_submission sdk tx_blob).
Proof.
  unfold submit_validated, accepted_submission.
  unfold mbind at 1. unfold M_bind at 1. unfold autofill.
  destruct (client_autofill sdk (outside w) tx) as [[|[prepared|e]] l1] eqn:Hautofill;
    [single_exit| |single_exit].
  rewrite sync_bind.
  destruct (Wallet_sign sdk signer prepared) as [signed|e]; [|single_exit].
  unfold mbind at 1. unfold M_bind at 1. unfold submitAndWait. cbn [outside calls].
  destruct (client_submitAndWait sdk l1 _) as [[|[result|e]] l2] eqn:Hsubmit;
    [single_exit| |single_exit].
  rewrite sync_bind.
  destruct (validateTransactionResult result) as [[]|e] eqn:Hvalid; [|single_exit].
  single_exit.
Qed.

(** The run of the body of [sendIOU]. *)
Lemma sendIOU_try_run env w :
  ∃ p w' cs,
    sendIOU_try sdk env w = (p, w')
    ∧ calls w' = calls w ++ cs
    ∧ single_calls cs
    ∧ (sdk_settles sdk → p ≠ Pending)
    ∧ (∀ b, p = Fulfilled b →
         b = true
         ∧ ∃ tx tx_blob, cs = [Connect; Autofill tx; SubmitAndWait tx_blob]
                         ∧ accepted_submission sdk tx_blob).
Proof.
  unfold sendIOU_try. rewrite sync_bind.
  destruct (Wallet_fromSeed sdk (ISUEER_SEED env)) as [issuer|e]; [|single_exit].
  rewrite sync_bind.
  destruct (Wallet_fromSeed sdk (USER_SEED env)) as [user|e]; [|single_exit].
  unfold mbind at 1. unfold M_bind at 1. unfold connect.
  destruct (client_connect sdk (outside w)) as [[|[[]|e]] l1] eqn:Hconnect;
    [single_exit| |single_exit].
  match goal with
  | |- context [(autofill sdk ?tx ≫= ?k) ?w0] =>
      change ((autofill sdk tx ≫= k) w0) with (submit_validated sdk issuer tx w0);
      destruct (submit_validated_run issuer tx w0)
        as (p & w' & cs & -> & Hcalls & Hshape & Hsettles & Hresult)
  end.
  cbn [calls] in Hcalls.
  exists p, w', (Connect :: cs).
  split; [reflexivity|].
  split; [by rewrite Hcalls, <- app_assoc|].
  split; [exact Hshape|].
  split; [intros Hsdk; by apply Hsettles|].
  intros b Hb. destruct (Hresult b Hb) as (-> & tx_blob & -> & Haccepted).
  eauto 10.
Qed.

(** The run of the body of [sendIOUOutsider]. *)
Lemma sendIOUOutsider_try_run env w :
  ∃ p w' cs,
    sendIOUOutsider_try sdk env w = (p, w')
    ∧ calls w' = calls w ++ cs
    ∧ single_calls cs
    ∧ (sdk_settles sdk → p ≠ Pending)
    ∧ (∀ b, p = Fulfilled b →
         if b then
           (∃ seed, Config.OUTSIDER_SEED env = Some seed ∧ seed ≠ "")
           ∧ ∃ tx tx_blob, cs = [Connect; Autofill tx; SubmitAndWait tx_blob]
                           ∧ accepted_submission sdk tx_blob
         else
           cs = []
           ∧ (Config.OUTSIDER_SEED env = None
              ∨ Config.OUTSIDER_SEED env = Some ""))
    ∧ (Config.OUTSIDER_SEED env = None ∨ Config.OUTSIDER_SEED env = Some "" →
       p = Fulfilled false ∧ cs = []).
Proof.
  unfold sendIOUOutsider_try.
  destruct (Config.OUTSIDER_SEED env) as [seed|] eqn:Hseed.
  2:{ exists (Fulfilled false), w, []. rewrite app_nil_r.
      repeat split; try done; try constructor.
      intros b [= <-]. auto. }
  simpl. destruct (String.eqb_spec seed "") as [->|Hnonempty]; simpl.
  { exists (Fulfilled false), w, []. rewrite app_nil_r.
    repeat split; try done; try constructor.
    intros b [= <-]. auto. }
  assert (∀ (p : Promise bool) (cs : list Call),
            (None = Some seed ∨ Some seed = Some "") → p = Fulfilled false ∧ cs = [])
    as Hguard.
  { intros p cs [?|[= ?]]; [discriminate|done]. }
  rewrite sync_bind.
  destruct (Wallet_fromSeed sdk (Config.ISUEER_SEED env)) as [issuer|e].
  2:{ do 3 eexists. split; [reflexivity|]. split; [log_equation|].
      split; [constructor|]. split; [done|]. split; [done|].
      intros [?|[= ?]]; [discriminate|done]. }
  rewrite sync_bind.
  destruct (Wallet_fromSeed sdk seed) as [outsider|e].
  2:{ do 3 eexists. split; [reflexivity|]. split; [log_equation|].
      split; [constructor|]. split; [done|]. split; [done|].
      intros [?|[= ?]]; [discriminate|done]. }
  unfold mbind at 1. unfold M_bind at 1. unfold connect.
  destruct (client_connect sdk (outside w)) as [[|[[]|e]] l1] eqn:Hconnect.
  1,3: do 3 eexists; (split; [reflexivity|]); (split; [log_equation|]);
       (split; [constructor|]); (split; [pending_excluded|]);
       (split; [done|]); intros [?|[= ?]]; [discriminate|done].
  match goal with
  | |- context [(autofill sdk ?tx ≫= ?k) ?w0] =>
      change ((autofill sdk tx ≫= k) w0) with (submit_validated sdk issuer tx w0);
      destruct (submit_validated_run issuer tx w0)
        as (p & w' & cs & -> & Hcalls & Hshape & Hsettles & Hresult)
  end.
  cbn [calls] in Hcalls.
  exists p, w', (Connect :: cs).
  split; [reflexivity|].
  split; [by rewrite Hcalls, <- app_assoc|].
  split; [exact Hshape|].
  split; [intros Hsdk; by apply Hsettles|].
  split; [|intros [?|[= ?]]; [discriminate|done]].
  intros b Hb. destruct (Hresult b Hb) as (-> & tx_blob & -> & Haccepted).
  eauto 10.
Qed.

(** The run of the body of [mptokenAuthorizeByUser]. *)
Lemma mptokenAuthorizeByUser_try_run env w :
  ∃ p w' cs,
    mptokenAuthorizeByUser_try sdk env w = (p, w')
    ∧ calls w' = calls w ++ cs
    ∧ single_calls cs
    ∧ (sdk_settles sdk → p ≠ Pending)
    ∧ (∀ b, p = Fulfilled b →
         if b then
           (∃ id, Config.MPT_ISSUANCE_ID env = Some id ∧ id ≠ "")
           ∧ ∃ tx tx_blob, cs = [Connect; Autofill tx; SubmitAndWait tx_blob]
                           ∧ accepted_submission sdk tx_blob
         else
           cs = [Connect]
           ∧ (Config.MPT_ISSUANCE_ID env = None
              ∨ Config.MPT_ISSUANCE_ID env = Some ""))
    ∧ (Config.MPT_ISSUANCE_ID env = None ∨ Config.MPT_ISSUANCE_ID env = Some "" →
       p ≠ Fulfilled true ∧ (cs = [] ∨ cs = [Connect])).
Proof.
  unfold mptokenAuthorizeByUser_try. rewrite sync_bind.
  destruct (Wallet_fromSeed sdk (Config.USER_SEED env)) as [user|e].
  2:{ do 3 eexists. split; [reflexivity|]. split; [log_equation|].
      split; [constructor|]. split; [done|]. split; [done|]. auto. }
  unfold mbind at 1. unfold M_bind at 1. unfold connect.
  destruct (client_connect sdk (outside w)) as [[|[[]|e]] l1] eqn:Hconnect.
  1,3: do 3 eexists; (split; [reflexivity|]); (split; [log_equation|]);
       (split; [constructor|]); (split; [pending_excluded|]);
       (split; [done|]); auto.
  assert (or_empty (Config.MPT_ISSUANCE_ID env) = ""
          ∧ (Config.MPT_ISSUANCE_ID env = None
             ∨ Config.MPT_ISSUANCE_ID env = Some "")
          ∨ or_empty (Config.MPT_ISSUANCE_ID env) ≠ ""
            ∧ Config.MPT_ISSUANCE_ID env
              = Some (or_empty (Config.MPT_ISSUANCE_ID env))) as [[Hid Hunset]|[Hid Hset]].
  { destruct (Config.MPT_ISSUANCE_ID env) as [id|]; simpl; [|by auto].
    destruct (String.eqb_spec id "") as [->|Hid]; simpl; auto. }
  - rewrite Hid. simpl.
    do 3 eexists. split; [reflexivity|]. split; [log_equation|].
    split; [constructor|]. split; [done|].
    split; [by intros b [= <-]|]. auto.
  - simpl. destruct (String.eqb_spec (or_empty (Config.MPT_ISSUANCE_ID env)) "")
      as [?|_]; [done|]. simpl.
    match goal with
    | |- context [(autofill sdk ?tx ≫= ?k) ?w0] =>
        change ((autofill sdk tx ≫= k) w0) with (submit_validated sdk user tx w0);
        destruct (submit_validated_run user tx w0)
          as (p & w' & cs & -> & Hcalls & Hshape & Hsettles & Hresult)
    end.
    cbn [calls] in Hcalls.
    exists p, w', (Connect :: cs).
    split; [reflexivity|].
    split; [by rewrite Hcalls, <- app_assoc|].
    split; [exact Hshape|].
    split; [intros Hsdk; by apply Hsettles|].
    split.
    + intros b Hb. destruct (Hresult b Hb) as (-> & tx_blob & -> & Haccepted).
      eauto 10.
    + intros [Hnone|Hempty]; [congruence|].
      rewrite Hempty in Hid. by simpl in Hid.
Qed.

End SingleScriptFacts.

Section SingleScripts.
Context {L : Type} (sdk : Sdk L).

(** A script whose body makes the calls of [single_calls]. *)
Lemma single_script_run (body : M L bool) env w p1 w1 cs :
  body {| outside := outside w;
          calls := calls w ++ [NewClient (ws (getNetworkUrl env))] |} = (p1, w1) →
  calls w1 = (calls w ++ [NewClient (ws (getNetworkUrl env))]) ++ cs →
  (sdk_settles sdk → p1 ≠ Pending) →
  let run := script sdk body env w in
  (∃ closing,
     calls run.2
     = calls w ++ [NewClient (ws (getNetworkUrl env))] ++ cs ++ closing
     ∧ (closing = [] ∨ closing = [Disconnect])
     ∧ (run.1 ≠ Pending → closing = [Disconnect])
     ∧ (run.1 = Fulfilled true → p1 = Fulfilled true)
     ∧ (run.1 = Fulfilled false → p1 = Fulfilled false ∨ ∃ e, p1 = Rejected e))
  ∧ (sdk_settles sdk → run.1 ≠ Pending).
Proof.
  intros Hbody Hcalls Hsettles run. subst run.
  destruct (script_run sdk body env w p1 w1 Hbody)
    as (p & w' & closing & -> & Hlog & Hclosing & Hclosed & Hends & Hresult & _).
  simpl. split; [|by auto].
  exists closing. split; [by rewrite Hlog, Hcalls, <- !app_assoc|].
  repeat split; auto.
  - intros ->. by destruct (Hresult true eq_refl) as [?|[? _]].
  - intros ->. destruct (Hresult false eq_refl) as [?|[_ ?]]; auto.
Qed.

(** X14. [sendIOU] constructs one client, makes the calls of a prefix of
    connect, autofill, submit, and calls [disconnect] last whenever it
    terminates, which it does when every promise of the SDK settles.  It
    returns [true] only when the three calls were made and the submission
    was answered by a response that [validateTransactionResult] accepts. *)
Theorem sendIOU_outcome env w :
  let run := sendIOU sdk env w in
  (∃ cs closing,
     calls run.2
     = calls w ++ [NewClient (ws (getNetworkUrl env))] ++ cs ++ closing
     ∧ single_calls cs
     ∧ (closing = [] ∨ closing = [Disconnect])
     ∧ (run.1 ≠ Pending → closing = [Disconnect])
     ∧ (run.1 = Fulfilled true →
        ∃ tx tx_blob, cs = [Connect; Autofill tx; SubmitAndWait tx_blob]
                      ∧ accepted_submission sdk tx_blob))
  ∧ (sdk_settles sdk → run.1 ≠ Pending).
Proof.
  destruct (sendIOU_try_run sdk env
              {| outside := outside w;
                 calls := calls w ++ [NewClient (ws (getNetworkUrl env))] |})
    as (p1 & w1 & cs & Hbody & Hcalls & Hshape & Hsettles & Hresult).
  destruct (single_script_run _ env w p1 w1 cs Hbody Hcalls Hsettles)
    as [(closing & Hlog & Hclosing & Hclosed & Htrue & _) Hends].
  split; [|exact Hends].
  exists cs, closing. repeat split; auto.
  intros Hrun. by destruct (Hresult true (Htrue Hrun)) as [_ ?].
Qed.

(** X15. [sendIOUOutsider] constructs one client, makes the calls of a
    prefix of connect, autofill, submit, and calls [disconnect] last
    whenever it terminates, which it does when every promise of the SDK
    settles.  It returns [true] only when [OUTSIDER_SEED] is set to a string
    that is not empty, the three calls were made and the submission was
    answered by a response that [validateTransactionResult] accepts. *)
Theorem sendIOUOutsider_outcome env w :
  let run := sendIOUOutsider sdk env w in
  (∃ cs closing,
     calls run.2
     = calls w ++ [NewClient (ws (getNetworkUrl (Config.env env)))] ++ cs ++ closing
     ∧ single_calls cs
     ∧ (closing = [] ∨ closing = [Disconnect])
     ∧ (run.1 ≠ Pending → closing = [Disconnect])
     ∧ (run.1 = Fulfilled true →
        (∃ seed, Config.OUTSIDER_SEED env = Some seed ∧ seed ≠ "")
        ∧ ∃ tx tx_blob, cs = [Connect; Autofill tx; SubmitAndWait tx_blob]
                        ∧ accepted_submission sdk tx_blob))
  ∧ (sdk_settles sdk → run.1 ≠ Pending).
Proof.
  destruct (sendIOUOutsider_try_run sdk env
              {| outside := outside w;
                 calls := calls w
                          ++ [NewClient (ws (getNetworkUrl (Config.env env)))] |})
    as (p1 & w1 & cs & Hbody & Hcalls & Hshape & Hsettles & Hresult & _).
  destruct (single_script_run _ (Config.env env) w p1 w1 cs Hbody Hcalls Hsettles)
    as [(closing & Hlog & Hclosing & Hclosed & Htrue & _) Hends].
  split; [|exact Hends].
  exists cs, closing. split; [exact Hlog|]. split; [exact Hshape|].
  split; [exact Hclosing|]. split; [exact Hclosed|].
  intros Hrun. exact (Hresult true (Htrue Hrun)).
Qed.

Lemma sendIOUOutsider_guard env w :
  Config.OUTSIDER_SEED env = None ∨ Config.OUTSIDER_SEED env = Some "" →
  let run := sendIOUOutsider sdk env w in
  calls run.2
  = calls w ++ [NewClient (ws (getNetworkUrl (Config.env env))); Disconnect]
  ∧ ∀ b, run.1 = Fulfilled b → b = false.
Proof.
  intros Hunset.
  destruct (sendIOUOutsider_try_run sdk env
              {| outside := outside w;
                 calls := calls w
                          ++ [NewClient (ws (getNetworkUrl (Config.env env)))] |})
    as (p1 & w1 & cs & Hbody & Hcalls & _ & Hsettles & _ & Hguard).
  destruct (Hguard Hunset) as [-> ->].
  cbv zeta.
  change (sendIOUOutsider sdk env w)
    with (script sdk (sendIOUOutsider_try sdk env) (Config.env env) w).
  rewrite script_unfold, Hbody.
  destruct (client_disconnect sdk (outside w1)) as [[|[[]|e]] l]; simpl;
    (split; [rewrite Hcalls; simpl; by rewrite app_nil_r, <- app_assoc|]);
    intros b Hb; try discriminate.
  by injection Hb.
Qed.

(** X16. Without [OUTSIDER_SEED], or with the empty string for it,
    [sendIOUOutsider] makes no wallet and never connects: it constructs the
    client and disconnects it, and what it returns is [false]. *)
Theorem sendIOUOutsider_without_seed env w :
  Config.OUTSIDER_SEED env = None ∨ Config.OUTSIDER_SEED env = Some "" →
  let run := sendIOUOutsider sdk env w in
  calls run.2
  = calls w ++ [NewClient (ws (getNetworkUrl (Config.env env))); Disconnect]
  ∧ ∀ b, run.1 = Fulfilled b → b = false.
Proof. apply sendIOUOutsider_guard. Qed.

(** X17. [mptokenAuthorizeByUser] constructs one client, makes the calls
    of a prefix of connect, autofill, submit, and calls [disconnect] last
    whenever it terminates, which it does when every promise of the SDK
    settles.  It returns [true] only when [MPT_ISSUANCE_ID] is set to a
    string that is not empty, the three calls were made and the submission
    was answered by a response that [validateTransactionResult] accepts. *)
Theorem mptokenAuthorizeByUser_outcome env w :
  let run := mptokenAuthorizeByUser sdk env w in
  (∃ cs closing,
     calls run.2
     = calls w ++ [NewClient (ws (getNetworkUrl (Config.env env)))] ++ cs ++ closing
     ∧ single_calls cs
     ∧ (closing = [] ∨ closing = [Disconnect])
     ∧ (run.1 ≠ Pending → closing = [Disconnect])
     ∧ (run.1 = Fulfilled true →
        (∃ id, Config.MPT_ISSUANCE_ID env = Some id ∧ id ≠ "")
        ∧ ∃ tx tx_blob, cs = [Connect; Autofill tx; SubmitAndWait tx_blob]
                        ∧ accepted_submission sdk tx_blob))
  ∧ (sdk_settles sdk → run.1 ≠ Pending).
Proof.
  destruct (mptokenAuthorizeByUser_try_run sdk env
              {| outside := outside w;
                 calls := calls w
                          ++ [NewClient (ws (getNetworkUrl (Config.env env)))] |})
    as (p1 & w1 & cs & Hbody & Hcalls & Hshape & Hsettles & Hresult & _).
  destruct (single_script_run _ (Config.env env) w p1 w1 cs Hbody Hcalls Hsettles)
    as [(closing & Hlog & Hclosing & Hclosed & Htrue & _) Hends].
  split; [|exact Hends].
  exists cs, closing. split; [exact Hlog|]. split; [exact Hshape|].
  split; [exact Hclosing|]. split; [exact Hclosed|].
  intros Hrun. exact (Hresult true (Htrue Hrun)).
Qed.

Lemma mptokenAuthorizeByUser_guard env w :
  Config.MPT_ISSUANCE_ID env = None ∨ Config.MPT_ISSUANCE_ID env = Some "" →
  let run := mptokenAuthorizeByUser sdk env w in
  (∃ cs closing,
     calls run.2
     = calls w ++ [NewClient (ws (getNetworkUrl (Config.env env)))] ++ cs ++ closing
     ∧ (cs = [] ∨ cs = [Connect])
     ∧ (closing = [] ∨ closing = [Disconnect]))
  ∧ run.1 ≠ Fulfilled true.
Proof.
  intros Hunset.
  destruct (mptokenAuthorizeByUser_try_run sdk env
              {| outside := outside w;
                 calls := calls w
                          ++ [NewClient (ws (getNetworkUrl (Config.env env)))] |})
    as (p1 & w1 & cs & Hbody & Hcalls & _ & Hsettles & _ & Hguard).
  destruct (Hguard Hunset) as [Hp1 Hcs].
  destruct (single_script_run _ (Config.env env) w _ w1 cs Hbody Hcalls Hsettles)
    as [(closing & Hlog & Hclosing & _ & Htrue & _) _].
  cbv zeta. split; [by exists cs, closing|].
  intros Hrun. by apply Htrue in Hrun.
Qed.

(** X18. Without [MPT_ISSUANCE_ID], or with the empty string for it,
    [mptokenAuthorizeByUser] connects (the check comes after [connect]) but
    prepares and submits nothing, and it does not return [true]. *)
Theorem mptokenAuthorizeByUser_without_id env w :
  Config.MPT_ISSUANCE_ID env = None ∨ Config.MPT_ISSUANCE_ID env = Some "" →
  let run := mptokenAuthorizeByUser sdk env w in
  (∃ cs closing,
     calls run.2
     = calls w ++ [NewClient (ws (getNetworkUrl (Config.env env)))] ++ cs ++ closing
     ∧ (cs = [] ∨ cs = [Connect])
     ∧ (closing = [] ∨ closing = [Disconnect]))
  ∧ run.1 ≠ Fulfilled true.
Proof. apply mptokenAuthorizeByUser_guard. Qed.

(** X19. The scripts catch what their bodies throw: when the promise of a
    script is rejected, the error is one [disconnect] threw in the
    [finally] block. *)
Theorem scripts_reject_only_on_disconnect env config latency w e :
  (batchAllOrNothing sdk env latency w).1 = Rejected e
  ∨ (batchOnlyOne sdk env latency w).1 = Rejected e
  ∨ (batchUntilFailure sdk env latency w).1 = Rejected e
  ∨ (sendIOU sdk env w).1 = Rejected e
  ∨ (sendIOUOutsider sdk config w).1 = Rejected e
  ∨ (mptokenAuthorizeByUser sdk config w).1 = Rejected e →
  ∃ l, (client_disconnect sdk l).1 = Rejected e.
Proof.
  assert (∀ (body : M L bool) env0,
            (script sdk body env0 w).1 = Rejected e →
            ∃ l, (client_disconnect sdk l).1 = Rejected e) as Hscript.
  { intros body env0 Hrun.
    destruct (body {| outside := outside w;
                      calls := calls w ++ [NewClient (ws (getNetworkUrl env0))] |})
      as [p1 w1] eqn:Hbody.
    destruct (script_run sdk body env0 w p1 w1 Hbody)
      as (p & w' & closing & Hrun' & _ & _ & _ & _ & _ & Hrejected).
    rewrite Hrun' in Hrun. by apply Hrejected. }
  intros [H|[H|[H|[H|[H|H]]]]]; eapply Hscript; exact H.
Qed.

End SingleScripts.

(** ** The configuration *)

Lemma parse_enum_Some v e :
  Config.parse_enum v = Some e ↔ v = Some (env_name e).
Proof.
  destruct v as [s|]; simpl; [|by destruct e].
  destruct (String.eqb_spec s "devnet") as [->|Hd].
  { split; [by intros [= <-]|]. by destruct e. }
  destruct (String.eqb_spec s "testnet") as [->|Ht].
  { split; [by intros [= <-]|]. by destruct e. }
  destruct (String.eqb_spec s "mainnet") as [->|Hm].
  { split; [by intros [= <-]|]. by destruct e. }
  split; [done|]. intros [= ->]. by destruct e.
Qed.

Lemma parse_required_Some v s :
  Config.parse_required v = Some s ↔ v = Some s ∧ s ≠ "".
Proof.
  destruct v as [s'|]; simpl; [|by split; [|intros [? _]]].
  destruct s' as [|a s']; simpl.
  - split; [done|]. by intros [[= <-] ?].
  - split; [by intros [= <-]|by intros [[= <-] _]].
Qed.

Lemma parse_required_None v :
  Config.parse_required v = None ↔ ¬ set_nonempty v.
Proof.
  destruct (Config.parse_required v) as [s|] eqn:Hv.
  - apply parse_required_Some in Hv. split; [done|].
    intros Hno. destruct Hno. by exists s.
  - split; [|done]. intros _ (s & Hs). apply parse_required_Some in Hs. congruence.
Qed.

Lemma parse_optional_set_or_absent v :
  set_or_absent v (Config.parse_optional v).
Proof.
  destruct v as [s|]; simpl; [|by left].
  destruct (String.eqb_spec s "") as [->|Hs]; simpl; auto.
Qed.

(** X20. [envSchema.parse] succeeds exactly when [NODE_ENV] names one of
    the three networks and [IOU_CURRENCY], [ISUEER_SEED] and [USER_SEED] are
    set to strings that are not empty; the three optional variables never
    make it fail. *)
Theorem Config_parse_succeeds_iff process_env :
  (∃ c, Config.parse process_env = Config.Parsed c)
  ↔ (∃ e, process_env "NODE_ENV" = Some (env_name e))
    ∧ set_nonempty (process_env "IOU_CURRENCY")
    ∧ set_nonempty (process_env "ISUEER_SEED")
    ∧ set_nonempty (process_env "USER_SEED").
Proof.
  unfold Config.parse. cbv zeta.
  destruct (Config.parse_enum _) as [e|] eqn:He.
  2:{ split; [by intros [c ?]|]. intros [[e He'%parse_enum_Some] _]. congruence. }
  apply parse_enum_Some in He.
  destruct (Config.parse_required (process_env "IOU_CURRENCY")) as [currency|] eqn:Hc.
  2:{ apply parse_required_None in Hc. split; [by intros [c ?]|].
      by intros (_ & ? & _). }
  destruct (Config.parse_required (process_env "ISUEER_SEED")) as [isueer|] eqn:Hi.
  2:{ apply parse_required_None in Hi. split; [by intros [c ?]|].
      by intros (_ & _ & ? & _). }
  destruct (Config.parse_required (process_env "USER_SEED")) as [user|] eqn:Hu.
  2:{ apply parse_required_None in Hu. split; [by intros [c ?]|].
      by intros (_ & _ & _ & ?). }
  apply parse_required_Some in Hc, Hi, Hu.
  split; [|by eauto]. intros _. unfold set_nonempty. eauto 10.
Qed.

Lemma Config_parse_Parsed process_env c :
  Config.parse process_env = Config.Parsed c →
  process_env "NODE_ENV" = Some (env_name (Config.NODE_ENV c))
  ∧ (process_env "IOU_CURRENCY" = Some (Config.IOU_CURRENCY c)
     ∧ Config.IOU_CURRENCY c ≠ "")
  ∧ (process_env "ISUEER_SEED" = Some (Config.ISUEER_SEED c)
     ∧ Config.ISUEER_SEED c ≠ "")
  ∧ (process_env "USER_SEED" = Some (Config.USER_SEED c)
     ∧ Config.USER_SEED c ≠ "")
  ∧ set_or_absent (process_env "MPT_ISSUANCE_ID") (Config.MPT_ISSUANCE_ID c)
  ∧ set_or_absent (process_env "DOMAIN_ID") (Config.DOMAIN_ID c)
  ∧ set_or_absent (process_env "OUTSIDER_SEED") (Config.OUTSIDER_SEED c).
Proof.
  unfold Config.parse. cbv zeta.
  destruct (Config.parse_enum _) as [e|] eqn:He; [|done].
  destruct (Config.parse_required (process_env "IOU_CURRENCY")) as [currency|] eqn:Hc;
    [|done].
  destruct (Config.parse_required (process_env "ISUEER_SEED")) as [isueer|] eqn:Hi;
    [|done].
  destruct (Config.parse_required (process_env "USER_SEED")) as [user|] eqn:Hu;
    [|done].
  intros [= <-]. simpl.
  apply parse_enum_Some in He. apply parse_required_Some in Hc, Hi, Hu.
  repeat split; try tauto; apply parse_optional_set_or_absent.
Qed.

(** X21. What the parsed configuration holds: the network named by
    [NODE_ENV]; for the three required fields the value of the variable,
    which is not empty; for an optional field the value of the variable when
    it is set and not empty, nothing otherwise, so that an optional field
    is never the empty string. *)
Theorem Config_parse_fields process_env c :
  Config.parse process_env = Config.Parsed c →
  process_env "NODE_ENV" = Some (env_name (Config.NODE_ENV c))
  ∧ (process_env "IOU_CURRENCY" = Some (Config.IOU_CURRENCY c)
     ∧ Config.IOU_CURRENCY c ≠ "")
  ∧ (process_env "ISUEER_SEED" = Some (Config.ISUEER_SEED c)
     ∧ Config.ISUEER_SEED c ≠ "")
  ∧ (process_env "USER_SEED" = Some (Config.USER_SEED c)
     ∧ Config.USER_SEED c ≠ "")
  ∧ set_or_absent (process_env "MPT_ISSUANCE_ID") (Config.MPT_ISSUANCE_ID c)
  ∧ set_or_absent (process_env "DOMAIN_ID") (Config.DOMAIN_ID c)
  ∧ set_or_absent (process_env "OUTSIDER_SEED") (Config.OUTSIDER_SEED c).
Proof. apply Config_parse_Parsed. Qed.

Lemma elem_of_issue {A} field name (parsed : option A) :
  field ∈ Config.issue name parsed ↔ field = name ∧ parsed = None.
Proof.
  destruct parsed; simpl.
  - rewrite elem_of_nil. by split; [|intros [_ ?]].
  - rewrite list_elem_of_singleton. by split; [|intros [? _]].
Qed.

Lemma Config_parse_ZodError process_env issues :
  Config.parse process_env = Config.ZodError issues →
  issues
  = Config.issue "NODE_ENV" (Config.parse_enum (process_env "NODE_ENV"))
    ++ Config.issue "IOU_CURRENCY"
         (Config.parse_required (process_env "IOU_CURRENCY"))
    ++ Config.issue "ISUEER_SEED"
         (Config.parse_required (process_env "ISUEER_SEED"))
    ++ Config.issue "USER_SEED" (Config.parse_required (process_env "USER_SEED"))
  ∧ issues ≠ []
  ∧ NoDup issues.
Proof.
  unfold Config.parse. cbv zeta.
  destruct (Config.parse_enum _) as [e|];
    destruct (Config.parse_required (process_env "IOU_CURRENCY")) as [currency|];
    destruct (Config.parse_required (process_env "ISUEER_SEED")) as [isueer|];
    destruct (Config.parse_required (process_env "USER_SEED")) as [user|];
    try discriminate; intros [= <-]; simpl;
    (split; [done|]); (split; [done|]);
    apply (bool_decide_unpack _); by vm_compute.
Qed.

(** X22. When [envSchema.parse] throws, the error lists the fields that
    failed, and no other: at least one, each once, none of them an optional
    field. *)
Theorem Config_parse_issues process_env issues :
  Config.parse process_env = Config.ZodError issues →
  issues ≠ []
  ∧ NoDup issues
  ∧ ∀ field, field ∈ issues ↔
      (field = "NODE_ENV" ∧ ¬ ∃ e, process_env "NODE_ENV" = Some (env_name e))
      ∨ (field ∈ ["IOU_CURRENCY"; "ISUEER_SEED"; "USER_SEED"]
         ∧ ¬ set_nonempty (process_env field)).
Proof.
  intros (-> & Hnonempty & Hnodup)%Config_parse_ZodError.
  split; [exact Hnonempty|]. split; [exact Hnodup|].
  assert (Config.parse_enum (process_env "NODE_ENV") = None
          ↔ ¬ ∃ e, process_env "NODE_ENV" = Some (env_name e)) as He.
  { destruct (Config.parse_enum _) as [e|] eqn:He.
    - apply parse_enum_Some in He. split; [done|]. intros Hno. destruct Hno. eauto.
    - split; [|done]. intros _ [e He'%parse_enum_Some]. congruence. }
  intros field.
  rewrite !elem_of_app, !elem_of_issue, He, !parse_required_None.
  rewrite !elem_of_cons, elem_of_nil.
  split.
  - intros [[-> ?] | [[-> ?] | [[-> ?] | [-> ?]]]]; auto 10.
  - intros [[-> ?] | [[-> | [-> | [-> | []]]] ?]]; auto 10.
Qed.

Section ConfiguredScripts.
Context {L : Type} (sdk : Sdk L).

(** X23. From the environment to the scripts: when the configuration was
    parsed from an environment in which [OUTSIDER_SEED] is not set or is
    empty, [sendIOUOutsider] constructs the client, disconnects it and does
    not return [true]; when [MPT_ISSUANCE_ID] is not set or is empty,
    [mptokenAuthorizeByUser] connects at most and does not return [true]. *)
Theorem unset_variables_stop_scripts process_env c w :
  Config.parse process_env = Config.Parsed c →
  (process_env "OUTSIDER_SEED" = None ∨ process_env "OUTSIDER_SEED" = Some "" →
   calls (sendIOUOutsider sdk c w).2
   = calls w ++ [NewClient (ws (getNetworkUrl (Config.env c))); Disconnect]
   ∧ (sendIOUOutsider sdk c w).1 ≠ Fulfilled true)
  ∧ (process_env "MPT_ISSUANCE_ID" = None ∨ process_env "MPT_ISSUANCE_ID" = Some "" →
     (∃ cs closing,
        calls (mptokenAuthorizeByUser sdk c w).2
        = calls w ++ [NewClient (ws (getNetworkUrl (Config.env c)))] ++ cs ++ closing
        ∧ (cs = [] ∨ cs = [Connect])
        ∧ (closing = [] ∨ closing = [Disconnect]))
     ∧ (mptokenAuthorizeByUser sdk c w).1 ≠ Fulfilled true).
Proof.
  intros (_ & _ & _ & _ & Hid & _ & Hseed)%Config_parse_Parsed.
  split.
  - intros Hunset.
    assert (Config.OUTSIDER_SEED c = None ∨ Config.OUTSIDER_SEED c = Some "") as Hc.
    { destruct (Config.OUTSIDER_SEED c) as [seed|]; [|by left].
      destruct Hseed as [Hraw Hne]. destruct Hunset as [?|?]; congruence. }
    destruct (sendIOUOutsider_guard sdk c w Hc) as [Hcalls Hfalse].
    split; [exact Hcalls|]. by intros ?%Hfalse.
  - intros Hunset.
    assert (Config.MPT_ISSUANCE_ID c = None ∨ Config.MPT_ISSUANCE_ID c = Some "")
      as Hc.
    { destruct (Config.MPT_ISSUANCE_ID c) as [id|]; [|by left].
      destruct Hid as [Hraw Hne]. destruct Hunset as [?|?]; congruence. }
    exact (mptokenAuthorizeByUser_guard sdk c w Hc).
Qed.

End ConfiguredScripts.

(** ** The further properties on the sample node *)

(** On the sample node the entry of [H7] is successful, those of [H8],
    [H0] and [H9] are not. *)
Lemma getBatchTxStatus_successful_iff_status_sample :
  ∃ results,
    (getBatchTxStatus sample_sdk sample_latency sample_pairs sample_world).1
    = Fulfilled results
    ∧ ∀ entry, entry ∈ results →
        (InnerTxStatus.successful entry = true
         ↔ InnerTxStatus.status entry = Str "tesSUCCESS")
        ∧ (InnerTxStatus.status entry = Str "unknown"
           ∨ InnerTxStatus.status entry = Str "not validated" →
           InnerTxStatus.successful entry = false).
Proof.
  eexists. split; [vm_compute; reflexivity|].
  apply (getBatchTxStatus_successful_iff_status sample_sdk sample_latency
           sample_pairs sample_world).
  vm_compute. reflexivity.
Defined.

(** Two pairs, then the two others, or the four at once. *)
Lemma getBatchTxStatus_app_sample :
  ∃ results1 results2 w',
    (getBatchTxStatus sample_sdk sample_latency (take 2 sample_pairs)
       sample_world).1 = Fulfilled results1
    ∧ getBatchTxStatus sample_sdk id (drop 2 sample_pairs)
        (getBatchTxStatus sample_sdk sample_latency (take 2 sample_pairs)
           sample_world).2 = (Fulfilled results2, w')
    ∧ getBatchTxStatus sample_sdk sample_latency
        (take 2 sample_pairs ++ drop 2 sample_pairs) sample_world
      = (Fulfilled (results1 ++ results2), w').
Proof.
  eexists _, _, _. split; [vm_compute; reflexivity|].
  split; [vm_compute; reflexivity|].
  apply (getBatchTxStatus_app sample_sdk sample_latency sample_latency id
           (take 2 sample_pairs) (drop 2 sample_pairs) sample_world);
    vm_compute; reflexivity.
Defined.

(** The loop on the array of the sample batch: two pairs, of indices 1
    and 4. *)
Lemma collectInnerTxHashes_indices_sample :
  ∃ pairs,
    (collectInnerTxHashes sample_sdk sample_items 0 [] sample_world).1
    = Fulfilled pairs
    ∧ length pairs ≤ length sample_items
    ∧ StronglySorted (λ p q, (InnerTxHash.index p < InnerTxHash.index q)%Z) pairs
    ∧ Forall (λ pair, (1 ≤ InnerTxHash.index pair
                       ≤ Z.of_nat (length sample_items))%Z) pairs.
Proof.
  eexists. split; [vm_compute; reflexivity|].
  apply (collectInnerTxHashes_indices sample_sdk sample_items sample_world).
  vm_compute. reflexivity.
Defined.

(** The fourth element of the array is there, with index 4. *)
Lemma collectInnerTxHashes_complete_sample :
  ∃ pairs,
    (collectInnerTxHashes sample_sdk sample_items 0 [] sample_world).1
    = Fulfilled pairs
    ∧ {| InnerTxHash.hash := "H8"; InnerTxHash.index := 4 |} ∈ pairs.
Proof.
  eexists. split; [vm_compute; reflexivity|].
  apply (collectInnerTxHashes_complete sample_sdk sample_items sample_world _ 3
           (Object [("RawTransaction", Object [("Sequence", Number 8)])])
           (Object [("Sequence", Number 8)]) "H8");
    vm_compute; reflexivity.
Defined.

(** [batchOnlyOne] on the sample node terminates and closes the client. *)
Lemma batchOnlyOne_calls_sample :
  sdk_settles sample_sdk
  ∧ ∃ cs,
      calls (batchOnlyOne sample_sdk sample_env sample_latency sample_world).2
      = [NewClient "wss://s.devnet.rippletest.net:51233"] ++ cs ++ [Disconnect]
      ∧ try_calls sample_sdk cs.
Proof.
  split; [exact sample_sdk_settles|].
  destruct (batchOnlyOne_calls sample_sdk sample_env sample_latency sample_world)
    as [(cs & closing & Hcalls & Hshape & _ & _ & Hclosed) Hsettles].
  exists cs. rewrite Hcalls, (Hclosed (Hsettles sample_sdk_settles)).
  split; [reflexivity|exact Hshape].
Defined.

(** [batchUntilFailure] on the sample node terminates and closes the
    client. *)
Lemma batchUntilFailure_calls_sample :
  sdk_settles sample_sdk
  ∧ ∃ cs,
      calls (batchUntilFailure sample_sdk sample_env sample_latency sample_world).2
      = [NewClient "wss://s.devnet.rippletest.net:51233"] ++ cs ++ [Disconnect]
      ∧ try_calls sample_sdk cs.
Proof.
  split; [exact sample_sdk_settles|].
  destruct (batchUntilFailure_calls sample_sdk sample_env sample_latency
              sample_world)
    as [(cs & closing & Hcalls & Hshape & _ & _ & Hclosed) Hsettles].
  exists cs. rewrite Hcalls, (Hclosed (Hsettles sample_sdk_settles)).
  split; [reflexivity|exact Hshape].
Defined.

(** On the sample node the inner transaction [H8] failed:
    [batchAllOrNothing] returns [false], and not every lookup of its call
    of [getBatchTxStatus] was answered with ['tesSUCCESS']. *)
Lemma batchAllOrNothing_verdict_sample :
  (batchAllOrNothing sample_sdk sample_env sample_latency sample_world).1
  = Fulfilled false
  ∧ ∃ cs,
      calls (batchAllOrNothing sample_sdk sample_env sample_latency sample_world).2
      = [NewClient "wss://s.devnet.rippletest.net:51233"] ++ cs ++ [Disconnect]
      ∧ ¬ ∃ before pairs answers,
            cs = before ++ GetBatchTxStatus pairs
                   :: zip_with (λ tx q, SendRequest (tx_request tx) q) pairs answers
            ∧ length answers = length pairs
            ∧ Forall answered_success answers.
Proof.
  split; [vm_compute; reflexivity|].
  destruct (batchAllOrNothing_verdict sample_sdk sample_env sample_latency
              sample_world false) as (cs & Hcalls & Hiff).
  - vm_compute. reflexivity.
  - exists cs. split; [exact Hcalls|].
    intros Hall. apply Hiff in Hall. discriminate Hall.
Defined.



(** On the sample node the batch is fetched back by the hash of the
    response to its submission. *)
Lemma batch_scripts_lookup_validated_sample :
  ∃ tx_blob r,
    SubmitAndWait tx_blob
      ∈ calls (batchOnlyOne sample_sdk sample_env sample_latency sample_world).2
    ∧ validated_submission sample_sdk tx_blob r.
Proof.
  exists "blob", {| command := "tx"; transaction := "BATCH" |}.
  split; [vm_compute; do 3 apply list_elem_of_further; apply list_elem_of_here|].
  eapply (batch_scripts_lookup_validated sample_sdk sample_env sample_latency
            sample_world).
  right. left. vm_compute. reflexivity.
Defined.

(** [sendIOU] on the sample node returns [true]. *)
Lemma sendIOU_outcome_sample :
  (sendIOU sample_sdk sample_env sample_world).1 = Fulfilled true
  ∧ ∃ tx tx_blob,
      calls (sendIOU sample_sdk sample_env sample_world).2
      = [NewClient "wss://s.devnet.rippletest.net:51233";
         Connect; Autofill tx; SubmitAndWait tx_blob; Disconnect]
      ∧ accepted_submission sample_sdk tx_blob.
Proof.
  split; [vm_compute; reflexivity|].
  destruct (sendIOU_outcome sample_sdk sample_env sample_world)
    as [(cs & closing & Hcalls & _ & _ & Hclosed & Htrue) _].
  destruct Htrue as (tx & tx_blob & -> & Haccepted); [vm_compute; reflexivity|].
  exists tx, tx_blob. split; [|exact Haccepted].
  rewrite Hcalls, Hclosed; [reflexivity|vm_compute; discriminate].
Defined.

(** [sendIOUOutsider] with the sample configuration returns [true]. *)
Lemma sendIOUOutsider_outcome_sample :
  (sendIOUOutsider sample_sdk sample_config sample_world).1 = Fulfilled true
  ∧ ∃ tx tx_blob,
      calls (sendIOUOutsider sample_sdk sample_config sample_world).2
      = [NewClient "wss://s.devnet.rippletest.net:51233";
         Connect; Autofill tx; SubmitAndWait tx_blob; Disconnect]
      ∧ accepted_submission sample_sdk tx_blob.
Proof.
  split; [vm_compute; reflexivity|].
  destruct (sendIOUOutsider_outcome sample_sdk sample_config sample_world)
    as [(cs & closing & Hcalls & _ & _ & Hclosed & Htrue) _].
  destruct Htrue as (_ & tx & tx_blob & -> & Haccepted); [vm_compute; reflexivity|].
  exists tx, tx_blob. split; [|exact Haccepted].
  rewrite Hcalls, Hclosed; [reflexivity|vm_compute; discriminate].
Defined.

(** Without the seed the script only opens and closes the client. *)
Lemma sendIOUOutsider_without_seed_sample :
  calls (sendIOUOutsider sample_sdk bare_config sample_world).2
  = [NewClient "wss://s.devnet.rippletest.net:51233"; Disconnect]
  ∧ (sendIOUOutsider sample_sdk bare_config sample_world).1 = Fulfilled false.
Proof.
  destruct (sendIOUOutsider_without_seed sample_sdk bare_config sample_world)
    as [Hcalls _]; [by left|].
  split; [exact Hcalls|vm_compute; reflexivity].
Defined.

(** [mptokenAuthorizeByUser] with the sample configuration returns
    [true]. *)
Lemma mptokenAuthorizeByUser_outcome_sample :
  (mptokenAuthorizeByUser sample_sdk sample_config sample_world).1 = Fulfilled true
  ∧ ∃ tx tx_blob,
      calls (mptokenAuthorizeByUser sample_sdk sample_config sample_world).2
      = [NewClient "wss://s.devnet.rippletest.net:51233";
         Connect; Autofill tx; SubmitAndWait tx_blob; Disconnect]
      ∧ accepted_submission sample_sdk tx_blob.
Proof.
  split; [vm_compute; reflexivity|].
  destruct (mptokenAuthorizeByUser_outcome sample_sdk sample_config sample_world)
    as [(cs & closing & Hcalls & _ & _ & Hclosed & Htrue) _].
  destruct Htrue as (_ & tx & tx_blob & -> & Haccepted); [vm_compute; reflexivity|].
  exists tx, tx_blob. split; [|exact Haccepted].
  rewrite Hcalls, Hclosed; [reflexivity|vm_compute; discriminate].
Defined.

(** Without the identifier the script does not return [true]. *)
Lemma mptokenAuthorizeByUser_without_id_sample :
  (mptokenAuthorizeByUser sample_sdk bare_config sample_world).1 ≠ Fulfilled true.
Proof.
  apply (mptokenAuthorizeByUser_without_id sample_sdk bare_config sample_world).
  by left.
Defined.

(** With a connection that fails to close the promise of [sendIOU] is
    rejected, with the error of [disconnect]. *)
Lemma scripts_reject_only_on_disconnect_sample :
  (sendIOU sample_sdk_unclean sample_env sample_world).1
  = Rejected (Error "socket closed")
  ∧ ∃ l, (client_disconnect sample_sdk_unclean l).1 = Rejected (Error "socket closed").
Proof.
  split; [vm_compute; reflexivity|].
  apply (scripts_reject_only_on_disconnect sample_sdk_unclean sample_env
           sample_config sample_latency sample_world).
  do 3 right. left. vm_compute. reflexivity.
Defined.

(** The sample environment parses to the sample configuration. *)
Lemma Config_parse_fields_sample :
  Config.parse sample_process_env = Config.Parsed sample_config
  ∧ set_or_absent (sample_process_env "OUTSIDER_SEED")
      (Config.OUTSIDER_SEED sample_config).
Proof.
  split; [vm_compute; reflexivity|].
  apply (Config_parse_fields sample_process_env sample_config).
  vm_compute. reflexivity.
Defined.

(** An environment in which three fields fail. *)
Lemma Config_parse_issues_sample :
  Config.parse broken_process_env
  = Config.ZodError ["NODE_ENV"; "ISUEER_SEED"; "USER_SEED"]
  ∧ ¬ set_nonempty (broken_process_env "ISUEER_SEED").
Proof.
  split; [vm_compute; reflexivity|].
  destruct (Config_parse_issues broken_process_env
              ["NODE_ENV"; "ISUEER_SEED"; "USER_SEED"]) as (_ & _ & Hfields).
  - vm_compute. reflexivity.
  - destruct (proj1 (Hfields "ISUEER_SEED")) as [[Hname _]|[_ Hunset]].
    + apply list_elem_of_further, list_elem_of_here.
    + discriminate Hname.
    + exact Hunset.
Defined.

(** The bare environment parses to the bare configuration, with which
    [sendIOUOutsider] only opens and closes the client. *)
Lemma unset_variables_stop_scripts_sample :
  Config.parse bare_process_env = Config.Parsed bare_config
  ∧ calls (sendIOUOutsider sample_sdk bare_config sample_world).2
    = [NewClient "wss://s.devnet.rippletest.net:51233"; Disconnect].
Proof.
  split; [vm_compute; reflexivity|].
  destruct (unset_variables_stop_scripts sample_sdk bare_process_env bare_config
              sample_world) as [Hseed _]; [vm_compute; reflexivity|].
  destruct Hseed as [Hcalls _]; [by right|exact Hcalls].
Defined.

(** A response that reports ['tesSUCCESS'] passes the check of the scripts
    and gives a successful entry. *)
Lemma validateTransactionResult_agrees_sample :
  ∃ entry,
    on_settled {| InnerTxHash.hash := "H7"; InnerTxHash.index := 1 |}
      (Normal (sample_response "H7" sample_success Undefined)) = Normal entry
    ∧ InnerTxStatus.successful entry = true.
Proof.
  apply (validateTransactionResult_agrees
           {| InnerTxHash.hash := "H7"; InnerTxHash.index := 1 |}
           (sample_response "H7" sample_success Undefined)).
  vm_compute. reflexivity.
Defined.

(** An array with a [null] element makes the loop throw. *)
Lemma collectInnerTxHashes_throws_iff_sample :
  ∃ e,
    (collectInnerTxHashes sample_sdk
       [Object [("RawTransaction", Object [("Sequence", Number 7)])]; Null]
       0 [] sample_world).1 = Rejected e.
Proof.
  destruct (collectInnerTxHashes_throws_iff sample_sdk
              [Object [("RawTransaction", Object [("Sequence", Number 7)])]; Null]
              sample_world) as (_ & Hiff & _).
  apply Hiff. exists Null.
  split; [apply list_elem_of_further, list_elem_of_here|by right].
Defined.

(** The sample environment is accepted. *)
Lemma Config_parse_succeeds_iff_sample :
  ∃ c, Config.parse sample_process_env = Config.Parsed c.
Proof.
  apply (Config_parse_succeeds_iff sample_process_env).
  split; [by exists devnet|].
  repeat split; eexists; (split; [vm_compute; reflexivity|discriminate]).
Defined.
